(** * OCPI synchronisation engine of ev-server

    A shallow embedding of [src/client/ocpi/CpoOCPIClient.ts] (the CPO side
    OCPI client) and of [src/scheduler/tasks/ocpi/OCPIPushLocationsTask.ts]
    (the scheduled status broadcast), with the properties of the engine
    proved over it.

    Conventions of the embedding:
    - [async] methods are computations in a state-and-error monad [M]; the
      state carries the trace of every effect the method performs, in order;
    - a remote partner is an oracle answering each HTTP request from the
      history of effects so far ([remote]); [new Date()] reads [clock];
    - JavaScript objects mutated in place ([transaction], [this.ocpiEndpoint])
      are part of the monad state, so a mutation survives a later [throw];
    - dates are milliseconds since the epoch ([Z]); JavaScript numbers that
      carry energy or money are rationals ([Q]); counters are [nat];
    - [Logging.*] calls are left out: they neither branch nor change data. *)

From Stdlib Require Import ZArith QArith List String Bool Lia DecimalString.
Import ListNotations.

Local Open Scope string_scope.
Local Open Scope list_scope.
Local Open Scope nat_scope.

(** ** JavaScript and lodash helpers *)

(** Truthiness of a string: every string but the empty one. *)
Definition truthy (s : string) : bool := negb (String.eqb s "").

(** [Array.prototype.includes] on an array of strings. *)
Definition includes (l : list string) (x : string) : bool :=
  existsb (String.eqb x) l.

(** [_.uniq]: the first occurrence of every element, in order. *)
Fixpoint uniq (l : list string) : list string :=
  match l with
  | [] => []
  | x :: r => x :: filter (fun y => negb (String.eqb y x)) (uniq r)
  end.

(** Template-literal rendering of an integer. *)
Definition showZ (z : Z) : string := NilZero.string_of_int (Z.to_int z).

(** ** Enumerations *)

Inductive OCPIRole := CPO | EMSP.

Inductive OCPIRegistrationStatus := NEW | REGISTERED | UNREGISTERED.

Inductive OCPISessionStatus := ACTIVE | COMPLETED | INVALID | PENDING.

Inductive OCPIAuthMethod := AUTH_REQUEST | WHITELIST.

Inductive OCPIEvseStatus :=
| AVAILABLE | BLOCKED | CHARGING | INOPERATIVE | OUTOFORDER
| PLANNED | REMOVED | RESERVED | UNKNOWN.

Inductive ServerAction :=
| OCPI_PULL_TOKENS | OCPI_PUSH_SESSIONS | OCPI_PUSH_CDRS | OCPI_PATCH_STATUS
| OCPI_CHECK_CDRS | OCPI_CHECK_SESSIONS | OCPI_CHECK_LOCATIONS
| OCPI_PUSH_LOCATIONS
| NO_ACTION.

Definition role_eqb (a b : OCPIRole) : bool :=
  match a, b with CPO, CPO | EMSP, EMSP => true | _, _ => false end.

Definition registration_eqb (a b : OCPIRegistrationStatus) : bool :=
  match a, b with
  | NEW, NEW | REGISTERED, REGISTERED | UNREGISTERED, UNREGISTERED => true
  | _, _ => false
  end.

(** Every member of the EVSE status enum is a non-empty string. *)
Definition truthyStatus (s : OCPIEvseStatus) : bool := true.

(** ** Data model *)

Record OCPIToken := { uid : string; tok_auth_id : string }.

(** Modelled from the spec: a charging period is one metered interval of the
    ordered sequence attached to a session; the type declaration
    [OCPIChargingPeriod] is not part of the sources. *)
Record OCPIChargingPeriod := { period_start : Z; period_kwh : Q }.

Record OCPIEvse := {
  evse_uid : string;
  evse_id : string;
  evse_status : OCPIEvseStatus;
  chargeBoxId : string
}.

Record OCPILocation := {
  loc_id : string;
  loc_name : string;
  evses : option (list OCPIEvse)
}.

Record OCPISession := {
  ses_id : string;
  start_datetime : Z;
  end_datetime : option Z;
  kwh : Q;
  total_cost : Q;
  auth_method : OCPIAuthMethod;
  auth_id : string;
  location : OCPILocation;
  currency : string;
  status : OCPISessionStatus;
  authorization_id : string;
  last_updated : option Z;
  charging_periods : option (list OCPIChargingPeriod)
}.

(** The [Partial<OCPISession>] sent by [updateSession]. *)
Record OCPISessionPatch := {
  patch_kwh : Q;
  patch_last_updated : option Z;
  patch_total_cost : Q;
  patch_currency : string;
  patch_status : OCPISessionStatus;
  patch_charging_periods : option (list OCPIChargingPeriod)
}.

Record OCPICdr := {
  cdr_id : string;
  start_date_time : Z;
  stop_date_time : option Z;
  total_parking_time : Q;
  total_time : Q;
  total_energy : Q;
  cdr_total_cost : Q;
  cdr_currency : string;
  cdr_auth_id : string;
  cdr_authorization_id : string;
  cdr_auth_method : OCPIAuthMethod;
  cdr_location : OCPILocation;
  cdr_charging_periods : list OCPIChargingPeriod;
  cdr_last_updated : option Z
}.

Record OcpiData := {
  session : option OCPISession;
  cdr : option OCPICdr;
  sessionCheckedOn : option Z;
  cdrCheckedOn : option Z
}.

Record TransactionStop := {
  stop_timestamp : option Z;
  totalConsumptionWh : Q;
  roundedPrice : Q;
  totalInactivitySecs : Q;
  totalDurationSecs : Q
}.

Record Transaction := {
  tx_id : Z;
  chargeBoxID : string;
  connectorId : Z;
  timestamp : Z;
  currentTimestamp : Z;
  currentTotalConsumptionWh : Q;
  currentCumulatedPrice : Q;
  priceUnit : string;
  stop : option TransactionStop;
  ocpiData : option OcpiData
}.

Record SiteArea := { siteID : option string }.

Record Site := { site_id : option string; site_name : string }.

Record ChargingStation := {
  cs_id : string;
  siteAreaID : string;
  siteArea : option SiteArea
}.

Record StatusNotification := { sn_chargeBoxID : string; sn_timestamp : Z }.

Record OCPIPatchJobResult := {
  successNbr : nat;
  failureNbr : nat;
  totalNbr : nat;
  last_chargeBoxIDsInFailure : option (list string);
  last_chargeBoxIDsInSuccess : list string
}.

Record OCPIEndpoint := {
  ep_id : string;
  ep_name : string;
  ep_role : OCPIRole;
  ep_status : OCPIRegistrationStatus;
  backgroundPatchJob : bool;
  ep_token : string;
  lastPatchJobOn : option Z;
  lastPatchJobResult : option OCPIPatchJobResult
}.

(** The accumulator every job returns.  A job that does not declare one of
    the id lists leaves it empty. *)
Record OCPIJobResult := {
  success : nat;
  failure : nat;
  total : nat;
  logs : list string;
  objectIDsInFailure : list string;
  objectIDsInSuccess : list string;
  chargeBoxIDsInFailure : list string;
  chargeBoxIDsInSuccess : list string
}.

Definition emptyJobResult : OCPIJobResult :=
  {| success := 0; failure := 0; total := 0; logs := [];
     objectIDsInFailure := []; objectIDsInSuccess := [];
     chargeBoxIDsInFailure := []; chargeBoxIDsInSuccess := [] |}.

(** ** HTTP exchange with the partner *)

Inductive Method := GET | POST | PUT | PATCH.

Inductive Payload :=
| PSession (s : OCPISession)
| PSessionPatch (p : OCPISessionPatch)
| PCdr (c : OCPICdr)
| PStatus (s : OCPIEvseStatus).

Record Request := {
  method : Method;
  url : string;
  body : option Payload;
  authorization : string;
  jsonContentType : bool;
  timeout : Z
}.

(** The [data] member of an OCPI response envelope, when it is truthy. *)
Inductive RData :=
| DArray (tokens : list OCPIToken)
| DObject.

(** The OCPI response envelope ([response.data]). *)
Record Envelope := {
  status_code : option Z;
  env_data : option RData
}.

Record Response := {
  resp_status : Z;
  resp_data : option Envelope;
  link : option string
}.

(** What an axios call comes to: a response, or a rejected promise. *)
Inductive Outcome :=
| Completed (r : Response)
| Failed (detail : string).

(** ** Errors *)

Inductive Error :=
| BackendError (action : ServerAction) (method_name message : string)
| RemoteProtocolError (action : ServerAction) (method_name target : string)
    (detail : string)
| AxiosError (detail : string)
| StorageError (message : string)
| TypeError (message : string).

Definition errorMessage (e : Error) : string :=
  match e with
  | BackendError _ _ m => m
  | RemoteProtocolError _ _ _ d => d
  | AxiosError d => d
  | StorageError m => m
  | TypeError m => m
  end.

(** ** Effects *)

Definition LockKey : Type := string * string * string.

Definition lockKey_eqb (a b : LockKey) : bool :=
  let '(t1, e1, a1) := a in
  let '(t2, e2, a2) := b in
  String.eqb t1 t2 && String.eqb e1 e2 && String.eqb a1 a2.

Record PatchErrorNotification := {
  notif_location : string;
  evseDashboardURL : string
}.

Inductive Event :=
| EHttp (req : Request) (out : Outcome)
| EUpdateToken (t : OCPIToken) (err : option string)
| ESaveTransaction (t : Transaction)
| ESaveOcpiEndpoint (e : OCPIEndpoint)
| ENotify (n : PatchErrorNotification)
| EAcquire (k : LockKey)
| ERelease (k : LockKey).

Record World := {
  trace : list Event;
  locks : list LockKey
}.

Definition emit (e : Event) (w : World) : World :=
  {| trace := trace w ++ [e]; locks := locks w |}.

Inductive Res (A : Type) :=
| Ok (a : A)
| Raise (e : Error)
| OutOfFuel.

Arguments Ok {A} a.
Arguments Raise {A} e.
Arguments OutOfFuel {A}.

Definition M (S A : Type) : Type := S -> Res A * S.

Definition ret {S A} (a : A) : M S A := fun s => (Ok a, s).

Definition bind {S A B} (m : M S A) (k : A -> M S B) : M S B :=
  fun s =>
    match m s with
    | (Ok a, s') => k a s'
    | (Raise e, s') => (Raise e, s')
    | (OutOfFuel, s') => (OutOfFuel, s')
    end.

Definition throw {S A} (e : Error) : M S A := fun s => (Raise e, s).

(** [try { m } catch (error) { h error }] *)
Definition tryCatch {S A} (m : M S A) (h : Error -> M S A) : M S A :=
  fun s =>
    match m s with
    | (Raise e, s') => h e s'
    | other => other
    end.

(** [try { m } finally { fin }] *)
Definition tryFinally {S A} (m : M S A) (fin : M S unit) : M S A :=
  fun s =>
    let '(r, s') := m s in
    match fin s' with
    | (Ok _, s'') => (r, s'')
    | (Raise e, s'') => (Raise e, s'')
    | (OutOfFuel, s'') => (OutOfFuel, s'')
    end.

(** A method of the client working on an object [o] it mutates in place. *)
Definition lift {O W A} (m : M W A) : M (O * W) A :=
  fun '(o, w) => let '(r, w') := m w in (r, (o, w')).

Definition getObj {O W} : M (O * W) O := fun '(o, w) => (Ok o, (o, w)).

Definition setObj {O W} (o' : O) : M (O * W) unit :=
  fun '(_, w) => (Ok tt, (o', w)).

(** Run [m] on the object [o]; the object as [m] leaves it is returned
    next to the result. *)
Definition onObj {O W A} (o : O) (m : M (O * W) A) : M W (A * O) :=
  fun w =>
    match m (o, w) with
    | (Ok a, (o', w')) => (Ok (a, o'), w')
    | (Raise e, (_, w')) => (Raise e, w')
    | (OutOfFuel, (_, w')) => (OutOfFuel, w')
    end.

Declare Scope monad_scope.
Delimit Scope monad_scope with monad.
Notation "x <- m ;; k" := (bind m (fun x => k))
  (at level 61, m at next level, right associativity) : monad_scope.
Notation "m ;; k" := (bind m (fun _ => k))
  (at level 61, right associativity) : monad_scope.
Local Open Scope monad_scope.

(** ** Collaborators that are not part of the sources *)

Record Tenant := { tenant_id : string }.

(** What the base class [OCPIClient] gives a client: [getEndpointUrl],
    [getLocalCountryCode], [getLocalPartyID], the tenant, the bearer token
    of [this.ocpiEndpoint], and [Constants.AXIOS_TIMEOUT]. *)
Record Client := {
  tenantID : string;
  token : string;
  getEndpointUrl : string -> ServerAction -> string;
  getLocalCountryCode : ServerAction -> string;
  getLocalPartyID : ServerAction -> string;
  AXIOS_TIMEOUT : Z
}.


Record TransactionFilter := {
  issuer : bool;
  ocpiCdrChecked : option bool;
  ocpiSessionChecked : option bool
}.

Record Env := {
  (** the partner: its answer to a request, given the effects so far *)
  remote : list Event -> Request -> Outcome;
  (** [new Date()] *)
  clock : list Event -> Z;
  (** [OCPITokensService.updateToken]: [Some msg] when it throws *)
  updateTokenError : list Event -> OCPIToken -> option string;
  (** [OCPIUtils.getNextUrl] *)
  getNextUrl : option string -> option string;
  (** [moment#format] *)
  momentFormat : Z -> string;
  (** [OCPIMapping.buildChargingPeriods] *)
  buildChargingPeriods : Transaction -> list OCPIChargingPeriod;
  (** [OCPIMapping.convertChargingStationToOCPILocation] *)
  convertChargingStationToOCPILocation :
    Site -> ChargingStation -> Z -> string -> string -> OCPILocation;
  (** [SiteAreaStorage.getSiteArea], [SiteStorage.getSite] *)
  getSiteArea : string -> option SiteArea;
  getSite : option string -> Site;
  (** [TransactionStorage.getTransactions] *)
  getTransactions : TransactionFilter -> list Transaction;
  (** [OCPIMapping.getAllLocations] *)
  getAllLocations : list (option OCPILocation);
  (** the stored status notifications *)
  statusNotifications : list StatusNotification;
  (** [TenantStorage.getTenant(...).subdomain], [Utils.buildEvseURL] *)
  tenantSubdomain : string -> string;
  buildEvseURL : string -> string;
  (** the constructor of the base class [OCPIClient] *)
  newOCPIClient : Tenant -> OCPIEndpoint -> Client
}.

(** ** Local helpers of the embedding *)

(** [w'] is [w] after the effects [evs], with the same leases held. *)
Definition Ext (w w' : World) (evs : list Event) : Prop :=
  trace w' = trace w ++ evs /\ locks w' = locks w.

Definition isLockEvent (e : Event) : bool :=
  match e with
  | EAcquire _ | ERelease _ => true
  | _ => false
  end.

(** No event of [evs] takes or gives back a lease. *)
Definition quiet (evs : list Event) : Prop :=
  forallb (fun e => negb (isLockEvent e)) evs = true.

(** The requests sent to the partner along a trace, in order. *)
Fixpoint httpRequests (tr : list Event) : list Request :=
  match tr with
  | [] => []
  | EHttp req _ :: rest => req :: httpRequests rest
  | _ :: rest => httpRequests rest
  end.

Definition isSome {A} (o : option A) : bool :=
  match o with Some _ => true | None => false end.

Definition truthyOpt (o : option string) : bool :=
  match o with Some s => truthy s | None => false end.

(** [a > b] on numbers *)
Definition Qgt_bool (a b : Q) : bool := negb (Qle_bool a b).

(** [response.data.data] *)
Definition dataOf (response : Response) : option RData :=
  match resp_data response with
  | Some data => env_data data
  | None => None
  end.

(** [for (const x of l) { acc = f acc x }] *)
Fixpoint forEach {S A B} (l : list A) (acc : B) (f : B -> A -> M S B)
  : M S B :=
  match l with
  | [] => ret acc
  | x :: r => acc' <- f acc x ;; forEach r acc' f
  end.

Definition incSuccess (r : OCPIJobResult) : OCPIJobResult :=
  {| success := S (success r); failure := failure r; total := total r;
     logs := logs r;
     objectIDsInFailure := objectIDsInFailure r;
     objectIDsInSuccess := objectIDsInSuccess r;
     chargeBoxIDsInFailure := chargeBoxIDsInFailure r;
     chargeBoxIDsInSuccess := chargeBoxIDsInSuccess r |}.

Definition incFailure (r : OCPIJobResult) : OCPIJobResult :=
  {| success := success r; failure := S (failure r); total := total r;
     logs := logs r;
     objectIDsInFailure := objectIDsInFailure r;
     objectIDsInSuccess := objectIDsInSuccess r;
     chargeBoxIDsInFailure := chargeBoxIDsInFailure r;
     chargeBoxIDsInSuccess := chargeBoxIDsInSuccess r |}.

Definition incTotal (r : OCPIJobResult) : OCPIJobResult :=
  {| success := success r; failure := failure r; total := S (total r);
     logs := logs r;
     objectIDsInFailure := objectIDsInFailure r;
     objectIDsInSuccess := objectIDsInSuccess r;
     chargeBoxIDsInFailure := chargeBoxIDsInFailure r;
     chargeBoxIDsInSuccess := chargeBoxIDsInSuccess r |}.

Definition pushLog (line : string) (r : OCPIJobResult) : OCPIJobResult :=
  {| success := success r; failure := failure r; total := total r;
     logs := logs r ++ [line];
     objectIDsInFailure := objectIDsInFailure r;
     objectIDsInSuccess := objectIDsInSuccess r;
     chargeBoxIDsInFailure := chargeBoxIDsInFailure r;
     chargeBoxIDsInSuccess := chargeBoxIDsInSuccess r |}.

Definition pushObjectIDInFailure (id : string) (r : OCPIJobResult)
  : OCPIJobResult :=
  {| success := success r; failure := failure r; total := total r;
     logs := logs r;
     objectIDsInFailure := objectIDsInFailure r ++ [id];
     objectIDsInSuccess := objectIDsInSuccess r;
     chargeBoxIDsInFailure := chargeBoxIDsInFailure r;
     chargeBoxIDsInSuccess := chargeBoxIDsInSuccess r |}.

Definition pushObjectIDInSuccess (id : string) (r : OCPIJobResult)
  : OCPIJobResult :=
  {| success := success r; failure := failure r; total := total r;
     logs := logs r;
     objectIDsInFailure := objectIDsInFailure r;
     objectIDsInSuccess := objectIDsInSuccess r ++ [id];
     chargeBoxIDsInFailure := chargeBoxIDsInFailure r;
     chargeBoxIDsInSuccess := chargeBoxIDsInSuccess r |}.

Definition pushChargeBoxIDInFailure (id : string) (r : OCPIJobResult)
  : OCPIJobResult :=
  {| success := success r; failure := failure r; total := total r;
     logs := logs r;
     objectIDsInFailure := objectIDsInFailure r;
     objectIDsInSuccess := objectIDsInSuccess r;
     chargeBoxIDsInFailure := chargeBoxIDsInFailure r ++ [id];
     chargeBoxIDsInSuccess := chargeBoxIDsInSuccess r |}.

Definition pushChargeBoxIDInSuccess (id : string) (r : OCPIJobResult)
  : OCPIJobResult :=
  {| success := success r; failure := failure r; total := total r;
     logs := logs r;
     objectIDsInFailure := objectIDsInFailure r;
     objectIDsInSuccess := objectIDsInSuccess r;
     chargeBoxIDsInFailure := chargeBoxIDsInFailure r;
     chargeBoxIDsInSuccess := chargeBoxIDsInSuccess r ++ [id] |}.

(** ** The CPO client *)

Section CpoOCPIClient.

Variable env : Env.
Variable cl : Client.

Definition newDate : M World Z :=
  fun w => (Ok (clock env (trace w)), w).

(** One call of [this.axiosInstance]: the request goes out, the partner
    answers, and a rejected promise is a thrown error. *)
Definition axios (req : Request) : M World Response :=
  fun w =>
    let out := remote env (trace w) req in
    match out with
    | Completed r => (Ok r, emit (EHttp req out) w)
    | Failed d => (Raise (AxiosError d), emit (EHttp req out) w)
    end.

Definition bearer : string := "Token " ++ token cl.

(** The request of [axiosInstance.get(target, { headers, timeout })]. *)
Definition getRequest (target : string) : Request :=
  {| method := GET; url := target; body := None;
     authorization := bearer; jsonContentType := false;
     timeout := AXIOS_TIMEOUT cl |}.

(** The request of [axiosInstance.post/put/patch(target, payload, ...)]. *)
Definition sendRequest (m : Method) (target : string) (payload : Payload)
    (limit : Z) : Request :=
  {| method := m; url := target; body := Some payload;
     authorization := bearer; jsonContentType := true;
     timeout := limit |}.

Definition axiosGet (target : string) : M World Response :=
  axios (getRequest target).

Definition axiosSend (m : Method) (target : string) (payload : Payload)
    (limit : Z) : M World Response :=
  axios (sendRequest m target payload limit).

(** Modelled from the spec: [Utils.handleAxiosError] is not part of the
    sources; on a transport failure the transport raises one error kind
    that carries the URL, the method and the upstream detail. *)
Definition handleAxiosError {S A} (error : Error) (target : string)
    (action : ServerAction) (method_name : string) : M S A :=
  throw (RemoteProtocolError action method_name target (errorMessage error)).

Definition updateToken (t : OCPIToken) : M World unit :=
  fun w =>
    let failed := updateTokenError env (trace w) t in
    match failed with
    | None => (Ok tt, emit (EUpdateToken t failed) w)
    | Some msg => (Raise (StorageError msg), emit (EUpdateToken t failed) w)
    end.

Definition saveTransaction (t : Transaction) : M World unit :=
  fun w => (Ok tt, emit (ESaveTransaction t) w).

Definition saveOcpiEndpoint (e : OCPIEndpoint) : M World unit :=
  fun w => (Ok tt, emit (ESaveOcpiEndpoint e) w).

Definition sendOCPIPatchChargingStationsStatusesError
    (n : PatchErrorNotification) : M World unit :=
  fun w => (Ok tt, emit (ENotify n) w).

(** *** pullTokens *)

Definition DAY_MS : Z := 86400000.

(** [moment#startOf('day')] in UTC. *)
Definition startOfDay (t : Z) : Z := (t - t mod DAY_MS)%Z.

(** [moment().utc().subtract(1, 'days').startOf('day')] *)
Definition momentFrom (now : Z) : Z := startOfDay (now - DAY_MS)%Z.

Definition initialTokensUrl (partial : bool) (now : Z) : string :=
  let tokensUrl := getEndpointUrl cl "tokens" OCPI_PULL_TOKENS in
  if partial then
    tokensUrl ++ "?date_from=" ++ momentFormat env (momentFrom now)
      ++ "&limit=100"
  else
    tokensUrl ++ "?limit=100".

(** The body of [for (const token of response.data.data)]. *)
Definition pullToken (sendResult : OCPIJobResult) (token : OCPIToken)
  : M World OCPIJobResult :=
  tryCatch
    (updateToken token ;;
     ret (pushLog ("Token " ++ uid token ++ " successfully updated")
            (incSuccess sendResult)))
    (fun error =>
       ret (pushLog ("Failure updating token:" ++ uid token ++ ":"
                       ++ errorMessage error)
              (incFailure sendResult))).

(** [nextUrl && nextUrl.length > 0 && nextUrl !== tokensUrl] *)
Definition hasNextPage (nextUrl : option string) (tokensUrl : string) : bool :=
  match nextUrl with
  | Some n =>
      truthy n && (0 <? String.length n) && negb (String.eqb n tokensUrl)
  | None => false
  end.

(** The [while (nextResult)] loop of [pullTokens] (CpoOCPIClient.ts, lines
    68-133); [fuel] bounds the number of pages. *)
Fixpoint pullTokensLoop (fuel : nat) (tokensUrl : string)
    (sendResult : OCPIJobResult) : M World OCPIJobResult :=
  match fuel with
  | 0 => fun w => (OutOfFuel, w)
  | S fuel' =>
      response <- tryCatch (axiosGet tokensUrl)
        (fun error =>
           handleAxiosError error tokensUrl OCPI_PULL_TOKENS "pullTokens") ;;
      if negb (resp_status response =? 200)%Z
         || negb (isSome (resp_data response)) then
        throw (BackendError OCPI_PULL_TOKENS "pullTokens"
                 ("Invalid response code " ++ showZ (resp_status response)
                    ++ " from Pull tokens"))
      else
        match dataOf response with
        | None =>
            throw (BackendError OCPI_PULL_TOKENS "pullTokens"
                     "Invalid response from Pull tokens")
        | Some DObject =>
            throw (TypeError "response.data.data is not iterable")
        | Some (DArray tokens) =>
            sendResult' <- forEach tokens sendResult pullToken ;;
            let nextUrl := getNextUrl env (link response) in
            match nextUrl with
            | Some n =>
                if hasNextPage nextUrl tokensUrl then
                  pullTokensLoop fuel' n sendResult'
                else ret sendResult'
            | None => ret sendResult'
            end
        end
  end.

Definition pullTokens (fuel : nat) (partial : bool)
  : M World OCPIJobResult :=
  now <- newDate ;;
  pullTokensLoop fuel (initialTokensUrl partial now) emptyJobResult.

(** *** Pagination, as the specification words it *)

(** One remote page: its URL, the tokens it lists, and the next URL read
    from its continuation header. *)
Record Page := {
  page_url : string;
  page_tokens : list OCPIToken;
  page_next : option string
}.

(** The partner serves page [p]: whenever the page URL is requested it
    answers 200 with the tokens of the page and its continuation header. *)
Definition servesPage (p : Page) : Prop :=
  forall tr,
    exists r,
      remote env tr (getRequest (page_url p)) = Completed r
      /\ resp_status r = 200%Z
      /\ dataOf r = Some (DArray (page_tokens p))
      /\ getNextUrl env (link r) = page_next p.

(** A finite sequence of pages: every page but the last links to the page
    after it, and the last one carries no next link, an empty one, or its
    own URL. *)
Fixpoint linked (pages : list Page) : Prop :=
  match pages with
  | [] => False
  | p :: rest =>
      match rest with
      | [] =>
          page_next p = None \/ page_next p = Some ""
          \/ page_next p = Some (page_url p)
      | q :: _ =>
          page_next p = Some (page_url q)
          /\ page_url q <> "" /\ page_url q <> page_url p
          /\ linked rest
      end
  end.

(** What a run of [pullTokens] does, step by step. *)
Inductive Step :=
| Fetch (req : Request)
| Upsert (t : OCPIToken).

Fixpoint steps (tr : list Event) : list Step :=
  match tr with
  | [] => []
  | EHttp req _ :: rest => Fetch req :: steps rest
  | EUpdateToken t _ :: rest => Upsert t :: steps rest
  | _ :: rest => steps rest
  end.

(** The requests among the steps of a run. *)
Fixpoint fetched (l : list Step) : list Request :=
  match l with
  | [] => []
  | Fetch req :: rest => req :: fetched rest
  | Upsert _ :: rest => fetched rest
  end.

Definition pageSteps (p : Page) : list Step :=
  Fetch (getRequest (page_url p)) :: map Upsert (page_tokens p).

(** *** Session life cycle *)

Definition sessionOf (transaction : Transaction) : option OCPISession :=
  match ocpiData transaction with
  | Some data => session data
  | None => None
  end.

Definition cdrOf (transaction : Transaction) : option OCPICdr :=
  match ocpiData transaction with
  | Some data => cdr data
  | None => None
  end.

Definition setOcpiData (transaction : Transaction) (d : option OcpiData)
  : Transaction :=
  {| tx_id := tx_id transaction; chargeBoxID := chargeBoxID transaction;
     connectorId := connectorId transaction;
     timestamp := timestamp transaction;
     currentTimestamp := currentTimestamp transaction;
     currentTotalConsumptionWh := currentTotalConsumptionWh transaction;
     currentCumulatedPrice := currentCumulatedPrice transaction;
     priceUnit := priceUnit transaction; stop := stop transaction;
     ocpiData := d |}.

(** [transaction.ocpiData.session = s] on an existing [ocpiData]. *)
Definition setSession (transaction : Transaction) (s : OCPISession)
  : Transaction :=
  match ocpiData transaction with
  | Some data =>
      setOcpiData transaction
        (Some {| session := Some s; cdr := cdr data;
                 sessionCheckedOn := sessionCheckedOn data;
                 cdrCheckedOn := cdrCheckedOn data |})
  | None => transaction
  end.

Definition setCdr (transaction : Transaction) (c : OCPICdr) : Transaction :=
  match ocpiData transaction with
  | Some data =>
      setOcpiData transaction
        (Some {| session := session data; cdr := Some c;
                 sessionCheckedOn := sessionCheckedOn data;
                 cdrCheckedOn := cdrCheckedOn data |})
  | None => transaction
  end.

Definition setCdrCheckedOn (transaction : Transaction) (d : Z)
  : Transaction :=
  match ocpiData transaction with
  | Some data =>
      setOcpiData transaction
        (Some {| session := session data; cdr := cdr data;
                 sessionCheckedOn := sessionCheckedOn data;
                 cdrCheckedOn := Some d |})
  | None => transaction
  end.

Definition setSessionCheckedOn (transaction : Transaction) (d : Z)
  : Transaction :=
  match ocpiData transaction with
  | Some data =>
      setOcpiData transaction
        (Some {| session := session data; cdr := cdr data;
                 sessionCheckedOn := Some d;
                 cdrCheckedOn := cdrCheckedOn data |})
  | None => transaction
  end.

(** The site id of a charging station, as every method resolves it. *)
Definition resolveSiteID (chargingStation : ChargingStation)
  : option string :=
  match siteArea chargingStation with
  | Some area =>
      if truthyOpt (siteID area) then siteID area
      else
        match getSiteArea env (siteAreaID chargingStation) with
        | Some stored => siteID stored
        | None => None
        end
  | None =>
      match getSiteArea env (siteAreaID chargingStation) with
      | Some stored => siteID stored
      | None => None
      end
  end.

Definition sessionUrl (action : ServerAction) (id : string) : string :=
  getEndpointUrl cl "sessions" action ++ "/" ++ getLocalCountryCode cl action
    ++ "/" ++ getLocalPartyID cl action ++ "/" ++ id.

(** The payload [startSession] builds (CpoOCPIClient.ts, lines 236-260). *)
Definition buildSession (ocpiToken : OCPIToken)
    (chargingStation : ChargingStation) (transaction : Transaction)
    (authorizationId : string) : OCPISession :=
  let site := getSite env (resolveSiteID chargingStation) in
  let ocpiLocation :=
    convertChargingStationToOCPILocation env site chargingStation
      (connectorId transaction)
      (getLocalCountryCode cl OCPI_PUSH_SESSIONS)
      (getLocalPartyID cl OCPI_PUSH_SESSIONS) in
  {| ses_id := authorizationId;
     start_datetime := timestamp transaction;
     end_datetime := None;
     kwh := 0;
     total_cost := currentCumulatedPrice transaction;
     auth_method := AUTH_REQUEST;
     auth_id := tok_auth_id ocpiToken;
     location := ocpiLocation;
     currency := priceUnit transaction;
     status := PENDING;
     authorization_id := authorizationId;
     last_updated := Some (timestamp transaction);
     charging_periods := None |}.

(** What [startSession] assigns to [transaction.ocpiData]. *)
Definition startedOcpiData (ocpiSession : OCPISession) : OcpiData :=
  {| session := Some ocpiSession; cdr := None;
     sessionCheckedOn := None; cdrCheckedOn := None |}.

Definition startSession (ocpiToken : OCPIToken)
    (chargingStation : ChargingStation) (authorizationId : string)
  : M (Transaction * World) unit :=
  transaction <- getObj ;;
  let sessionsUrl := sessionUrl OCPI_PUSH_SESSIONS authorizationId in
  let ocpiSession :=
    buildSession ocpiToken chargingStation transaction authorizationId in
  response <- lift
    (tryCatch
       (axiosSend PUT sessionsUrl (PSession ocpiSession) (AXIOS_TIMEOUT cl))
       (fun error =>
          handleAxiosError error sessionsUrl OCPI_PUSH_SESSIONS
            "startSession")) ;;
  setObj (setOcpiData transaction (Some (startedOcpiData ocpiSession))).

Definition setChargingPeriods (s : OCPISession)
    (periods : list OCPIChargingPeriod) : OCPISession :=
  {| ses_id := ses_id s; start_datetime := start_datetime s;
     end_datetime := end_datetime s; kwh := kwh s;
     total_cost := total_cost s; auth_method := auth_method s;
     auth_id := auth_id s; location := location s; currency := currency s;
     status := status s; authorization_id := authorization_id s;
     last_updated := last_updated s; charging_periods := Some periods |}.

(** The session as the assignments of [updateSession] leave it. *)
Definition updatedSession (transaction : Transaction) (s : OCPISession)
  : OCPISession :=
  let s1 :=
    {| ses_id := ses_id s;
       start_datetime := start_datetime s;
       end_datetime := end_datetime s;
       kwh := currentTotalConsumptionWh transaction / 1000;
       total_cost := currentCumulatedPrice transaction;
       auth_method := auth_method s;
       auth_id := auth_id s;
       location := location s;
       currency := priceUnit transaction;
       status := ACTIVE;
       authorization_id := authorization_id s;
       last_updated := Some (currentTimestamp transaction);
       charging_periods := charging_periods s |} in
  setChargingPeriods s1
    (buildChargingPeriods env (setSession transaction s1)).

Definition patchBodyOf (s : OCPISession) : OCPISessionPatch :=
  {| patch_kwh := kwh s;
     patch_last_updated := last_updated s;
     patch_total_cost := total_cost s;
     patch_currency := currency s;
     patch_status := status s;
     patch_charging_periods := charging_periods s |}.

Definition updateSession : M (Transaction * World) unit :=
  transaction <- getObj ;;
  match sessionOf transaction with
  | None =>
      throw (BackendError OCPI_PUSH_SESSIONS "updateSession"
               "OCPI Session not started")
  | Some s =>
      let sessionsUrl := sessionUrl OCPI_PUSH_SESSIONS (ses_id s) in
      let s' := updatedSession transaction s in
      setObj (setSession transaction s') ;;
      let patchBody := patchBodyOf s' in
      response <- lift
        (tryCatch
           (axiosSend PATCH sessionsUrl (PSessionPatch patchBody)
              (AXIOS_TIMEOUT cl))
           (fun error =>
              handleAxiosError error sessionsUrl OCPI_PUSH_SESSIONS
                "updateSession")) ;;
      if negb (resp_status response =? 200)%Z
         || negb (isSome (resp_data response)) then
        throw (BackendError OCPI_PUSH_SESSIONS "updateSession"
                 ("Patch Session failed with status "
                    ++ showZ (resp_status response)))
      else ret tt
  end.

(** The session as the assignments of [stopSession] leave it. *)
Definition stoppedSession (transaction : Transaction) (s : OCPISession)
    (stopped : TransactionStop) : OCPISession :=
  let s1 :=
    {| ses_id := ses_id s;
       start_datetime := start_datetime s;
       end_datetime := stop_timestamp stopped;
       kwh := totalConsumptionWh stopped / 1000;
       total_cost := roundedPrice stopped;
       auth_method := auth_method s;
       auth_id := auth_id s;
       location := location s;
       currency := currency s;
       status := COMPLETED;
       authorization_id := authorization_id s;
       last_updated := stop_timestamp stopped;
       charging_periods := charging_periods s |} in
  setChargingPeriods s1
    (buildChargingPeriods env (setSession transaction s1)).

Definition stopSession : M (Transaction * World) unit :=
  transaction <- getObj ;;
  match sessionOf transaction with
  | None =>
      throw (BackendError OCPI_PUSH_SESSIONS "stopSession"
               "OCPI Session not started")
  | Some s =>
      match stop transaction with
      | None =>
          throw (BackendError OCPI_PUSH_SESSIONS "stopSession"
                   "Transaction not stopped")
      | Some stopped =>
          let tokensUrl := sessionUrl OCPI_PUSH_SESSIONS (ses_id s) in
          let s' := stoppedSession transaction s stopped in
          setObj (setSession transaction s') ;;
          response <- lift
            (tryCatch
               (axiosSend PUT tokensUrl (PSession s') (AXIOS_TIMEOUT cl))
               (fun error =>
                  handleAxiosError error tokensUrl OCPI_PUSH_SESSIONS
                    "stopSession")) ;;
          if negb (resp_status response =? 200)%Z
             || negb (isSome (resp_data response)) then
            throw (BackendError OCPI_PUSH_SESSIONS "stopSession"
                     ("Stop Session failed with status "
                        ++ showZ (resp_status response)))
          else ret tt
      end
  end.

(** *** CDR exchange *)

(** The CDR [postCdr] derives from the session and the stop record. *)
Definition buildCdr (transaction : Transaction) (s : OCPISession)
    (stopped : TransactionStop) : OCPICdr :=
  {| cdr_id := ses_id s;
     start_date_time := timestamp transaction;
     stop_date_time := stop_timestamp stopped;
     total_parking_time := totalInactivitySecs stopped;
     total_time := totalDurationSecs stopped / 3600;
     total_energy := totalConsumptionWh stopped / 1000;
     cdr_total_cost :=
       if Qgt_bool (roundedPrice stopped) 0
       then roundedPrice stopped else 0;
     cdr_currency :=
       if truthy (priceUnit transaction) then priceUnit transaction
       else "";
     cdr_auth_id := auth_id s;
     cdr_authorization_id := authorization_id s;
     cdr_auth_method := auth_method s;
     cdr_location := location s;
     cdr_charging_periods := buildChargingPeriods env transaction;
     cdr_last_updated := stop_timestamp stopped |}.

Definition postCdr : M (Transaction * World) unit :=
  transaction <- getObj ;;
  match sessionOf transaction with
  | None =>
      throw (BackendError OCPI_PUSH_CDRS "postCdr" "Session not started")
  | Some s =>
      match stop transaction with
      | None =>
          throw (BackendError OCPI_PUSH_CDRS "postCdr"
                   "Transaction not stopped")
      | Some stopped =>
          let cdrsUrl := getEndpointUrl cl "cdrs" OCPI_PUSH_CDRS in
          let built := buildCdr transaction s stopped in
          setObj (setCdr transaction built) ;;
          response <- lift
            (tryCatch
               (axiosSend POST cdrsUrl (PCdr built) (AXIOS_TIMEOUT cl))
               (fun error =>
                  handleAxiosError error cdrsUrl OCPI_PUSH_CDRS
                    "stopSession")) ;;
          if negb (resp_status response =? 200)%Z
             || negb (isSome (resp_data response)) then
            throw (BackendError OCPI_PUSH_CDRS "postCdr"
                     ("Post cdr failed with status "
                        ++ showZ (resp_status response)))
          else ret tt
      end
  end.

(** [response.data.status_code === 3001] *)
Definition statusCodeIs (response : Response) (code : Z) : bool :=
  match resp_data response with
  | Some data =>
      match status_code data with
      | Some c => (c =? code)%Z
      | None => false
      end
  | None => false
  end.

(** The error at the end of [checkCdr] (CpoOCPIClient.ts, lines 679-684). *)
Definition invalidCdrResponse (target : string) : Error :=
  BackendError OCPI_CHECK_CDRS "checkCdr"
    ("Invalid response from Check cdr at " ++ target).

Definition checkCdr : M (Transaction * World) bool :=
  transaction <- getObj ;;
  match cdrOf transaction with
  | None =>
      throw (BackendError OCPI_CHECK_CDRS "checkCdr"
               ("Unable to check cdr for transaction "
                  ++ showZ (tx_id transaction) ++ ", ocpi data are missing"))
  | Some localCdr =>
      let cdrsUrl := getEndpointUrl cl "cdrs" OCPI_CHECK_CDRS in
      let target := (cdrsUrl ++ "/" ++ cdr_id localCdr)%string in
      response <- lift
        (tryCatch (axiosGet target)
           (fun error =>
              handleAxiosError error target OCPI_CHECK_CDRS "checkCdr")) ;;
      let invalid := throw (invalidCdrResponse target) in
      if (resp_status response =? 200)%Z && isSome (resp_data response) then
        if statusCodeIs response 3001 then
          lift (axiosSend POST cdrsUrl (PCdr localCdr) 10000) ;;
          ret false
        else
          match dataOf response with
          | Some _ =>
              now <- lift newDate ;;
              let checked := setCdrCheckedOn transaction now in
              setObj checked ;;
              lift (saveTransaction checked) ;;
              ret true
          | None => invalid
          end
      else invalid
  end.

Definition checkSession : M (Transaction * World) bool :=
  transaction <- getObj ;;
  match sessionOf transaction with
  | None =>
      throw (BackendError OCPI_CHECK_SESSIONS "checkSession"
               ("Unable to check session for transaction "
                  ++ showZ (tx_id transaction) ++ ", ocpi data are missing"))
  | Some s =>
      let sessionsUrl := sessionUrl OCPI_CHECK_SESSIONS (ses_id s) in
      response <- lift
        (tryCatch (axiosGet sessionsUrl)
           (fun error =>
              handleAxiosError error sessionsUrl OCPI_CHECK_SESSIONS
                "checkSession")) ;;
      let invalid :=
        throw (BackendError OCPI_CHECK_CDRS "checkSession"
                 ("Invalid response from Check session at " ++ sessionsUrl)) in
      if (resp_status response =? 200)%Z && isSome (resp_data response) then
        match dataOf response with
        | Some _ =>
            now <- lift newDate ;;
            let checked := setSessionCheckedOn transaction now in
            setObj checked ;;
            lift (saveTransaction checked) ;;
            ret true
        | None => invalid
        end
      else invalid
  end.

(** *** Reconciliation sweeps *)

Definition checkCdrsItem (result : OCPIJobResult) (transaction : Transaction)
  : M World OCPIJobResult :=
  result' <- tryCatch
    (checked <- onObj transaction checkCdr ;;
     if fst checked then
       ret (pushObjectIDInSuccess (showZ (tx_id transaction))
              (incSuccess result))
     else
       ret (pushObjectIDInFailure (showZ (tx_id transaction))
              (incFailure result)))
    (fun error =>
       ret (pushLog ("Failure checking cdr for transaction:"
                       ++ showZ (tx_id transaction) ++ ":"
                       ++ errorMessage error)
              (pushObjectIDInFailure (showZ (tx_id transaction))
                 (incFailure result)))) ;;
  ret (incTotal result').

Definition checkCdrs : M World OCPIJobResult :=
  let transactions :=
    getTransactions env
      {| issuer := true; ocpiCdrChecked := Some false;
         ocpiSessionChecked := None |} in
  forEach transactions emptyJobResult checkCdrsItem.

(** [transaction.stop && transaction.stop.timestamp] *)
Definition stoppedAt (transaction : Transaction) : bool :=
  match stop transaction with
  | Some stopped => isSome (stop_timestamp stopped)
  | None => false
  end.

Definition checkSessionsItem (result : OCPIJobResult)
    (transaction : Transaction) : M World OCPIJobResult :=
  result' <-
    (if stoppedAt transaction then
       tryCatch
         (checked <- onObj transaction checkSession ;;
          if fst checked then
            ret (pushObjectIDInSuccess (showZ (tx_id transaction))
                   (incSuccess result))
          else
            ret (pushObjectIDInFailure (showZ (tx_id transaction))
                   (incFailure result)))
         (fun error =>
            ret (pushLog ("Failure checking session for transaction:"
                            ++ showZ (tx_id transaction) ++ ":"
                            ++ errorMessage error)
                   (pushObjectIDInFailure (showZ (tx_id transaction))
                      (incFailure result))))
     else ret result) ;;
  ret (incTotal result').

Definition checkSessions : M World OCPIJobResult :=
  let transactions :=
    getTransactions env
      {| issuer := true; ocpiCdrChecked := None;
         ocpiSessionChecked := Some false |} in
  forEach transactions emptyJobResult checkSessionsItem.

Definition locationUrl (action : ServerAction) (locationId : string)
  : string :=
  getEndpointUrl cl "locations" action ++ "/" ++ getLocalCountryCode cl action
    ++ "/" ++ getLocalPartyID cl action ++ "/" ++ locationId.

Definition checkLocation (loc : OCPILocation) : M World bool :=
  let target := locationUrl OCPI_CHECK_LOCATIONS (loc_id loc) in
  response <- tryCatch (axiosGet target)
    (fun error =>
       handleAxiosError error target OCPI_CHECK_LOCATIONS "checkLocation") ;;
  let invalid :=
    throw (BackendError OCPI_CHECK_LOCATIONS "checkLocation"
             "Invalid response from Check location") in
  if (resp_status response =? 200)%Z && isSome (resp_data response) then
    match dataOf response with
    | Some _ => ret true
    | None => invalid
    end
  else invalid.

Definition checkLocationsItem (result : OCPIJobResult)
    (entry : option OCPILocation) : M World OCPIJobResult :=
  result' <-
    match entry with
    | Some loc =>
        tryCatch
          (checked <- checkLocation loc ;;
           if checked then
             ret (pushObjectIDInSuccess (loc_id loc) (incSuccess result))
           else
             ret (pushObjectIDInFailure (loc_id loc) (incFailure result)))
          (fun error =>
             ret (pushLog ("Failure checking location " ++ loc_id loc ++ ":"
                             ++ errorMessage error)
                    (pushObjectIDInFailure (loc_id loc)
                       (incFailure result))))
    | None => ret result
    end ;;
  ret (incTotal result').

Definition checkLocations : M World OCPIJobResult :=
  forEach (getAllLocations env) emptyJobResult checkLocationsItem.

(** *** Status broadcast *)

Definition patchEVSEStatus (locationId evseUID : string)
    (newStatus : OCPIEvseStatus) : M World unit :=
  if negb (truthy locationId) || negb (truthy evseUID)
     || negb (truthyStatus newStatus) then
    throw (BackendError OCPI_PATCH_STATUS "patchEVSEStatus"
             "Invalid parameters")
  else
    let fullUrl :=
      (locationUrl OCPI_PATCH_STATUS locationId ++ "/" ++ evseUID)%string in
    response <- tryCatch
      (axiosSend PATCH fullUrl (PStatus newStatus) (AXIOS_TIMEOUT cl))
      (fun error =>
         handleAxiosError error fullUrl OCPI_PATCH_STATUS "patchEVSEStatus") ;;
    if negb (isSome (resp_data response)) then
      throw (BackendError OCPI_PATCH_STATUS "patchEVSEStatus"
               ("Patch EVSE Status failed with status "
                  ++ showZ (resp_status response)))
    else ret tt.

Definition getChargeBoxIDsInFailure (ocpiEndpoint : OCPIEndpoint)
  : list string :=
  match lastPatchJobResult ocpiEndpoint with
  | Some last =>
      match last_chargeBoxIDsInFailure last with
      | Some ids => ids
      | None => []
      end
  | None => []
  end.

Record StatusNotificationsResult := {
  count : nat;
  result : list StatusNotification
}.

(** Modelled from the spec: [OCPPStorage.getStatusNotifications] is not part
    of the sources; with [dateFrom] it yields the status notifications
    recorded since that date, and [count] is their number
    ([Constants.DB_PARAMS_MAX_LIMIT] does not cut the result). *)
Definition getStatusNotifications (dateFrom : Z) : StatusNotificationsResult :=
  let found :=
    filter (fun n => (dateFrom <=? sn_timestamp n)%Z)
      (statusNotifications env) in
  {| count := List.length found; result := found |}.

Definition getChargeBoxIDsWithNewStatusNotifications
  : M (OCPIEndpoint * World) (list string) :=
  ocpiEndpoint <- getObj ;;
  lastPatchJobOn <-
    match lastPatchJobOn ocpiEndpoint with
    | Some d => ret d
    | None => lift newDate
    end ;;
  let statusNotificationsResult := getStatusNotifications lastPatchJobOn in
  if 0 <? count statusNotificationsResult then
    ret (map sn_chargeBoxID (result statusNotificationsResult))
  else ret [].

(** The body of [for (const evse of location.evses)] in [sendEVSEStatuses]
    (CpoOCPIClient.ts, lines 948-983). *)
Definition sendEVSEStatus (processAllEVSEs : bool)
    (chargeBoxIDsToProcess : list string) (loc : OCPILocation)
    (sendResult : OCPIJobResult) (evse : OCPIEvse) : M World OCPIJobResult :=
  let sendResult := incTotal sendResult in
  if negb processAllEVSEs
     && negb (includes chargeBoxIDsToProcess (chargeBoxId evse)) then
    ret sendResult
  else if truthy (loc_id loc) && truthy (evse_uid evse) then
    sendResult <- tryCatch
      (patchEVSEStatus (loc_id loc) (evse_uid evse) (evse_status evse) ;;
       ret (pushLog ("Updated successfully status for locationID:"
                       ++ loc_id loc ++ " - evseID:" ++ evse_id evse)
              (pushChargeBoxIDInSuccess (chargeBoxId evse)
                 (incSuccess sendResult))))
      (fun error =>
         ret (pushLog ("Failure updating status for locationID:"
                         ++ loc_id loc ++ " - evseID:" ++ evse_id evse ++ ":"
                         ++ errorMessage error)
                (pushChargeBoxIDInFailure (chargeBoxId evse)
                   (incFailure sendResult)))) ;;
    if 0 <? failure sendResult then
      sendOCPIPatchChargingStationsStatusesError
        {| notif_location := loc_name loc;
           evseDashboardURL :=
             buildEvseURL env (tenantSubdomain env (tenantID cl)) |} ;;
      ret sendResult
    else ret sendResult
  else ret sendResult.

(** The body of [for (const location of locations.result)]. *)
Definition sendLocationStatuses (processAllEVSEs : bool)
    (chargeBoxIDsToProcess : list string) (sendResult : OCPIJobResult)
    (entry : option OCPILocation) : M World OCPIJobResult :=
  match entry with
  | Some loc =>
      match evses loc with
      | Some list =>
          forEach list sendResult
            (sendEVSEStatus processAllEVSEs chargeBoxIDsToProcess loc)
      | None => ret sendResult
      end
  | None => ret sendResult
  end.

(** The delta candidates: [chargeBoxIDsToProcess] after [_.uniq]. *)
Definition chargeBoxIDsToProcess (processAllEVSEs : bool)
  : M (OCPIEndpoint * World) (list string) :=
  if negb processAllEVSEs then
    ocpiEndpoint <- getObj ;;
    let failed := getChargeBoxIDsInFailure ocpiEndpoint in
    notified <- getChargeBoxIDsWithNewStatusNotifications ;;
    ret (uniq (failed ++ notified))
  else ret [].

Definition setLastPatchJob (e : OCPIEndpoint) (on : Z)
    (last : OCPIPatchJobResult) : OCPIEndpoint :=
  {| ep_id := ep_id e; ep_name := ep_name e; ep_role := ep_role e;
     ep_status := ep_status e; backgroundPatchJob := backgroundPatchJob e;
     ep_token := ep_token e; lastPatchJobOn := Some on;
     lastPatchJobResult := Some last |}.

Definition sendEVSEStatuses (processAllEVSEs : bool)
  : M (OCPIEndpoint * World) OCPIJobResult :=
  startDate <- lift newDate ;;
  toProcess <- chargeBoxIDsToProcess processAllEVSEs ;;
  let locations := getAllLocations env in
  sendResult <- lift
    (forEach locations emptyJobResult
       (sendLocationStatuses processAllEVSEs toProcess)) ;;
  ocpiEndpoint <- getObj ;;
  let updated :=
    setLastPatchJob ocpiEndpoint startDate
      {| successNbr := success sendResult;
         failureNbr := failure sendResult;
         totalNbr := total sendResult;
         last_chargeBoxIDsInFailure :=
           Some (uniq (chargeBoxIDsInFailure sendResult));
         last_chargeBoxIDsInSuccess :=
           uniq (chargeBoxIDsInSuccess sendResult) |} in
  setObj updated ;;
  lift (saveOcpiEndpoint updated) ;;
  ret sendResult.

(** *** The status broadcast, as the specification words it *)

(** Every EVSE of the location tree with its location, in sweep order. *)
Definition allEvses (locations : list (option OCPILocation))
  : list (OCPILocation * OCPIEvse) :=
  flat_map
    (fun entry =>
       match entry with
       | Some loc =>
           match evses loc with
           | Some list => map (pair loc) list
           | None => []
           end
       | None => []
       end)
    locations.

(** The date the delta run compares status notifications with. *)
Definition deltaBaseline (ocpiEndpoint : OCPIEndpoint) (w : World) : Z :=
  match lastPatchJobOn ocpiEndpoint with
  | Some d => d
  | None => clock env (trace w)
  end.

(** The deduplicated union of the charge points in failure in the last job
    result and of those notified since the baseline. *)
Definition deltaCandidates (ocpiEndpoint : OCPIEndpoint) (w : World)
  : list string :=
  uniq (getChargeBoxIDsInFailure ocpiEndpoint
          ++ map sn_chargeBoxID
               (filter
                  (fun n => (deltaBaseline ocpiEndpoint w <=? sn_timestamp n)%Z)
                  (statusNotifications env))).

(** The EVSEs a run is to patch according to the specification: all of them
    in a full run, those of a candidate charge point in a delta run. *)
Definition inScope (full : bool) (candidates : list string)
    (p : OCPILocation * OCPIEvse) : bool :=
  full || includes candidates (chargeBoxId (snd p)).

(** The guard of the sweep: location id and EVSE uid are not empty. *)
Definition patchable (p : OCPILocation * OCPIEvse) : bool :=
  truthy (loc_id (fst p)) && truthy (evse_uid (snd p)).

(** The PATCH of one EVSE status. *)
Definition patchRequest (p : OCPILocation * OCPIEvse) : Request :=
  sendRequest PATCH
    (locationUrl OCPI_PATCH_STATUS (loc_id (fst p)) ++ "/"
       ++ evse_uid (snd p))%string
    (PStatus (evse_status (snd p))) (AXIOS_TIMEOUT cl).

End CpoOCPIClient.

(** ** The scheduled push-locations task *)

Section OCPIPushLocationsTask.

Variable env : Env.

Record OCPIPushLocationsTaskConfig := {
  processAllEVSEs : option bool
}.

(** The constructor of [CpoOCPIClient] (CpoOCPIClient.ts, lines 39-47);
    [OCPIClientFactory.getCpoOcpiClient] is taken to build the client with
    it. *)
Definition newCpoOCPIClient (tenant : Tenant) (ocpiEndpoint : OCPIEndpoint)
  : M World Client :=
  let client := newOCPIClient env tenant ocpiEndpoint in
  if negb (role_eqb (ep_role ocpiEndpoint) CPO) then
    throw (BackendError NO_ACTION "constructor"
             "CpoOcpiClient requires Ocpi Endpoint with role CPO")
  else ret client.

(** Modelled from the spec: [LockingHelper.createOCPIEndpointActionLock] is
    not part of the sources; it asks the lock coordinator for the lease
    scoped to (endpoint id, action name) and yields the lease, or none when
    the lease is already held, without waiting. *)
Definition createOCPIEndpointActionLock (tenantID : string)
    (ocpiEndpoint : OCPIEndpoint) (action : string)
  : M World (option LockKey) :=
  fun w =>
    let key := (tenantID, ep_id ocpiEndpoint, action) in
    if existsb (lockKey_eqb key) (locks w) then (Ok None, w)
    else
      (Ok (Some key),
       {| trace := trace w ++ [EAcquire key]; locks := key :: locks w |}).

(** Modelled from the spec: [LockingManager.release] is not part of the
    sources; it gives the lease back to the lock coordinator. *)
Definition release (lock : LockKey) : M World unit :=
  fun w =>
    (Ok tt,
     {| trace := trace w ++ [ERelease lock];
        locks := filter (fun k => negb (lockKey_eqb lock k)) (locks w) |}).

Definition processOCPIEndpoint (tenant : Tenant)
    (ocpiEndpoint : OCPIEndpoint) (config : OCPIPushLocationsTaskConfig)
  : M World unit :=
  ocpiLock <-
    createOCPIEndpointActionLock (tenant_id tenant) ocpiEndpoint
      "patch-locations" ;;
  match ocpiLock with
  | Some lock =>
      tryFinally
        (tryCatch
           (if negb (registration_eqb (ep_status ocpiEndpoint) REGISTERED)
            then ret tt
            else if negb (backgroundPatchJob ocpiEndpoint) then ret tt
            else
              ocpiClient <- newCpoOCPIClient tenant ocpiEndpoint ;;
              sendResult <- onObj ocpiEndpoint
                (sendEVSEStatuses env ocpiClient
                   (match processAllEVSEs config with
                    | Some all => all
                    | None => false
                    end)) ;;
              ret tt)
           (fun error => ret tt))
        (release lock)
  | None => ret tt
  end.

End OCPIPushLocationsTask.

(** ** Fixtures: a small partner, store and client to run the engine on *)

Module Fixtures.

Definition client : Client :=
  {| tenantID := "t1";
     token := "secret";
     getEndpointUrl := fun service _ => ("https://iop/" ++ service)%string;
     getLocalCountryCode := fun _ => "FR";
     getLocalPartyID := fun _ => "SLF";
     AXIOS_TIMEOUT := 30000 |}.

Definition okEnvelope (d : option RData) : Envelope :=
  {| status_code := Some 1000%Z; env_data := d |}.

Definition respond (st : Z) (data : option Envelope) (next : option string)
  : Outcome :=
  Completed {| resp_status := st; resp_data := data; link := next |}.

Definition site0 : Site := {| site_id := Some "S1"; site_name := "Site 1" |}.

Definition location0 : OCPILocation :=
  {| loc_id := "S1"; loc_name := "Site 1"; evses := None |}.

(** An environment around a given partner, token store, location tree and
    notification store; the clock stands at noon of 2 January 1970. *)
Definition mkEnv (partner : list Event -> Request -> Outcome)
    (tokenStore : OCPIToken -> option string)
    (locations : list (option OCPILocation))
    (notifications : list StatusNotification)
    (transactions : list Transaction) : Env :=
  {| remote := partner;
     clock := fun _ => 129600000%Z;
     updateTokenError := fun _ => tokenStore;
     getNextUrl := fun header => header;
     momentFormat := showZ;
     buildChargingPeriods := fun _ => [];
     convertChargingStationToOCPILocation := fun _ _ _ _ _ => location0;
     getSiteArea := fun _ => Some {| siteID := Some "S1" |};
     getSite := fun _ => site0;
     getTransactions := fun _ => transactions;
     getAllLocations := locations;
     statusNotifications := notifications;
     tenantSubdomain := fun _ => "sub";
     buildEvseURL := fun sub => ("https://" ++ sub ++ "/evse")%string;
     newOCPIClient := fun _ _ => client |}.

Definition world0 : World := {| trace := []; locks := [] |}.

Definition token (id : string) : OCPIToken :=
  {| uid := id; tok_auth_id := id |}.

(** A partner serving two token pages, the second without a next link. *)
Definition tokenPartner (_ : list Event) (req : Request) : Outcome :=
  if String.eqb (url req) "https://iop/tokens?limit=100" then
    respond 200 (Some (okEnvelope (Some (DArray [token "A"; token "B"; token "C"]))))
      (Some "https://iop/tokens?offset=3")
  else if String.eqb (url req) "https://iop/tokens?offset=3" then
    respond 200 (Some (okEnvelope (Some (DArray [token "D"])))) None
  else Failed "404".

(** A token store that rejects token B. *)
Definition rejectB (t : OCPIToken) : option string :=
  if String.eqb (uid t) "B" then Some "duplicate key" else None.

Definition tokenEnv : Env := mkEnv tokenPartner rejectB [] [] [].

Definition station0 : ChargingStation :=
  {| cs_id := "CS1"; siteAreaID := "SA1"; siteArea := None |}.

Definition transaction0 (price : Q) : Transaction :=
  {| tx_id := 7%Z; chargeBoxID := "CS1"; connectorId := 1%Z;
     timestamp := 1000%Z; currentTimestamp := 2000%Z;
     currentTotalConsumptionWh := 0; currentCumulatedPrice := price;
     priceUnit := "EUR"; stop := None; ocpiData := None |}.

(** A partner that accepts every request with a 200 and an object. *)
Definition acceptAll (_ : list Event) (_ : Request) : Outcome :=
  respond 200 (Some (okEnvelope (Some DObject))) None.

(** A partner that answers every request with a 204 and no body. *)
Definition noContent (_ : list Event) (_ : Request) : Outcome :=
  respond 204 None None.

Definition acceptEnv : Env := mkEnv acceptAll (fun _ => None) [] [] [].

Definition noContentEnv : Env := mkEnv noContent (fun _ => None) [] [] [].

Definition session0 : OCPISession :=
  {| ses_id := "AUTH"; start_datetime := 1000%Z; end_datetime := None;
     kwh := 0; total_cost := 0; auth_method := AUTH_REQUEST; auth_id := "A";
     location := location0; currency := "EUR"; status := PENDING;
     authorization_id := "AUTH"; last_updated := Some 1000%Z;
     charging_periods := None |}.

Definition stop0 : TransactionStop :=
  {| stop_timestamp := Some 5000%Z; totalConsumptionWh := 12000;
     roundedPrice := 3; totalInactivitySecs := 60;
     totalDurationSecs := 7200 |}.

(** A stopped transaction whose session was started. *)
Definition stoppedTransaction (id : Z) : Transaction :=
  {| tx_id := id; chargeBoxID := "CS1"; connectorId := 1%Z;
     timestamp := 1000%Z; currentTimestamp := 5000%Z;
     currentTotalConsumptionWh := 12000; currentCumulatedPrice := 3;
     priceUnit := "EUR"; stop := Some stop0;
     ocpiData := Some (startedOcpiData session0) |}.

Definition cdr0 : OCPICdr :=
  buildCdr acceptEnv (stoppedTransaction 7) session0 stop0.

(** A transaction whose CDR was posted. *)
Definition billedTransaction (id : Z) : Transaction :=
  setCdr (stoppedTransaction id) cdr0.

Definition unknownCdr : option Envelope :=
  Some {| status_code := Some 3001%Z; env_data := None |}.

(** A partner that does not know the CDR, says so under HTTP 201, and
    would accept a resubmission. *)
Definition unknownCdr201 (_ : list Event) (req : Request) : Outcome :=
  match method req with
  | GET => respond 201 unknownCdr None
  | _ => respond 200 (Some (okEnvelope None)) None
  end.

(** A partner that does not know the CDR (HTTP 200, status code 3001) and
    whose CDR module then times out on the resubmission. *)
Definition unknownCdrThenTimeout (_ : list Event) (req : Request) : Outcome :=
  match method req with
  | GET => respond 200 unknownCdr None
  | _ => Failed "timeout of 10000ms exceeded"
  end.

(** A partner that does not know the CDR and accepts the resubmission. *)
Definition unknownCdrThenAccept (_ : list Event) (req : Request) : Outcome :=
  match method req with
  | GET => respond 200 unknownCdr None
  | _ => respond 200 (Some (okEnvelope None)) None
  end.

Definition unknown201Env : Env :=
  mkEnv unknownCdr201 (fun _ => None) [] [] [].

Definition timeoutEnv : Env :=
  mkEnv unknownCdrThenTimeout (fun _ => None) [] [] [].

Definition resubmitEnv : Env :=
  mkEnv unknownCdrThenAccept (fun _ => None) [] [] [].

(** The two token pages [tokenPartner] serves. *)
Definition page1 : Page :=
  {| page_url := "https://iop/tokens?limit=100";
     page_tokens := [token "A"; token "B"; token "C"];
     page_next := Some "https://iop/tokens?offset=3" |}.

Definition page2 : Page :=
  {| page_url := "https://iop/tokens?offset=3";
     page_tokens := [token "D"];
     page_next := None |}.

Definition tenant0 : Tenant := {| tenant_id := "t1" |}.

(** An endpoint that never ran the status broadcast. *)
Definition endpoint0 : OCPIEndpoint :=
  {| ep_id := "EP1"; ep_name := "partner"; ep_role := CPO;
     ep_status := REGISTERED; backgroundPatchJob := true;
     ep_token := "secret"; lastPatchJobOn := None;
     lastPatchJobResult := None |}.

(** An endpoint whose last run, at 01:00 on 1 January 1970, failed on
    charge point CP-A. *)
Definition endpointAfterFailure : OCPIEndpoint :=
  {| ep_id := "EP1"; ep_name := "partner"; ep_role := CPO;
     ep_status := REGISTERED; backgroundPatchJob := true;
     ep_token := "secret"; lastPatchJobOn := Some 3600000%Z;
     lastPatchJobResult :=
       Some {| successNbr := 2; failureNbr := 1; totalNbr := 3;
               last_chargeBoxIDsInFailure := Some ["CP-A"];
               last_chargeBoxIDsInSuccess := ["CP-B"; "CP-C"] |} |}.

Definition evse (id chargeBox : string) : OCPIEvse :=
  {| evse_uid := id; evse_id := ("FR*SLF*E" ++ id)%string;
     evse_status := AVAILABLE; chargeBoxId := chargeBox |}.

Definition siteLocation : OCPILocation :=
  {| loc_id := "S1"; loc_name := "Site 1";
     evses := Some [evse "CP-A*1" "CP-A"; evse "CP-B*1" "CP-B";
                    evse "CP-C*1" "CP-C"] |}.

(** A location whose only EVSE has an empty uid. *)
Definition blankLocation : OCPILocation :=
  {| loc_id := "S2"; loc_name := "Site 2";
     evses := Some [evse "" "CP-A"] |}.

(** CP-C was notified before the last run, CP-B twice after it. *)
Definition notifications0 : list StatusNotification :=
  [ {| sn_chargeBoxID := "CP-C"; sn_timestamp := 1800000%Z |};
    {| sn_chargeBoxID := "CP-B"; sn_timestamp := 7200000%Z |};
    {| sn_chargeBoxID := "CP-B"; sn_timestamp := 7500000%Z |} ].

Definition broadcastEnv : Env :=
  mkEnv acceptAll (fun _ => None) [Some siteLocation; None] notifications0 [].

Definition blankEnv : Env :=
  mkEnv acceptAll (fun _ => None) [Some blankLocation] notifications0 [].

(** A world in which another instance holds the lease of the broadcast. *)
Definition busyWorld : World :=
  {| trace := []; locks := [("t1", "EP1", "patch-locations")] |}.

Definition deltaConfig : OCPIPushLocationsTaskConfig :=
  {| processAllEVSEs := None |}.

End Fixtures.

From Stdlib Require Import Permutation.

(** ** The rest of the CPO client *)

(** A remote authorization cached on the charging station. *)
Record RemoteAuthorization := {
  ra_id : string;
  ra_tagId : string;
  ra_timestamp : Z
}.

Record Connector := {
  con_connectorId : Z;
  con_status : string
}.

(** A charging station with the fields [authorizeToken],
    [removeChargingStation] and [patchChargingStationStatus] read next to
    those of [ChargingStation]. *)
Record ChargingStationDetails := {
  station : ChargingStation;
  remoteAuthorizations : option (list RemoteAuthorization);
  cs_issuer : bool;
  cs_public : bool;
  connectors : list Connector
}.

Inductive OCPIAllowed :=
| ALLOWED | EXPIRED | TOKEN_BLOCKED | NO_CREDIT | NOT_ALLOWED.

Definition allowed_eqb (a b : OCPIAllowed) : bool :=
  match a, b with
  | ALLOWED, ALLOWED | EXPIRED, EXPIRED | TOKEN_BLOCKED, TOKEN_BLOCKED
  | NO_CREDIT, NO_CREDIT | NOT_ALLOWED, NOT_ALLOWED => true
  | _, _ => false
  end.

Record OCPIAuthorizationInfo := {
  allowed : OCPIAllowed;
  info_authorization_id : option string
}.

Record OCPILocationReference := {
  location_id : option string;
  evse_uids : list string
}.

(** The answer to the authorize POST: [response.status], [response.data]
    and [response.data.data]. *)
Record AuthorizeEnvelope := {
  authorize_data : option OCPIAuthorizationInfo
}.

Record AuthorizeResponse := {
  authorize_status : Z;
  authorize_body : option AuthorizeEnvelope
}.

(** What [triggerJobs] returns. *)
Record TriggeredJobs := {
  jobs_tokens : OCPIJobResult;
  jobs_locations : OCPIJobResult;
  jobs_cdrs : OCPIJobResult;
  jobs_sessions : OCPIJobResult
}.

(** [locationId] as [patchEVSEStatus] receives it: [null] is as falsy as
    the empty string. *)
Definition orEmpty (o : option string) : string :=
  match o with Some s => s | None => "" end.

Section CpoOCPIClientRest.

Variable env : Env.
Variable cl : Client.

(** [ServerAction.OCPI_AUTHORIZE_TOKEN] *)
Variable OCPI_AUTHORIZE_TOKEN : ServerAction.
(** [OCPIUtils.isAuthorizationValid], at the time of the call *)
Variable isAuthorizationValid : Z -> bool.
(** [OCPIUtils.buildEvseUID] *)
Variable buildEvseUID : ChargingStation -> option Connector -> string.
(** [OCPIMapping.convertStatus2OCPIStatus] *)
Variable convertStatus2OCPIStatus : string -> OCPIEvseStatus.
(** [this.axiosInstance.post(tokensUrl, payload, ...)] of [authorizeToken]:
    it returns the response or throws *)
Variable postAuthorize :
  string -> OCPILocationReference -> M World AuthorizeResponse.

(** The [for] loop over [chargingStation.remoteAuthorizations]
    (CpoOCPIClient.ts, lines 139-150): the first cached authorization of the
    tag that is still valid. *)
Fixpoint validRemoteAuthorization (l : list RemoteAuthorization)
    (tagId : string) : option RemoteAuthorization :=
  match l with
  | [] => None
  | remoteAuthorization :: rest =>
      if String.eqb (ra_tagId remoteAuthorization) tagId
         && isAuthorizationValid (ra_timestamp remoteAuthorization)
      then Some remoteAuthorization
      else validRemoteAuthorization rest tagId
  end.

(** The test of that loop on one cached authorization. *)
Definition reusable (ocpiToken : OCPIToken) (ra : RemoteAuthorization)
  : bool :=
  String.eqb (ra_tagId ra) (uid ocpiToken)
  && isAuthorizationValid (ra_timestamp ra).

(** The URL and the payload of the authorize POST. *)
Definition authorizeUrl (ocpiToken : OCPIToken) : string :=
  (getEndpointUrl cl "tokens" OCPI_AUTHORIZE_TOKEN ++ "/" ++ uid ocpiToken
     ++ "/authorize")%string.

Definition authorizePayload (chargingStation : ChargingStationDetails)
  : OCPILocationReference :=
  {| location_id := resolveSiteID env (station chargingStation);
     evse_uids := [buildEvseUID (station chargingStation) None] |}.

Definition cachedAuthorization (ocpiToken : OCPIToken)
    (chargingStation : ChargingStationDetails) : option RemoteAuthorization :=
  match remoteAuthorizations chargingStation with
  | Some l =>
      if 0 <? List.length l then validRemoteAuthorization l (uid ocpiToken)
      else None
  | None => None
  end.

(** [response.data.data] of the authorize POST *)
Definition authorizationInfoOf (response : AuthorizeResponse)
  : option OCPIAuthorizationInfo :=
  match authorize_body response with
  | Some data => authorize_data data
  | None => None
  end.

(** [authorizeToken] (CpoOCPIClient.ts, lines 137-231) *)
Definition authorizeToken (ocpiToken : OCPIToken)
    (chargingStation : ChargingStationDetails) : M World string :=
  match cachedAuthorization ocpiToken chargingStation with
  | Some remoteAuthorization => ret (ra_id remoteAuthorization)
  | None =>
      let tokensUrl := authorizeUrl ocpiToken in
      let payload := authorizePayload chargingStation in
      response <- tryCatch (postAuthorize tokensUrl payload)
        (fun error =>
           handleAxiosError error tokensUrl OCPI_AUTHORIZE_TOKEN
             "authorizeToken") ;;
      if negb (authorize_status response =? 200)%Z
         || negb (isSome (authorize_body response)) then
        throw (BackendError OCPI_AUTHORIZE_TOKEN "authorizeToken"
                 ("Post authorize failed with status "
                    ++ showZ (authorize_status response)))
      else
        match authorizationInfoOf response with
        | None =>
            throw (BackendError OCPI_AUTHORIZE_TOKEN "authorizeToken"
                     "Invalid response from Post Authorize")
        | Some authorizationInfo =>
            if negb (allowed_eqb (allowed authorizationInfo) ALLOWED) then
              throw (BackendError OCPI_AUTHORIZE_TOKEN "authorizeToken"
                       "Authorization rejected")
            else if negb (truthyOpt
                            (info_authorization_id authorizationInfo)) then
              throw (BackendError OCPI_AUTHORIZE_TOKEN "authorizeToken"
                       "Authorization allowed without 'authorization_id'")
            else ret (orEmpty (info_authorization_id authorizationInfo))
        end
  end.

(** [removeChargingStation] (CpoOCPIClient.ts, lines 503-530) *)
Definition removeChargingStation (chargingStation : ChargingStationDetails)
  : M World unit :=
  if negb (truthy (siteAreaID (station chargingStation)))
     && negb (isSome (siteArea (station chargingStation))) then
    throw (BackendError OCPI_PATCH_STATUS "removeChargingStation"
             "Charging Station must be associated to a site area")
  else if negb (cs_issuer chargingStation) then
    throw (BackendError OCPI_PATCH_STATUS "removeChargingStation"
             "Only charging Station issued locally can be exposed to IOP")
  else
    let siteID := resolveSiteID env (station chargingStation) in
    forEach (connectors chargingStation) tt
      (fun _ connector =>
         patchEVSEStatus env cl (orEmpty siteID)
           (buildEvseUID (station chargingStation) (Some connector))
           REMOVED).

(** The PATCH [removeChargingStation] sends for one connector. *)
Definition removalRequest (chargingStation : ChargingStationDetails)
    (connector : Connector) : Request :=
  sendRequest cl PATCH
    (locationUrl cl OCPI_PATCH_STATUS
       (orEmpty (resolveSiteID env (station chargingStation)))
       ++ "/" ++ buildEvseUID (station chargingStation) (Some connector))%string
    (PStatus REMOVED) (AXIOS_TIMEOUT cl).

(** [patchChargingStationStatus] (CpoOCPIClient.ts, lines 532-565) *)
Definition patchChargingStationStatus
    (chargingStation : ChargingStationDetails) (connector : Connector)
  : M World unit :=
  if negb (truthy (siteAreaID (station chargingStation)))
     && negb (isSome (siteArea (station chargingStation))) then
    throw (BackendError OCPI_PATCH_STATUS "patchChargingStationStatus"
             "Charging Station must be associated to a site area")
  else if negb (cs_issuer chargingStation) then
    throw (BackendError OCPI_PATCH_STATUS "patchChargingStationStatus"
             "Only charging Station issued locally can be exposed to IOP")
  else if negb (cs_public chargingStation) then
    throw (BackendError OCPI_PATCH_STATUS "patchChargingStationStatus"
             "Private charging Station cannot be exposed to IOP")
  else
    let siteID := resolveSiteID env (station chargingStation) in
    patchEVSEStatus env cl (orEmpty siteID)
      (buildEvseUID (station chargingStation) (Some connector))
      (convertStatus2OCPIStatus (con_status connector)).

(** [triggerJobs] (CpoOCPIClient.ts, lines 1047-1054); [fuel] is that of
    the token pull. *)
Definition triggerJobs (fuel : nat)
  : M (OCPIEndpoint * World) TriggeredJobs :=
  pulled <- lift (pullTokens env cl fuel false) ;;
  sent <- sendEVSEStatuses env cl true ;;
  checkedCdrs <- lift (checkCdrs env cl) ;;
  checkedSessions <- lift (checkSessions env cl) ;;
  ret {| jobs_tokens := pulled; jobs_locations := sent;
         jobs_cdrs := checkedCdrs; jobs_sessions := checkedSessions |}.

End CpoOCPIClientRest.

(** ** The rest of the push-locations task *)

Section OCPIPushLocationsTaskRest.

Variable env : Env.

(** [Utils.isTenantComponentActive(tenant, TenantComponents.OCPI)] *)
Variable isOCPIActive : Tenant -> bool.
(** [OCPIEndpointStorage.getOcpiEndpoints(tenant.id, { role: CPO }, ...)] *)
Variable getOcpiEndpoints : string -> list OCPIEndpoint.

(** [processTenant] (OCPIPushLocationsTask.ts, lines 22-36) *)
Definition processTenant (tenant : Tenant)
    (config : OCPIPushLocationsTaskConfig) : M World unit :=
  tryCatch
    (if isOCPIActive tenant then
       forEach (getOcpiEndpoints (tenant_id tenant)) tt
         (fun _ ocpiEndpoint =>
            processOCPIEndpoint env tenant ocpiEndpoint config)
     else ret tt)
    (fun error => ret tt).

End OCPIPushLocationsTaskRest.

(** A partner that answers every request with HTTP 200 and a body that
    carries a payload and a status code other than 3001. *)
Definition confirming (env : Env) : Prop :=
  forall tr req,
    exists r,
      remote env tr req = Completed r
      /\ resp_status r = 200%Z
      /\ dataOf r <> None
      /\ statusCodeIs r 3001 = false.

(** The calls made over the life of one transaction, in order: the session
    is started, updated and stopped, the CDR is posted, and both are
    checked. *)
Definition sessionLifeCycle (env : Env) (cl : Client) (ocpiToken : OCPIToken)
    (chargingStation : ChargingStation) (authorizationId : string)
  : M (Transaction * World) (bool * bool) :=
  startSession env cl ocpiToken chargingStation authorizationId ;;
  updateSession env cl ;;
  stopSession env cl ;;
  postCdr env cl ;;
  cdrChecked <- checkCdr env cl ;;
  sessionChecked <- checkSession env cl ;;
  ret (cdrChecked, sessionChecked).

(** ** Accounts of the reconciliation sweeps *)

Section SweepAccountsDefinitions.

Variable cl : Client.

(** What [checkCdrs] keeps true of the transactions done so far. *)
Definition cdrsAccount (done : list Transaction) (r : OCPIJobResult)
    (w : World) : Prop :=
  total r = List.length done
  /\ success r + failure r = List.length done
  /\ List.length (objectIDsInSuccess r) = success r
  /\ List.length (objectIDsInFailure r) = failure r
  /\ List.length (logs r) <= failure r
  /\ Permutation (objectIDsInSuccess r ++ objectIDsInFailure r)
       (map (fun t => showZ (tx_id t)) done).

(** The GET [checkSessions] sends for a transaction, if any. *)
Definition sessionCheckRequests (t : Transaction) : list Request :=
  if stoppedAt t then
    match sessionOf t with
    | Some s => [getRequest cl (sessionUrl cl OCPI_CHECK_SESSIONS (ses_id s))]
    | None => []
    end
  else [].

(** What [checkSessions] keeps true of the transactions done so far. *)
Definition sessionsAccount (w0 : World) (done : list Transaction)
    (r : OCPIJobResult) (w : World) : Prop :=
  total r = List.length done
  /\ success r + failure r = List.length (filter stoppedAt done)
  /\ List.length (objectIDsInSuccess r) = success r
  /\ List.length (objectIDsInFailure r) = failure r
  /\ List.length (logs r) = failure r
  /\ Permutation (objectIDsInSuccess r ++ objectIDsInFailure r)
       (map (fun t => showZ (tx_id t)) (filter stoppedAt done))
  /\ httpRequests (trace w)
     = httpRequests (trace w0) ++ flat_map sessionCheckRequests done.

End SweepAccountsDefinitions.

(** The lease events of a trace, in order. *)
Definition leaseEvents (tr : list Event) : list Event :=
  filter isLockEvent tr.

(** The operator notifications along a trace. *)
Fixpoint notifications (tr : list Event) : list PatchErrorNotification :=
  match tr with
  | [] => []
  | ENotify n :: rest => n :: notifications rest
  | _ :: rest => notifications rest
  end.

(** What the sweep of [sendEVSEStatuses] keeps true of its result and of
    the world, from the world [w0] it started in. *)
Definition broadcastAccount (w0 : World) (r : OCPIJobResult) (w : World)
  : Prop :=
  List.length (chargeBoxIDsInSuccess r) = success r
  /\ List.length (chargeBoxIDsInFailure r) = failure r
  /\ List.length (logs r) = success r + failure r
  /\ List.length (httpRequests (trace w))
     = List.length (httpRequests (trace w0)) + (success r + failure r)
  /\ List.length (notifications (trace w0))
     <= List.length (notifications (trace w))
  /\ (failure r = 0 -> notifications (trace w) = notifications (trace w0))
  /\ (0 < failure r ->
      List.length (notifications (trace w0))
      < List.length (notifications (trace w))).

(** From the URL [u], the pages [pages] follow one another, each linking to
    the next, and the last one links to the URL [last]. *)
Fixpoint leadsTo (u : string) (pages : list Page) (last : string) : Prop :=
  match pages with
  | [] => u = last
  | p :: rest =>
      page_url p = u
      /\ exists n,
           page_next p = Some n /\ n <> "" /\ n <> u /\ leadsTo n rest last
  end.

(** [patchEVSEStatus] takes an answer as a success when the request
    completed with a body. *)
Definition patchAccepted (out : Outcome) : bool :=
  match out with
  | Completed r => isSome (resp_data r)
  | Failed _ => false
  end.

(** The events of requests sent one after the other from the trace [tr]
    on, each with the answer of the partner at that point. *)
Fixpoint exchanged (env : Env) (tr : list Event) (reqs : list Request)
  : list Event :=
  match reqs with
  | [] => []
  | q :: rest =>
      EHttp q (remote env tr q)
        :: exchanged env (tr ++ [EHttp q (remote env tr q)]) rest
  end.

(** Every event of [evs] is a request that [patchEVSEStatus] took as a
    success. *)
Definition allAccepted (evs : list Event) : Prop :=
  forallb
    (fun e =>
       match e with
       | EHttp _ out => patchAccepted out
       | _ => false
       end) evs = true.

(** The entries of a location list that hold a location. *)
Definition presentLocations (locations : list (option OCPILocation))
  : list OCPILocation :=
  flat_map (fun entry => match entry with Some loc => [loc] | None => [] end)
    locations.

(** The GET [checkLocations] sends for a location. *)
Definition locationCheckRequest (cl : Client) (loc : OCPILocation)
  : Request :=
  getRequest cl (locationUrl cl OCPI_CHECK_LOCATIONS (loc_id loc)).

(** Every event of [evs] is a GET sent to the partner. *)
Definition onlyReads (evs : list Event) : Prop :=
  forallb
    (fun e =>
       match e with
       | EHttp req _ => match method req with GET => true | _ => false end
       | _ => false
       end) evs = true.

(** What [checkLocations] keeps true of the entries done so far, from the
    world [w0] it started in. *)
Definition locationsAccount (cl : Client) (w0 : World)
    (done : list (option OCPILocation)) (r : OCPIJobResult) (w : World)
  : Prop :=
  total r = List.length done
  /\ success r + failure r = List.length (presentLocations done)
  /\ List.length (objectIDsInSuccess r) = success r
  /\ List.length (objectIDsInFailure r) = failure r
  /\ List.length (logs r) = failure r
  /\ Permutation (objectIDsInSuccess r ++ objectIDsInFailure r)
       (map loc_id (presentLocations done))
  /\ exists evs,
       Ext w0 w evs /\ onlyReads evs
       /\ httpRequests evs
          = map (locationCheckRequest cl) (presentLocations done).

(** The lease of one endpoint for the broadcast. *)
Definition leaseOf (tenant : Tenant) (ep : OCPIEndpoint) : LockKey :=
  (tenant_id tenant, ep_id ep, "patch-locations").

(** ** The sessions endpoint of the CPO server *)

(** [CPOSessionsEndpoint] answers the partner's pull of the sessions.  The
    query parameters are strings when present.  The response object is
    modelled by the calls made on it, in order. *)
Module CPOSessionsEndpoint.

Record Query := {
  offset : option string;
  limit : option string;
  date_from : option string;
  date_to : option string
}.

Record HttpRequest := {
  method : string;
  query : Query
}.

Inductive ResponseCall :=
| ResSet (XTotalCount XLimit : Z)
| ResLinks (next : string).

Record AppError := {
  errorCode : Z;
  app_action : ServerAction;
  app_method : string;
  message : string;
  ocpiError : Z
}.

Record DataResult := {
  count : Z;
  result : list OCPISession
}.

Inductive Reply (A : Type) :=
| Returned (a : A)
| Thrown (e : AppError).

Arguments Returned {A} a.
Arguments Thrown {A} e.

(** [StatusCodes.BAD_REQUEST] of http-status-codes. *)
Definition BAD_REQUEST : Z := 400.

(** Truthiness of a query parameter: present and not the empty string. *)
Definition truthy (v : option string) : bool :=
  match v with
  | Some s => negb (s =? "")%string
  | None => false
  end.

Section Endpoint.

Variable OCPIResponse : Type.
Variable OCPI_PULL_SESSIONS : ServerAction.
Variable CODE_2001_INVALID_PARAMETER_ERROR : Z.
Variable OCPI_RECORDS_LIMIT : Z.
Variable convertToInt : option string -> Z.
Variable convertToDate : option string -> option Z.
Variable getAllSessions :
  Tenant -> Z -> Z -> option Z -> option Z -> DataResult.
Variable buildNextUrl : HttpRequest -> string -> Z -> Z -> Z -> option string.
Variable getBaseUrl : HttpRequest -> string.
Variable success : list OCPISession -> OCPIResponse.

Definition offsetOf (req : HttpRequest) : Z :=
  if truthy (offset (query req)) then convertToInt (offset (query req))
  else 0.

Definition limitOf (req : HttpRequest) : Z :=
  if truthy (limit (query req))
     && (convertToInt (limit (query req)) <? OCPI_RECORDS_LIMIT)%Z
  then convertToInt (limit (query req))
  else OCPI_RECORDS_LIMIT.

Definition getSessionsRequest (req : HttpRequest) (tenant : Tenant)
    (res : list ResponseCall) : Reply OCPIResponse * list ResponseCall :=
  let offset := offsetOf req in
  let limit := limitOf req in
  if negb (truthy (date_from (query req))) then
    (Thrown {| errorCode := BAD_REQUEST;
               app_action := OCPI_PULL_SESSIONS;
               app_method := "getSessionsRequest";
               message := "Missing 'date_from' parameter";
               ocpiError := CODE_2001_INVALID_PARAMETER_ERROR |}, res)
  else
    let sessions :=
      getAllSessions tenant limit offset
        (convertToDate (date_from (query req)))
        (convertToDate (date_to (query req))) in
    let res := res ++ [ResSet (count sessions) OCPI_RECORDS_LIMIT] in
    let nextUrl :=
      buildNextUrl req (getBaseUrl req) offset limit (count sessions) in
    let res :=
      match nextUrl with
      | Some url => if (url =? "")%string then res else res ++ [ResLinks url]
      | None => res
      end in
    (Returned (success (result sessions)), res).

(** [process]: only GET is served; any other method falls out of the
    [switch] and the promise resolves to undefined ([None]). *)
Definition process (req : HttpRequest) (tenant : Tenant)
    (res : list ResponseCall)
  : Reply (option OCPIResponse) * list ResponseCall :=
  if (method req =? "GET")%string then
    match getSessionsRequest req tenant res with
    | (Returned r, res') => (Returned (Some r), res')
    | (Thrown e, res') => (Thrown e, res')
    end
  else (Returned None, res).

End Endpoint.

End CPOSessionsEndpoint.

(** ** Further scenarios *)

Module Scenarios.

Import Fixtures.

(** A cached authorization is valid when it was given at or after 1000. *)
Definition freshFrom1000 (timestamp : Z) : bool := (1000 <=? timestamp)%Z.

Definition staleAuthorization : RemoteAuthorization :=
  {| ra_id := "AUTH-1"; ra_tagId := "A"; ra_timestamp := 10 |}.

Definition otherAuthorization : RemoteAuthorization :=
  {| ra_id := "AUTH-B"; ra_tagId := "B"; ra_timestamp := 5000 |}.

Definition freshAuthorization : RemoteAuthorization :=
  {| ra_id := "AUTH-2"; ra_tagId := "A"; ra_timestamp := 5000 |}.

Definition laterAuthorization : RemoteAuthorization :=
  {| ra_id := "AUTH-3"; ra_tagId := "A"; ra_timestamp := 6000 |}.

Definition connector (n : Z) : Connector :=
  {| con_connectorId := n; con_status := "Available" |}.

Definition evseUID (cs : ChargingStation) (c : option Connector) : string :=
  match c with
  | Some c => (cs_id cs ++ "*" ++ showZ (con_connectorId c))%string
  | None => cs_id cs
  end.

(** A public, locally issued charging station with two connectors. *)
Definition stationDetails (cached : option (list RemoteAuthorization))
  : ChargingStationDetails :=
  {| station := station0; remoteAuthorizations := cached;
     cs_issuer := true; cs_public := true;
     connectors := [connector 1; connector 2] |}.

(** The same charging station with three connectors. *)
Definition threeConnectors : ChargingStationDetails :=
  {| station := station0; remoteAuthorizations := None;
     cs_issuer := true; cs_public := true;
     connectors := [connector 1; connector 2; connector 3] |}.

(** A partner that allows every token under the authorization AUTH-9. *)
Definition authorizeAllowed (_ : string) (_ : OCPILocationReference)
  : M World AuthorizeResponse :=
  ret {| authorize_status := 200;
         authorize_body :=
           Some {| authorize_data :=
                     Some {| allowed := ALLOWED;
                             info_authorization_id := Some "AUTH-9" |} |} |}.

(** A partner that answers its first request and times out afterwards. *)
Definition onceThenTimeout (tr : list Event) (_ : Request) : Outcome :=
  match tr with
  | [] => respond 200 (Some (okEnvelope None)) None
  | _ => Failed "timeout of 30000ms exceeded"
  end.

Definition onceEnv : Env := mkEnv onceThenTimeout (fun _ => None) [] [] [].

(** A partner whose two token pages link to each other. *)
Definition cyclingPartner (_ : list Event) (req : Request) : Outcome :=
  if String.eqb (url req) "https://iop/tokens?limit=100" then
    respond 200 (Some (okEnvelope (Some (DArray [token "A"]))))
      (Some "https://iop/tokens?offset=1")
  else
    respond 200 (Some (okEnvelope (Some (DArray [token "B"]))))
      (Some "https://iop/tokens?limit=100").

Definition cyclingEnv : Env := mkEnv cyclingPartner (fun _ => None) [] [] [].

Definition onCycle (u : string) : Prop :=
  u = "https://iop/tokens?limit=100"%string
  \/ u = "https://iop/tokens?offset=1"%string.

(** A partner that serves the first token page and is down afterwards. *)
Definition firstPageOnly (_ : list Event) (req : Request) : Outcome :=
  if String.eqb (url req) "https://iop/tokens?limit=100" then
    respond 200 (Some (okEnvelope (Some (DArray [token "A"; token "B";
                                                 token "C"]))))
      (Some "https://iop/tokens?offset=3")
  else Failed "503".

Definition firstPageEnv : Env := mkEnv firstPageOnly (fun _ => None) [] [] [].

(** The sessions endpoint over three stored sessions, with a record limit
    of 25. *)
Definition readInt (v : option string) : Z :=
  match v with
  | Some s =>
      match NilEmpty.int_of_string s with
      | Some d => Z.of_int d
      | None => 0
      end
  | None => 0
  end.

Definition storedSessions (_ : Tenant) (limit offset : Z)
    (_ _ : option Z) : CPOSessionsEndpoint.DataResult :=
  {| CPOSessionsEndpoint.count := 3;
     CPOSessionsEndpoint.result :=
       firstn (Z.to_nat limit)
         (skipn (Z.to_nat offset) [session0; session0; session0]) |}.

Definition nextUrl (_ : CPOSessionsEndpoint.HttpRequest) (base : string)
    (offset limit count : Z) : option string :=
  if (offset + limit <? count)%Z then
    Some (base ++ "?offset=" ++ showZ (offset + limit))%string
  else None.

Definition sessionsRequest (limit : option string)
  : CPOSessionsEndpoint.HttpRequest :=
  {| CPOSessionsEndpoint.method := "GET";
     CPOSessionsEndpoint.query :=
       {| CPOSessionsEndpoint.offset := None;
          CPOSessionsEndpoint.limit := limit;
          CPOSessionsEndpoint.date_from := Some "2020-01-01T00:00:00Z";
          CPOSessionsEndpoint.date_to := None |} |}.

End Scenarios.

(** * Properties *)

(** ** Session life cycle: preconditions *)

Section SessionPreconditions.

Variable env : Env.
Variable cl : Client.

Lemma updateSession_not_started (t : Transaction) (w : World) :
  sessionOf t = None ->
  updateSession env cl (t, w)
  = (Raise (BackendError OCPI_PUSH_SESSIONS "updateSession"
              "OCPI Session not started"), (t, w)).
Proof.
  intros H. unfold updateSession, bind, getObj, throw. now rewrite H.
Qed.

Lemma stopSession_not_started (t : Transaction) (w : World) :
  sessionOf t = None ->
  stopSession env cl (t, w)
  = (Raise (BackendError OCPI_PUSH_SESSIONS "stopSession"
              "OCPI Session not started"), (t, w)).
Proof.
  intros H. unfold stopSession, bind, getObj, throw. now rewrite H.
Qed.

Lemma stopSession_not_stopped (t : Transaction) (w : World) :
  stop t = None ->
  exists message,
    stopSession env cl (t, w)
    = (Raise (BackendError OCPI_PUSH_SESSIONS "stopSession" message), (t, w))
    /\ (message = "OCPI Session not started"
        \/ message = "Transaction not stopped").
Proof.
  intros H. unfold stopSession, bind, getObj, throw.
  destruct (sessionOf t); rewrite ?H; eauto.
Qed.

Lemma postCdr_not_stopped (t : Transaction) (w : World) :
  stop t = None ->
  exists message,
    postCdr env cl (t, w)
    = (Raise (BackendError OCPI_PUSH_CDRS "postCdr" message), (t, w))
    /\ (message = "Session not started"
        \/ message = "Transaction not stopped").
Proof.
  intros H. unfold postCdr, bind, getObj, throw.
  destruct (sessionOf t); rewrite ?H; eauto.
Qed.

(** C4.  On a transaction whose [ocpiData] holds no session, [updateSession]
    and [stopSession] raise the error "OCPI Session not started" and leave
    the transaction and the world, hence the trace of remote calls, as they
    were; on a transaction with no stop record, [stopSession] and [postCdr]
    raise a precondition error ("... not started" or "Transaction not
    stopped") in the same way, before any remote call. *)
Theorem session_preconditions_before_any_remote_call
    (t : Transaction) (w : World) :
  (sessionOf t = None ->
     updateSession env cl (t, w)
     = (Raise (BackendError OCPI_PUSH_SESSIONS "updateSession"
                 "OCPI Session not started"), (t, w))
     /\ stopSession env cl (t, w)
        = (Raise (BackendError OCPI_PUSH_SESSIONS "stopSession"
                    "OCPI Session not started"), (t, w)))
  /\ (stop t = None ->
      (exists message,
         stopSession env cl (t, w)
         = (Raise (BackendError OCPI_PUSH_SESSIONS "stopSession" message),
            (t, w))
         /\ (message = "OCPI Session not started"
             \/ message = "Transaction not stopped"))
      /\ (exists message,
            postCdr env cl (t, w)
            = (Raise (BackendError OCPI_PUSH_CDRS "postCdr" message), (t, w))
            /\ (message = "Session not started"
                \/ message = "Transaction not stopped"))).
Proof.
  split; intros H.
  - split; [apply updateSession_not_started | apply stopSession_not_started];
      exact H.
  - split; [apply stopSession_not_stopped | apply postCdr_not_stopped];
      exact H.
Qed.

End SessionPreconditions.

(** ** Session life cycle: what is sent, and how the answer is read *)

Section SessionExchange.

Variable env : Env.
Variable cl : Client.

(** The PUT of [startSession]. *)
Lemma startSession_run (tok : OCPIToken) (cs : ChargingStation)
    (authorizationId : string) (t : Transaction) (w : World) :
  let s := buildSession env cl tok cs t authorizationId in
  let req :=
    sendRequest cl PUT (sessionUrl cl OCPI_PUSH_SESSIONS authorizationId)
      (PSession s) (AXIOS_TIMEOUT cl) in
  startSession env cl tok cs authorizationId (t, w)
  = match remote env (trace w) req with
    | Completed r =>
        (Ok tt,
         (setOcpiData t (Some (startedOcpiData s)),
          emit (EHttp req (Completed r)) w))
    | Failed d =>
        (Raise (RemoteProtocolError OCPI_PUSH_SESSIONS "startSession"
                  (sessionUrl cl OCPI_PUSH_SESSIONS authorizationId) d),
         (t, emit (EHttp req (Failed d)) w))
    end.
Proof.
  cbv zeta.
  unfold startSession, bind, getObj, lift, tryCatch, axiosSend, axios,
    handleAxiosError, throw, setObj.
  destruct (remote env (trace w) _); reflexivity.
Qed.

(** The PATCH of [updateSession]. *)
Lemma updateSession_run (t : Transaction) (s : OCPISession) (w : World) :
  sessionOf t = Some s ->
  let s' := updatedSession env t s in
  let target := sessionUrl cl OCPI_PUSH_SESSIONS (ses_id s) in
  let req :=
    sendRequest cl PATCH target (PSessionPatch (patchBodyOf s'))
      (AXIOS_TIMEOUT cl) in
  updateSession env cl (t, w)
  = match remote env (trace w) req with
    | Completed r =>
        (if negb (resp_status r =? 200)%Z || negb (isSome (resp_data r))
         then Raise (BackendError OCPI_PUSH_SESSIONS "updateSession"
                       ("Patch Session failed with status "
                          ++ showZ (resp_status r)))
         else Ok tt,
         (setSession t s', emit (EHttp req (Completed r)) w))
    | Failed d =>
        (Raise (RemoteProtocolError OCPI_PUSH_SESSIONS "updateSession"
                  target d),
         (setSession t s', emit (EHttp req (Failed d)) w))
    end.
Proof.
  intros H. cbv zeta.
  unfold updateSession, bind, getObj, lift, tryCatch, axiosSend, axios,
    handleAxiosError, throw, setObj, ret.
  rewrite H.
  destruct (remote env (trace w) _) as [r|d]; [|reflexivity].
  destruct (negb (resp_status r =? 200)%Z || negb (isSome (resp_data r)));
    reflexivity.
Qed.

(** The PUT of [stopSession]. *)
Lemma stopSession_run (t : Transaction) (s : OCPISession)
    (stopped : TransactionStop) (w : World) :
  sessionOf t = Some s ->
  stop t = Some stopped ->
  let s' := stoppedSession env t s stopped in
  let target := sessionUrl cl OCPI_PUSH_SESSIONS (ses_id s) in
  let req := sendRequest cl PUT target (PSession s') (AXIOS_TIMEOUT cl) in
  stopSession env cl (t, w)
  = match remote env (trace w) req with
    | Completed r =>
        (if negb (resp_status r =? 200)%Z || negb (isSome (resp_data r))
         then Raise (BackendError OCPI_PUSH_SESSIONS "stopSession"
                       ("Stop Session failed with status "
                          ++ showZ (resp_status r)))
         else Ok tt,
         (setSession t s', emit (EHttp req (Completed r)) w))
    | Failed d =>
        (Raise (RemoteProtocolError OCPI_PUSH_SESSIONS "stopSession"
                  target d),
         (setSession t s', emit (EHttp req (Failed d)) w))
    end.
Proof.
  intros H Hs. cbv zeta.
  unfold stopSession, bind, getObj, lift, tryCatch, axiosSend, axios,
    handleAxiosError, throw, setObj, ret.
  rewrite H, Hs.
  destruct (remote env (trace w) _) as [r|d]; [|reflexivity].
  destruct (negb (resp_status r =? 200)%Z || negb (isSome (resp_data r)));
    reflexivity.
Qed.

Lemma bad_response_test (r : Response) :
  resp_status r <> 200%Z \/ resp_data r = None ->
  negb (resp_status r =? 200)%Z || negb (isSome (resp_data r)) = true.
Proof.
  intros [H | H].
  - apply Z.eqb_neq in H. now rewrite H.
  - rewrite H. apply orb_true_r.
Qed.

(** C6, as the code has it.  [startSession] builds the session in state
    PENDING with zero energy, with the transaction's current cumulated
    price as its cost, with [id] and [authorization_id] both the given
    authorization id, and its one remote call is the PUT of that session at
    [sessions/{country}/{party}/{authorization id}]. *)
Theorem startSession_puts_pending_session (tok : OCPIToken)
    (cs : ChargingStation) (authorizationId : string) (t : Transaction)
    (w : World) :
  let s := buildSession env cl tok cs t authorizationId in
  status s = PENDING
  /\ kwh s = 0%Q
  /\ total_cost s = currentCumulatedPrice t
  /\ ses_id s = authorizationId
  /\ authorization_id s = authorizationId
  /\ exists out,
       trace (snd (snd (startSession env cl tok cs authorizationId (t, w))))
       = trace w
         ++ [EHttp
               {| method := PUT;
                  url := (getEndpointUrl cl "sessions" OCPI_PUSH_SESSIONS
                            ++ "/" ++ getLocalCountryCode cl OCPI_PUSH_SESSIONS
                            ++ "/" ++ getLocalPartyID cl OCPI_PUSH_SESSIONS
                            ++ "/" ++ authorizationId)%string;
                  body := Some (PSession s);
                  authorization := bearer cl;
                  jsonContentType := true;
                  timeout := AXIOS_TIMEOUT cl |}
               out].
Proof.
  cbv zeta. repeat split.
  rewrite startSession_run. cbv zeta.
  match goal with
  | |- context [remote env (trace w) ?q] =>
      exists (remote env (trace w) q); destruct (remote env (trace w) q)
  end; reflexivity.
Qed.

(** C10.  When the PUT of [startSession] completes, whatever its status and
    body, [startSession] returns normally with the built session assigned to
    [transaction.ocpiData]: afterwards [ocpiData] of the transaction is an
    object whose [session] is the built session and which holds nothing
    else, and the other fields of the transaction are as they were.
    [updateSession] and [stopSession] raise whenever the completed response
    has a status other than 200 or no body. *)
Theorem startSession_accepts_any_completed_response (tok : OCPIToken)
    (cs : ChargingStation) (authorizationId : string) (t : Transaction)
    (w : World) (r : Response) :
  (let s := buildSession env cl tok cs t authorizationId in
   let req :=
     sendRequest cl PUT (sessionUrl cl OCPI_PUSH_SESSIONS authorizationId)
       (PSession s) (AXIOS_TIMEOUT cl) in
   let run := startSession env cl tok cs authorizationId (t, w) in
   remote env (trace w) req = Completed r ->
   run
   = (Ok tt,
      (setOcpiData t (Some (startedOcpiData s)),
       emit (EHttp req (Completed r)) w))
   /\ ocpiData (fst (snd run))
      = Some {| session := Some s; cdr := None;
                sessionCheckedOn := None; cdrCheckedOn := None |}
   /\ sessionOf (fst (snd run)) = Some s
   /\ cdrOf (fst (snd run)) = None
   /\ tx_id (fst (snd run)) = tx_id t
   /\ chargeBoxID (fst (snd run)) = chargeBoxID t
   /\ connectorId (fst (snd run)) = connectorId t
   /\ timestamp (fst (snd run)) = timestamp t
   /\ currentTimestamp (fst (snd run)) = currentTimestamp t
   /\ currentTotalConsumptionWh (fst (snd run))
      = currentTotalConsumptionWh t
   /\ currentCumulatedPrice (fst (snd run)) = currentCumulatedPrice t
   /\ priceUnit (fst (snd run)) = priceUnit t
   /\ stop (fst (snd run)) = stop t)
  /\ (forall s,
        sessionOf t = Some s ->
        remote env (trace w)
          (sendRequest cl PATCH (sessionUrl cl OCPI_PUSH_SESSIONS (ses_id s))
             (PSessionPatch (patchBodyOf (updatedSession env t s)))
             (AXIOS_TIMEOUT cl))
        = Completed r ->
        resp_status r <> 200%Z \/ resp_data r = None ->
        fst (updateSession env cl (t, w))
        = Raise (BackendError OCPI_PUSH_SESSIONS "updateSession"
                   ("Patch Session failed with status "
                      ++ showZ (resp_status r))))
  /\ (forall s stopped,
        sessionOf t = Some s ->
        stop t = Some stopped ->
        remote env (trace w)
          (sendRequest cl PUT (sessionUrl cl OCPI_PUSH_SESSIONS (ses_id s))
             (PSession (stoppedSession env t s stopped)) (AXIOS_TIMEOUT cl))
        = Completed r ->
        resp_status r <> 200%Z \/ resp_data r = None ->
        fst (stopSession env cl (t, w))
        = Raise (BackendError OCPI_PUSH_SESSIONS "stopSession"
                   ("Stop Session failed with status "
                      ++ showZ (resp_status r)))).
Proof.
  split; [|split].
  - cbv zeta. intros H. rewrite startSession_run. cbv zeta. rewrite H.
    repeat split.
  - intros s Hs H Hbad. rewrite (updateSession_run t s w Hs). cbv zeta.
    rewrite H. cbn [fst]. now rewrite (bad_response_test r Hbad).
  - intros s stopped Hs Hstop H Hbad.
    rewrite (stopSession_run t s stopped w Hs Hstop). cbv zeta.
    rewrite H. cbn [fst]. now rewrite (bad_response_test r Hbad).
Qed.

End SessionExchange.

(** ** CDR reconciliation *)

Section CdrReconciliation.

Variable env : Env.
Variable cl : Client.

(** [checkCdr] on a transaction with a posted CDR, step by step. *)
Lemma checkCdr_run (t : Transaction) (c : OCPICdr) (w : World) :
  cdrOf t = Some c ->
  let cdrsUrl := getEndpointUrl cl "cdrs" OCPI_CHECK_CDRS in
  let target := (cdrsUrl ++ "/" ++ cdr_id c)%string in
  let g := getRequest cl target in
  let w1 := emit (EHttp g (remote env (trace w) g)) w in
  let p := sendRequest cl POST cdrsUrl (PCdr c) 10000 in
  checkCdr env cl (t, w)
  = match remote env (trace w) g with
    | Failed d =>
        (Raise (RemoteProtocolError OCPI_CHECK_CDRS "checkCdr" target d),
         (t, w1))
    | Completed r =>
        if (resp_status r =? 200)%Z && isSome (resp_data r) then
          if statusCodeIs r 3001 then
            match remote env (trace w1) p with
            | Completed r2 =>
                (Ok false, (t, emit (EHttp p (Completed r2)) w1))
            | Failed d =>
                (Raise (AxiosError d), (t, emit (EHttp p (Failed d)) w1))
            end
          else
            match dataOf r with
            | Some _ =>
                let checked := setCdrCheckedOn t (clock env (trace w1)) in
                (Ok true, (checked, emit (ESaveTransaction checked) w1))
            | None => (Raise (invalidCdrResponse target), (t, w1))
            end
        else (Raise (invalidCdrResponse target), (t, w1))
    end.
Proof.
  intros Hc. cbv zeta.
  unfold checkCdr, bind, getObj, lift, tryCatch, axiosGet, axiosSend, axios,
    handleAxiosError, throw, setObj, ret, newDate, saveTransaction.
  rewrite Hc.
  destruct (remote env (trace w) _) as [r|d]; [|reflexivity].
  destruct ((resp_status r =? 200)%Z && isSome (resp_data r)); [|reflexivity].
  destruct (statusCodeIs r 3001).
  - cbn [trace emit]. destruct (remote env _ _); reflexivity.
  - destruct (dataOf r); reflexivity.
Qed.

Lemma statusCodeIs_has_body (r : Response) (code : Z) :
  statusCodeIs r code = true -> isSome (resp_data r) = true.
Proof.
  unfold statusCodeIs. destruct (resp_data r); [reflexivity | discriminate].
Qed.

Lemma dataOf_has_body (r : Response) :
  dataOf r <> None -> isSome (resp_data r) = true.
Proof.
  unfold dataOf. destruct (resp_data r); [reflexivity | congruence].
Qed.

(** C3, as the code has it.  For a transaction with a posted CDR, [checkCdr]
    sends one GET and then:
    - on an HTTP 200 whose body carries status code 3001, it posts the local
      CDR once, and returns false when that POST completes (a POST that
      fails raises its error);
    - on an HTTP 200 whose body carries another status code and a payload,
      it stamps [cdrCheckedOn], saves the transaction and returns true;
    - on every other answer, a 3001 under another HTTP status included, it
      raises with nothing sent after the GET. *)
Theorem checkCdr_three_way_split (t : Transaction) (c : OCPICdr)
    (w : World) :
  cdrOf t = Some c ->
  let cdrsUrl := getEndpointUrl cl "cdrs" OCPI_CHECK_CDRS in
  let g := getRequest cl (cdrsUrl ++ "/" ++ cdr_id c)%string in
  let w1 := emit (EHttp g (remote env (trace w) g)) w in
  let p := sendRequest cl POST cdrsUrl (PCdr c) 10000 in
  (forall r,
     remote env (trace w) g = Completed r ->
     resp_status r = 200%Z ->
     statusCodeIs r 3001 = true ->
     snd (checkCdr env cl (t, w))
     = (t, emit (EHttp p (remote env (trace w1) p)) w1)
     /\ fst (checkCdr env cl (t, w))
        = match remote env (trace w1) p with
          | Completed _ => Ok false
          | Failed d => Raise (AxiosError d)
          end)
  /\ (forall r,
        remote env (trace w) g = Completed r ->
        resp_status r = 200%Z ->
        statusCodeIs r 3001 = false ->
        dataOf r <> None ->
        let checked := setCdrCheckedOn t (clock env (trace w1)) in
        checkCdr env cl (t, w)
        = (Ok true, (checked, emit (ESaveTransaction checked) w1))
        /\ option_map cdrCheckedOn (ocpiData checked)
           = Some (Some (clock env (trace w1))))
  /\ (match remote env (trace w) g with
      | Failed _ => True
      | Completed r =>
          resp_status r <> 200%Z
          \/ resp_data r = None
          \/ (statusCodeIs r 3001 = false /\ dataOf r = None)
      end ->
      exists e, checkCdr env cl (t, w) = (Raise e, (t, w1))).
Proof.
  intros Hc. cbv zeta. rewrite (checkCdr_run t c w Hc). cbv zeta.
  split; [|split].
  - intros r Hr Hst H3001. rewrite Hr.
    apply Z.eqb_eq in Hst. rewrite Hst, (statusCodeIs_has_body r _ H3001).
    cbn [andb]. rewrite H3001.
    destruct (remote env (trace (emit _ _)) _); split; reflexivity.
  - intros r Hr Hst H3001 Hdata. rewrite Hr.
    apply Z.eqb_eq in Hst. rewrite Hst, (dataOf_has_body r Hdata).
    cbn [andb]. rewrite H3001.
    destruct (dataOf r) eqn:E; [|congruence].
    split; [reflexivity|].
    unfold cdrOf in Hc. unfold setCdrCheckedOn.
    destruct (ocpiData t); [reflexivity | discriminate].
  - destruct (remote env (trace w) _) as [r|d]; [|eauto].
    intros H.
    destruct ((resp_status r =? 200)%Z) eqn:Est; cbn [andb]; [|eauto].
    destruct (isSome (resp_data r)) eqn:Ed; [|eauto].
    destruct H as [H | [H | [H1 H2]]].
    + apply Z.eqb_eq in Est. contradiction.
    + rewrite H in Ed. discriminate.
    + rewrite H1, H2. eauto.
Qed.

End CdrReconciliation.


(** ** Traces, lists and the lodash helpers *)

Lemma httpRequests_app (a b : list Event) :
  httpRequests (a ++ b) = httpRequests a ++ httpRequests b.
Proof.
  induction a as [|e a IH]; [reflexivity|].
  destruct e; cbn; rewrite IH; reflexivity.
Qed.

Lemma Ext_refl (w : World) : Ext w w [].
Proof. split; [symmetry; apply app_nil_r | reflexivity]. Qed.

Lemma Ext_emit (e : Event) (w : World) : Ext w (emit e w) [e].
Proof. split; reflexivity. Qed.

Lemma Ext_trans (w1 w2 w3 : World) (a b : list Event) :
  Ext w1 w2 a -> Ext w2 w3 b -> Ext w1 w3 (a ++ b).
Proof.
  intros [Ha La] [Hb Lb]. split.
  - rewrite Hb, Ha. symmetry. apply app_assoc.
  - congruence.
Qed.

Lemma includes_In (l : list string) (x : string) :
  includes l x = true <-> In x l.
Proof.
  unfold includes. rewrite existsb_exists. split.
  - intros [y [Hy E]]. apply String.eqb_eq in E. now subst.
  - intros H. exists x. split; [exact H | apply String.eqb_refl].
Qed.

Lemma In_uniq (l : list string) (x : string) : In x (uniq l) <-> In x l.
Proof.
  induction l as [|y l IH]; [reflexivity|].
  cbn. rewrite filter_In, IH. split.
  - intros [H | [H _]]; auto.
  - intros [H | H]; [now left|].
    destruct (String.eqb_spec x y) as [E | E]; [left; congruence|].
    right. split; [exact H | reflexivity].
Qed.

Lemma NoDup_filter {A} (f : A -> bool) (l : list A) :
  NoDup l -> NoDup (filter f l).
Proof.
  induction 1 as [|x l Hx Hl IH]; cbn; [constructor|].
  destruct (f x); [|exact IH].
  constructor; [|exact IH]. rewrite filter_In. tauto.
Qed.

Lemma NoDup_uniq (l : list string) : NoDup (uniq l).
Proof.
  induction l as [|y l IH]; cbn; constructor.
  - rewrite filter_In. intros [_ H].
    now rewrite String.eqb_refl in H.
  - now apply NoDup_filter.
Qed.

Lemma flat_map_filter_map {A B} (p : A -> bool) (g : A -> B) (l : list A) :
  flat_map (fun x => if p x then [g x] else []) l = map g (filter p l).
Proof.
  induction l as [|x l IH]; [reflexivity|].
  cbn. destruct (p x); cbn; now rewrite IH.
Qed.

Lemma nonempty_guard {A B} (f : A -> B) (l : list A) :
  (if 0 <? List.length l then map f l else []) = map f l.
Proof. destruct l; reflexivity. Qed.


(** ** Token pull *)

Section TokenPull.

Variable env : Env.
Variable cl : Client.

Lemma steps_app (a b : list Event) : steps (a ++ b) = steps a ++ steps b.
Proof.
  induction a as [|e a IH]; [reflexivity|].
  destruct e; cbn; rewrite IH; reflexivity.
Qed.

(** One token of a page: the upsert is attempted, and counted as a success
    or as a failure; [total] is not touched. *)
Lemma pullToken_spec (r : OCPIJobResult) (t : OCPIToken) (w : World) :
  exists r' w' evs,
    pullToken env r t w = (Ok r', w')
    /\ Ext w w' evs
    /\ steps evs = [Upsert t]
    /\ success r' + failure r' = S (success r + failure r)
    /\ total r' = total r.
Proof.
  unfold pullToken, tryCatch, bind, updateToken, ret.
  destruct (updateTokenError env (trace w) t);
    (do 3 eexists; split; [reflexivity|]; split; [apply Ext_emit|];
     repeat split; cbn; lia).
Qed.

(** The tokens of a page: a failing upsert does not stop the loop. *)
Lemma pullTokens_page_spec (tokens : list OCPIToken) :
  forall (r : OCPIJobResult) (w : World),
  exists r' w' evs,
    forEach tokens r (pullToken env) w = (Ok r', w')
    /\ Ext w w' evs
    /\ steps evs = map Upsert tokens
    /\ success r' + failure r'
       = success r + failure r + List.length tokens
    /\ total r' = total r.
Proof.
  induction tokens as [|t rest IH]; intros r w.
  - do 3 eexists; split; [reflexivity|]; split; [apply Ext_refl|].
    repeat split; cbn; lia.
  - cbn [forEach]. unfold bind at 1.
    destruct (pullToken_spec r t w) as (r1 & w1 & evs1 & E1 & X1 & S1 & C1 & T1).
    rewrite E1.
    destruct (IH r1 w1) as (r2 & w2 & evs2 & E2 & X2 & S2 & C2 & T2).
    exists r2, w2, (evs1 ++ evs2).
    split; [exact E2|]. split; [exact (Ext_trans _ _ _ _ _ X1 X2)|].
    split; [now rewrite steps_app, S1, S2|].
    cbn [List.length]. lia.
Qed.

Lemma hasNextPage_false (next : option string) (current : string) :
  next = None \/ next = Some "" \/ next = Some current ->
  hasNextPage next current = false.
Proof.
  intros [H | [H | H]]; subst; cbn; [reflexivity | reflexivity|].
  now rewrite String.eqb_refl, andb_false_r.
Qed.

Lemma hasNextPage_true (n current : string) :
  n <> "" -> n <> current -> hasNextPage (Some n) current = true.
Proof.
  intros H1 H2. unfold hasNextPage, truthy.
  apply String.eqb_neq in H2. rewrite H2.
  destruct n as [|c n]; [congruence|]. reflexivity.
Qed.

(** [pullTokensLoop] along a finite sequence of pages. *)
Lemma pullTokensLoop_pages (pages : list Page) :
  forall (p : Page) (rest : list Page) (fuel : nat) (r : OCPIJobResult)
         (w : World),
  pages = p :: rest ->
  Forall (servesPage env cl) pages ->
  linked pages ->
  List.length pages <= fuel ->
  exists r' w' evs,
    pullTokensLoop env cl fuel (page_url p) r w = (Ok r', w')
    /\ Ext w w' evs
    /\ steps evs = flat_map (pageSteps cl) pages
    /\ success r' + failure r'
       = success r + failure r
         + List.length (flat_map page_tokens pages)
    /\ total r' = total r.
Proof.
  induction pages as [|p0 rest0 IH]; intros p rest fuel r w Hp Hserve Hlink Hfuel;
    [discriminate|].
  injection Hp as -> ->.
  destruct fuel as [|fuel]; [cbn in Hfuel; lia|].
  inversion Hserve as [|? ? Hs Hrest]; subst.
  destruct (Hs (trace w)) as (resp & Hresp & Hstatus & Hdata & Hnext).
  cbn [pullTokensLoop].
  unfold bind at 1. unfold tryCatch, axiosGet, axios. rewrite Hresp.
  rewrite Hstatus, (dataOf_has_body resp) by congruence.
  cbn [Z.eqb Pos.eqb negb orb]. rewrite Hdata.
  unfold bind at 1.
  destruct (pullTokens_page_spec (page_tokens p) r
              (emit (EHttp (getRequest cl (page_url p)) (Completed resp)) w))
    as (r1 & w1 & evs1 & E1 & X1 & S1 & C1 & T1).
  rewrite E1, Hnext.
  assert (X0 := Ext_trans _ _ _ _ _
                  (Ext_emit (EHttp (getRequest cl (page_url p))
                               (Completed resp)) w) X1).
  destruct rest as [|q rest'].
  - cbn in Hlink.
    assert (Hstop := hasNextPage_false _ _ Hlink).
    exists r1, w1, ([EHttp (getRequest cl (page_url p)) (Completed resp)] ++ evs1).
    split.
    { destruct (page_next p); [rewrite Hstop|]; reflexivity. }
    split; [exact X0|].
    split.
    { rewrite steps_app, S1. cbn. now rewrite app_nil_r. }
    cbn [flat_map]. rewrite app_nil_r. lia.
  - cbn [linked] in Hlink. destruct Hlink as (Hn & Hne & Hdiff & Hlink).
    rewrite Hn, (hasNextPage_true _ _ Hne Hdiff).
    destruct (IH q rest' fuel r1 w1 eq_refl Hrest Hlink)
      as (r2 & w2 & evs2 & E2 & X2 & S2 & C2 & T2);
      [cbn in Hfuel |- *; lia|].
    exists r2, w2,
      (([EHttp (getRequest cl (page_url p)) (Completed resp)] ++ evs1) ++ evs2).
    split; [exact E2|].
    split; [exact (Ext_trans _ _ _ _ _ X0 X2)|].
    split.
    { rewrite !steps_app, S1, S2. reflexivity. }
    change (flat_map page_tokens (p :: q :: rest'))
      with (page_tokens p ++ flat_map page_tokens (q :: rest')).
    rewrite length_app. lia.
Qed.

Lemma fetched_steps (tr : list Event) :
  fetched (steps tr) = httpRequests tr.
Proof.
  induction tr as [|e tr IH]; [reflexivity|].
  destruct e; cbn; now rewrite ?IH.
Qed.

Lemma fetched_pageSteps (pages : list Page) :
  fetched (flat_map (pageSteps cl) pages)
  = map (fun p => getRequest cl (page_url p)) pages.
Proof.
  induction pages as [|p rest IH]; [reflexivity|].
  cbn. f_equal. rewrite <- IH.
  induction (page_tokens p) as [|t l IHl]; [reflexivity | exact IHl].
Qed.

(** Two served pages with the same URL carry the same next link. *)
Lemma served_same_next (p q : Page) :
  servesPage env cl p -> servesPage env cl q ->
  page_url p = page_url q -> page_next p = page_next q.
Proof.
  intros Hp Hq E.
  destruct (Hp []) as (r & Hr & _ & _ & Hn).
  destruct (Hq []) as (r' & Hr' & _ & _ & Hn').
  rewrite E, Hr' in Hr. injection Hr as <-. congruence.
Qed.

Lemma linked_suffix (a l : list Page) :
  l <> [] -> linked (a ++ l) -> linked l.
Proof.
  intros Hl. induction a as [|x a IH]; [trivial|].
  cbn [app linked]. destruct (a ++ l) as [|y m] eqn:E.
  - destruct a; [contradiction | discriminate].
  - intros (_ & _ & _ & H). exact (IH H).
Qed.

(** Two sequences of served pages that start at the same URL have the same
    length: the sequence is determined by where it starts. *)
Lemma linked_same_length (l1 : list Page) :
  forall l2 p1 r1 p2 r2,
  l1 = p1 :: r1 -> l2 = p2 :: r2 ->
  Forall (servesPage env cl) l1 -> Forall (servesPage env cl) l2 ->
  linked l1 -> linked l2 ->
  page_url p1 = page_url p2 ->
  List.length l1 = List.length l2.
Proof.
  induction l1 as [|x l1 IH]; intros l2 p1 r1 p2 r2 E1 E2 S1 S2 L1 L2 U;
    [discriminate|].
  injection E1 as -> ->. subst l2.
  inversion S1 as [|? ? Sp1 Sr1]; subst.
  inversion S2 as [|? ? Sp2 Sr2]; subst.
  assert (N := served_same_next p1 p2 Sp1 Sp2 U).
  destruct r1 as [|q1 r1]; destruct r2 as [|q2 r2]; cbn [linked] in L1, L2.
  - reflexivity.
  - destruct L2 as (L2 & Hne & Hd & _). rewrite N, L2 in L1.
    destruct L1 as [L1 | [L1 | L1]]; [discriminate | |];
      injection L1 as L1; congruence.
  - destruct L1 as (L1 & Hne & Hd & _). rewrite <- N, L1 in L2.
    destruct L2 as [L2 | [L2 | L2]]; [discriminate | |];
      injection L2 as L2; congruence.
  - destruct L1 as (L1 & _ & _ & L1').
    destruct L2 as (L2 & _ & _ & L2').
    cbn [List.length]. f_equal.
    apply (IH (q2 :: r2) q1 r1 q2 r2 eq_refl eq_refl Sr1 Sr2 L1' L2').
    congruence.
Qed.

(** No URL occurs twice in a finite sequence of served pages. *)
Lemma linked_NoDup (pages : list Page) :
  Forall (servesPage env cl) pages -> linked pages ->
  NoDup (map page_url pages).
Proof.
  induction pages as [|p rest IH]; intros Hs Hl; [constructor|].
  inversion Hs as [|? ? Sp Sr]; subst.
  cbn [map]. constructor.
  - intros Hin. apply in_map_iff in Hin. destruct Hin as (q & Hq & Hin).
    apply in_split in Hin. destruct Hin as (a & b & ->).
    assert (Hsuf : linked (q :: b)).
    { apply (linked_suffix (p :: a) (q :: b)); [discriminate | exact Hl]. }
    assert (Ssuf : Forall (servesPage env cl) (q :: b)).
    { apply Forall_app in Sr. tauto. }
    assert (Hlen := linked_same_length (p :: a ++ q :: b) (q :: b)
                      p (a ++ q :: b) q b eq_refl eq_refl Hs Ssuf Hl Hsuf
                      (eq_sym Hq)).
    cbn [List.length] in Hlen. rewrite length_app in Hlen.
    cbn [List.length] in Hlen. lia.
  - destruct rest as [|q rest]; [constructor|].
    apply IH; [exact Sr|]. cbn [linked] in Hl. tauto.
Qed.

(** C5.  When the partner serves a finite sequence of linked pages starting
    at the initial URL, [pullTokens] with fuel for that many pages returns;
    it fetches each page once, in order, the tokens of a page being upserted
    before the next page is fetched, and stops at the page that carries no
    next link, an empty one, or its own URL; no URL is fetched twice. *)
Theorem pullTokens_visits_each_page_once (partial : bool) (p : Page)
    (rest : list Page) (fuel : nat) (w : World) :
  page_url p = initialTokensUrl env cl partial (clock env (trace w)) ->
  Forall (servesPage env cl) (p :: rest) ->
  linked (p :: rest) ->
  List.length (p :: rest) <= fuel ->
  exists r w' evs,
    pullTokens env cl fuel partial w = (Ok r, w')
    /\ Ext w w' evs
    /\ steps evs = flat_map (pageSteps cl) (p :: rest)
    /\ httpRequests evs
       = map (fun q => getRequest cl (page_url q)) (p :: rest)
    /\ NoDup (map page_url (p :: rest))
    /\ success r + failure r
       = List.length (flat_map page_tokens (p :: rest)).
Proof.
  intros Hurl Hs Hl Hfuel.
  unfold pullTokens, bind, newDate. rewrite <- Hurl.
  destruct (pullTokensLoop_pages (p :: rest) p rest fuel emptyJobResult w
              eq_refl Hs Hl Hfuel)
    as (r & w' & evs & E & X & S & C & T).
  exists r, w', evs.
  split; [exact E|]. split; [exact X|]. split; [exact S|].
  split; [now rewrite <- fetched_steps, S, fetched_pageSteps|].
  split; [exact (linked_NoDup _ Hs Hl)|].
  cbn [success failure emptyJobResult] in C. lia.
Qed.

(** Whatever the partner answers, a run of the loop only adds to the
    trace, and its first effect is the GET of the URL it starts at. *)
Lemma pullTokensLoop_step (fuel : nat) :
  (forall url r w,
     exists evs, trace (snd (pullTokensLoop env cl fuel url r w))
                 = trace w ++ evs) ->
  forall url r w,
    exists evs,
      trace (snd (pullTokensLoop env cl (S fuel) url r w))
      = trace w
        ++ EHttp (getRequest cl url) (remote env (trace w) (getRequest cl url))
        :: evs.
Proof.
  intros IH url r w. cbn [pullTokensLoop].
  unfold bind at 1. unfold tryCatch, axiosGet, axios, handleAxiosError, throw.
  destruct (remote env (trace w) (getRequest cl url)) as [resp|d];
    [|exists []; reflexivity].
  destruct (negb (resp_status resp =? 200)%Z
            || negb (isSome (resp_data resp)));
    [exists []; reflexivity|].
  destruct (dataOf resp) as [[tokens|]|]; try (exists []; reflexivity).
  unfold bind at 1.
  destruct (pullTokens_page_spec tokens r
              (emit (EHttp (getRequest cl url) (Completed resp)) w))
    as (r1 & w1 & evs1 & E1 & [X1 _] & _).
  rewrite E1. cbn [trace emit] in X1.
  assert (Hstop : exists evs,
            trace (snd (ret r1 w1))
            = trace w ++ EHttp (getRequest cl url) (Completed resp) :: evs).
  { exists evs1. cbn. rewrite X1, <- app_assoc. reflexivity. }
  destruct (getNextUrl env (link resp)) as [n|]; [|exact Hstop].
  destruct (hasNextPage (Some n) url); [|exact Hstop].
  destruct (IH n r1 w1) as (evs2 & E2).
  exists (evs1 ++ evs2). rewrite E2, X1, <- !app_assoc. reflexivity.
Qed.

Lemma pullTokensLoop_grows (fuel : nat) :
  forall url r w,
    exists evs, trace (snd (pullTokensLoop env cl fuel url r w))
                = trace w ++ evs.
Proof.
  induction fuel as [|fuel IH]; intros url r w.
  - exists []. cbn. now rewrite app_nil_r.
  - destruct (pullTokensLoop_step fuel IH url r w) as (evs & E).
    eexists. exact E.
Qed.

Lemma momentFrom_bounds (now : Z) :
  (momentFrom now mod DAY_MS = 0)%Z
  /\ (DAY_MS <= now - momentFrom now < 2 * DAY_MS)%Z.
Proof.
  unfold momentFrom, startOfDay, DAY_MS.
  assert (H := Z.mod_pos_bound (now - 86400000) 86400000 eq_refl).
  split; [|lia].
  rewrite Zminus_mod_idemp_r, Z.sub_diag. reflexivity.
Qed.

(** C7, as the code has it.  The first request of [pullTokens] goes to the
    initial URL; for a partial pull that URL carries [limit=100] and a
    [date_from] that is the start of the UTC day before the call, hence
    between 24 and 48 hours before the call; for a full pull it carries
    [limit=100] only. *)
Theorem pullTokens_initial_url (partial : bool) (fuel : nat) (w : World) :
  let now := clock env (trace w) in
  let tokensUrl := getEndpointUrl cl "tokens" OCPI_PULL_TOKENS in
  (exists out evs,
     trace (snd (pullTokens env cl (S fuel) partial w))
     = trace w
       ++ EHttp (getRequest cl (initialTokensUrl env cl partial now)) out
       :: evs)
  /\ initialTokensUrl env cl true now
     = (tokensUrl ++ "?date_from=" ++ momentFormat env (momentFrom now)
          ++ "&limit=100")%string
  /\ initialTokensUrl env cl false now = (tokensUrl ++ "?limit=100")%string
  /\ (momentFrom now mod DAY_MS = 0)%Z
  /\ (DAY_MS <= now - momentFrom now < 2 * DAY_MS)%Z.
Proof.
  cbv zeta. split; [|split; [reflexivity | split; [reflexivity|]]].
  - unfold pullTokens, bind, newDate.
    destruct (pullTokensLoop_step fuel (pullTokensLoop_grows fuel)
                (initialTokensUrl env cl partial (clock env (trace w)))
                emptyJobResult w) as (evs & E).
    eexists. exists evs. exact E.
  - apply momentFrom_bounds.
Qed.

End TokenPull.

(** ** Status broadcast *)

Section StatusBroadcast.

Variable env : Env.
Variable cl : Client.

(** One EVSE of the sweep: it is counted, and patched when it is in scope
    and passes the guard. *)
Lemma sendEVSEStatus_spec (full : bool) (cands : list string)
    (loc : OCPILocation) (r : OCPIJobResult) (evse : OCPIEvse) (w : World) :
  exists r' w' evs,
    sendEVSEStatus env cl full cands loc r evse w = (Ok r', w')
    /\ Ext w w' evs
    /\ httpRequests evs
       = (if inScope full cands (loc, evse) && patchable (loc, evse)
          then [patchRequest cl (loc, evse)] else [])
    /\ quiet evs
    /\ total r' = S (total r)
    /\ success r' + failure r' <= S (success r + failure r)
    /\ success r + failure r <= success r' + failure r'.
Proof.
  assert (Hpatch :
    truthy (loc_id loc) = true -> truthy (evse_uid evse) = true ->
    exists r' w' evs,
      bind
        (tryCatch
           (bind (patchEVSEStatus env cl (loc_id loc) (evse_uid evse)
                    (evse_status evse))
              (fun _ =>
                 ret (pushLog ("Updated successfully status for locationID:"
                                 ++ loc_id loc ++ " - evseID:"
                                 ++ evse_id evse)
                        (pushChargeBoxIDInSuccess (chargeBoxId evse)
                           (incSuccess (incTotal r))))))
           (fun error =>
              ret (pushLog ("Failure updating status for locationID:"
                              ++ loc_id loc ++ " - evseID:" ++ evse_id evse
                              ++ ":" ++ errorMessage error)
                     (pushChargeBoxIDInFailure (chargeBoxId evse)
                        (incFailure (incTotal r))))))
        (fun sendResult =>
           if 0 <? failure sendResult then
             bind
               (sendOCPIPatchChargingStationsStatusesError
                  {| notif_location := loc_name loc;
                     evseDashboardURL :=
                       buildEvseURL env (tenantSubdomain env (tenantID cl)) |})
               (fun _ => ret sendResult)
           else ret sendResult) w
      = (Ok r', w')
      /\ Ext w w' evs
      /\ httpRequests evs = [patchRequest cl (loc, evse)]
      /\ quiet evs
      /\ total r' = S (total r)
      /\ success r' + failure r' <= S (success r + failure r)
      /\ success r + failure r <= success r' + failure r').
  { intros Hl Hu.
    unfold bind, tryCatch, patchEVSEStatus. rewrite Hl, Hu.
    cbn [negb orb truthyStatus].
    unfold bind, tryCatch, axiosSend, axios, handleAxiosError, throw, ret,
      sendOCPIPatchChargingStationsStatusesError.
    destruct (remote env (trace w) _) as [resp|d].
    - destruct (isSome (resp_data resp)); cbn [negb].
      + cbn [failure pushLog pushChargeBoxIDInSuccess incSuccess incTotal].
        destruct (0 <? failure r);
          (do 3 eexists; split; [reflexivity|]; split;
           [repeat first [apply Ext_emit
                         | eapply Ext_trans; [|apply Ext_emit]]|];
           repeat split; cbn; lia).
      + do 3 eexists; split; [reflexivity|]; split;
          [repeat first [apply Ext_emit
                        | eapply Ext_trans; [|apply Ext_emit]]|];
          repeat split; cbn; lia.
    - do 3 eexists; split; [reflexivity|]; split;
        [repeat first [apply Ext_emit
                      | eapply Ext_trans; [|apply Ext_emit]]|];
        repeat split; cbn; lia. }
  assert (Hskip :
    exists r' w' evs,
      ret (incTotal r) w = (Ok r', w')
      /\ Ext w w' evs
      /\ httpRequests evs = []
      /\ quiet evs
      /\ total r' = S (total r)
      /\ success r' + failure r' <= S (success r + failure r)
      /\ success r + failure r <= success r' + failure r').
  { do 3 eexists; split; [reflexivity|]; split; [apply Ext_refl|].
    repeat split; cbn; lia. }
  unfold sendEVSEStatus, inScope, patchable. cbn [fst snd].
  destruct full; cbn [negb andb orb].
  - destruct (truthy (loc_id loc)) eqn:Hl;
      [destruct (truthy (evse_uid evse)) eqn:Hu|]; cbn [andb];
      auto.
  - destruct (includes cands (chargeBoxId evse)); cbn [negb andb]; [|auto].
    destruct (truthy (loc_id loc)) eqn:Hl;
      [destruct (truthy (evse_uid evse)) eqn:Hu|]; cbn [andb];
      auto.
Qed.

(** One location of the sweep. *)
Lemma sendLocationStatuses_spec (full : bool) (cands : list string)
    (entry : option OCPILocation) :
  forall (r : OCPIJobResult) (w : World),
  exists r' w' evs,
    sendLocationStatuses env cl full cands r entry w = (Ok r', w')
    /\ Ext w w' evs
    /\ httpRequests evs
       = map (patchRequest cl)
           (filter (fun p => inScope full cands p && patchable p)
              (allEvses [entry]))
    /\ quiet evs
    /\ total r' = List.length (allEvses [entry]) + total r
    /\ success r' + failure r'
       <= List.length (allEvses [entry]) + (success r + failure r)
    /\ success r + failure r <= success r' + failure r'.
Proof.
  assert (Hnone : forall r w,
    exists r' w' evs,
      ret r w = (Ok r', w')
      /\ Ext w w' evs
      /\ httpRequests evs = []
      /\ quiet evs
      /\ total r' = 0 + total r
      /\ success r' + failure r' <= 0 + (success r + failure r)
      /\ success r + failure r <= success r' + failure r').
  { intros r w. do 3 eexists; split; [reflexivity|]; split; [apply Ext_refl|].
    repeat split; cbn; lia. }
  unfold sendLocationStatuses, allEvses.
  destruct entry as [loc|]; cbn [flat_map]; [|exact Hnone].
  destruct (evses loc) as [list|]; [|exact Hnone].
  rewrite app_nil_r.
  induction list as [|evse list IH]; intros r w; [exact (Hnone r w)|].
  cbn [forEach map filter List.length]. unfold bind at 1.
  destruct (sendEVSEStatus_spec full cands loc r evse w)
    as (r1 & w1 & evs1 & E1 & X1 & H1 & Q1 & T1 & S1 & M1).
  rewrite E1.
  destruct (IH r1 w1) as (r2 & w2 & evs2 & E2 & X2 & H2 & Q2 & T2 & S2 & M2).
  exists r2, w2, (evs1 ++ evs2).
  split; [exact E2|]. split; [exact (Ext_trans _ _ _ _ _ X1 X2)|].
  split.
  { rewrite httpRequests_app, H1, H2.
    destruct (inScope full cands (loc, evse) && patchable (loc, evse));
      reflexivity. }
  split.
  { unfold quiet in *. rewrite forallb_app, Q1, Q2. reflexivity. }
  cbn. lia.
Qed.

Lemma allEvses_cons (entry : option OCPILocation)
    (rest : list (option OCPILocation)) :
  allEvses (entry :: rest) = allEvses [entry] ++ allEvses rest.
Proof. unfold allEvses. cbn [flat_map]. now rewrite app_nil_r. Qed.

(** The whole sweep over the location tree. *)
Lemma sweep_spec (full : bool) (cands : list string)
    (locations : list (option OCPILocation)) :
  forall (r : OCPIJobResult) (w : World),
  exists r' w' evs,
    forEach locations r (sendLocationStatuses env cl full cands) w
    = (Ok r', w')
    /\ Ext w w' evs
    /\ httpRequests evs
       = map (patchRequest cl)
           (filter (fun p => inScope full cands p && patchable p)
              (allEvses locations))
    /\ quiet evs
    /\ total r' = List.length (allEvses locations) + total r
    /\ success r' + failure r'
       <= List.length (allEvses locations) + (success r + failure r).
Proof.
  induction locations as [|entry rest IH]; intros r w.
  - do 3 eexists; split; [reflexivity|]; split; [apply Ext_refl|].
    repeat split; cbn; lia.
  - cbn [forEach]. unfold bind at 1.
    destruct (sendLocationStatuses_spec full cands entry r w)
      as (r1 & w1 & evs1 & E1 & X1 & H1 & Q1 & T1 & S1 & M1).
    rewrite E1.
    destruct (IH r1 w1) as (r2 & w2 & evs2 & E2 & X2 & H2 & Q2 & T2 & S2).
    exists r2, w2, (evs1 ++ evs2).
    split; [exact E2|]. split; [exact (Ext_trans _ _ _ _ _ X1 X2)|].
    rewrite (allEvses_cons entry rest), filter_app, map_app, length_app.
    split; [now rewrite httpRequests_app, H1, H2|].
    split; [unfold quiet in *; now rewrite forallb_app, Q1, Q2|].
    lia.
Qed.

Lemma getChargeBoxIDsWithNewStatusNotifications_run (ep : OCPIEndpoint)
    (w : World) :
  getChargeBoxIDsWithNewStatusNotifications env (ep, w)
  = (Ok (map sn_chargeBoxID
           (filter (fun n => (deltaBaseline env ep w <=? sn_timestamp n)%Z)
              (statusNotifications env))),
     (ep, w)).
Proof.
  unfold getChargeBoxIDsWithNewStatusNotifications, deltaBaseline, bind,
    getObj, lift, newDate, ret, getStatusNotifications.
  destruct (lastPatchJobOn ep); cbn [count result];
    match goal with
    | |- context [0 <? List.length ?l] => destruct l; reflexivity
    end.
Qed.

Lemma chargeBoxIDsToProcess_run (full : bool) (ep : OCPIEndpoint)
    (w : World) :
  chargeBoxIDsToProcess env full (ep, w)
  = (Ok (if full then [] else deltaCandidates env ep w), (ep, w)).
Proof.
  unfold chargeBoxIDsToProcess. destruct full; [reflexivity|].
  cbn [negb]. unfold bind at 1. unfold getObj at 1. unfold bind.
  now rewrite getChargeBoxIDsWithNewStatusNotifications_run.
Qed.

Lemma deltaCandidates_spec (ep : OCPIEndpoint) (w : World) (x : string) :
  In x (deltaCandidates env ep w)
  <-> In x (getChargeBoxIDsInFailure ep)
      \/ exists n,
           In n (statusNotifications env)
           /\ (deltaBaseline env ep w <= sn_timestamp n)%Z
           /\ sn_chargeBoxID n = x.
Proof.
  unfold deltaCandidates. rewrite In_uniq, in_app_iff, in_map_iff.
  split; (intros [H | (n & H1 & H2)]; [now left | right; exists n]).
  - apply filter_In in H2. destruct H2 as [H2 H3].
    apply Z.leb_le in H3. auto.
  - destruct H2 as [H2 H3]. split; [exact H3|].
    apply filter_In. split; [exact H1 | now apply Z.leb_le].
Qed.

(** A run of [sendEVSEStatuses]: it never raises, takes no lease, counts
    every EVSE and patches those in scope that pass the guard; then it
    saves the endpoint. *)
Lemma sendEVSEStatuses_run (full : bool) (ep : OCPIEndpoint) (w : World) :
  exists r ep' w' evs,
    sendEVSEStatuses env cl full (ep, w) = (Ok r, (ep', w'))
    /\ Ext w w' evs
    /\ httpRequests evs
       = map (patchRequest cl)
           (filter
              (fun p => inScope full (deltaCandidates env ep w) p
                        && patchable p)
              (allEvses (getAllLocations env)))
    /\ quiet evs
    /\ total r = List.length (allEvses (getAllLocations env))
    /\ success r + failure r <= total r.
Proof.
  unfold sendEVSEStatuses.
  unfold bind at 1. unfold lift at 1, newDate at 1.
  unfold bind at 1. rewrite chargeBoxIDsToProcess_run.
  unfold bind at 1. unfold lift at 1.
  destruct (sweep_spec full (if full then [] else deltaCandidates env ep w)
              (getAllLocations env) emptyJobResult w)
    as (r1 & w1 & evs1 & E1 & X1 & H1 & Q1 & T1 & S1).
  rewrite E1.
  unfold bind, getObj, setObj, lift, saveOcpiEndpoint, ret.
  do 4 eexists. split; [reflexivity|].
  split; [exact (Ext_trans _ _ _ _ _ X1 (Ext_emit _ _))|].
  split.
  { rewrite httpRequests_app, H1. cbn [httpRequests]. rewrite app_nil_r.
    destruct full; reflexivity. }
  split.
  { unfold quiet in *. rewrite forallb_app, Q1. reflexivity. }
  cbn [success failure total emptyJobResult] in T1, S1. lia.
Qed.

(** C1, as the code has it.  A run of [sendEVSEStatuses] counts every EVSE
    of the location tree and sends a PATCH for exactly the EVSEs with a
    non-empty location id and uid that are in scope, in sweep order and
    nothing else: in a full run all of them, in a delta run those whose
    charge point is in the deduplicated union of the charge points in
    failure in [lastPatchJobResult] and of those with a status notification
    since [lastPatchJobOn] (or since now when there is none). *)
Theorem sendEVSEStatuses_patches_exactly_scope (full : bool)
    (ep : OCPIEndpoint) (w : World) :
  let candidates := deltaCandidates env ep w in
  (exists r ep' w' evs,
     sendEVSEStatuses env cl full (ep, w) = (Ok r, (ep', w'))
     /\ Ext w w' evs
     /\ httpRequests evs
        = map (patchRequest cl)
            (filter (fun p => inScope full candidates p && patchable p)
               (allEvses (getAllLocations env)))
     /\ total r = List.length (allEvses (getAllLocations env)))
  /\ NoDup candidates
  /\ (forall x,
        In x candidates
        <-> In x (getChargeBoxIDsInFailure ep)
            \/ exists n,
                 In n (statusNotifications env)
                 /\ (deltaBaseline env ep w <= sn_timestamp n)%Z
                 /\ sn_chargeBoxID n = x).
Proof.
  cbv zeta. split; [|split].
  - destruct (sendEVSEStatuses_run full ep w)
      as (r & ep' & w' & evs & E & X & H & _ & T & _).
    exists r, ep', w', evs. auto.
  - apply NoDup_uniq.
  - apply deltaCandidates_spec.
Qed.

(** C9.  With no [lastPatchJobOn], the baseline of the delta run is the
    current time: the status notifications selected are those recorded at or
    after now, so none when all were recorded before, and the candidates are
    then the charge points of the previous failure list, none when there is
    no previous job result either. *)
Theorem first_delta_run_baseline_is_now (ep : OCPIEndpoint) (w : World) :
  lastPatchJobOn ep = None ->
  getChargeBoxIDsWithNewStatusNotifications env (ep, w)
  = (Ok (map sn_chargeBoxID
           (result (getStatusNotifications env (clock env (trace w))))),
     (ep, w))
  /\ ((forall n,
         In n (statusNotifications env) ->
         (sn_timestamp n < clock env (trace w))%Z) ->
      getChargeBoxIDsWithNewStatusNotifications env (ep, w)
      = (Ok [], (ep, w))
      /\ chargeBoxIDsToProcess env false (ep, w)
         = (Ok (uniq (getChargeBoxIDsInFailure ep)), (ep, w))
      /\ (lastPatchJobResult ep = None ->
          chargeBoxIDsToProcess env false (ep, w) = (Ok [], (ep, w)))).
Proof.
  intros Hnone.
  assert (Hbase : deltaBaseline env ep w = clock env (trace w))
    by (unfold deltaBaseline; now rewrite Hnone).
  split.
  - rewrite getChargeBoxIDsWithNewStatusNotifications_run, Hbase.
    reflexivity.
  - intros Hold.
    assert (Hempty :
      filter (fun n => (deltaBaseline env ep w <=? sn_timestamp n)%Z)
        (statusNotifications env) = []).
    { rewrite Hbase.
      induction (statusNotifications env) as [|n l IH]; [reflexivity|].
      cbn. assert (Hn := Hold n (or_introl eq_refl)).
      destruct (Z.leb_spec (clock env (trace w)) (sn_timestamp n)); [lia|].
      apply IH. intros m Hm. apply Hold. now right. }
    split; [|split].
    + now rewrite getChargeBoxIDsWithNewStatusNotifications_run, Hempty.
    + rewrite chargeBoxIDsToProcess_run. unfold deltaCandidates.
      now rewrite Hempty, app_nil_r.
    + intros Hres. rewrite chargeBoxIDsToProcess_run.
      unfold deltaCandidates, getChargeBoxIDsInFailure.
      now rewrite Hempty, Hres.
Qed.

End StatusBroadcast.

(** ** The lease around the status broadcast *)

Section Lease.

Variable env : Env.

Lemma lockKey_eqb_refl (k : LockKey) : lockKey_eqb k k = true.
Proof.
  destruct k as [[a b] c]. cbn. now rewrite !String.eqb_refl.
Qed.

Lemma release_restores (k : LockKey) (held : list LockKey) :
  existsb (lockKey_eqb k) held = false ->
  filter (fun k' => negb (lockKey_eqb k k')) (k :: held) = held.
Proof.
  intros H. cbn [filter]. rewrite lockKey_eqb_refl. cbn [negb].
  induction held as [|x held IH]; [reflexivity|].
  cbn in H |- *. apply orb_false_iff in H. destruct H as [Hx H].
  rewrite Hx. cbn [negb]. f_equal. exact (IH H).
Qed.

(** The [try { job } catch { log } finally { release }] frame gives the
    lease back whatever the job does, also when it throws. *)
Lemma lease_released_whatever_the_job_does (job : M World unit)
    (lock : LockKey) (w : World) :
  fst (job w) <> OutOfFuel ->
  tryFinally (tryCatch job (fun _ => ret tt)) (release lock) w
  = (Ok tt,
     {| trace := trace (snd (job w)) ++ [ERelease lock];
        locks := filter (fun k => negb (lockKey_eqb lock k))
                   (locks (snd (job w))) |}).
Proof.
  unfold tryFinally, tryCatch, release, ret.
  destruct (job w) as [[[]|e|] w']; cbn [fst snd]; intros H;
    [reflexivity | reflexivity | contradiction].
Qed.

(** C8.  [processOCPIEndpoint] asks for the lease of (endpoint,
    "patch-locations") once.  When the lease is already held it returns at
    once and leaves the world as it was: no remote call, no effect.  When
    it gets the lease, everything the run does lies between the acquisition
    and the release of the lease, the run takes or gives back no other
    lease, and the lease is released on every path: an endpoint that is not
    registered or is inactive, a job that throws, and a job that
    completes, in which case the requests sent are those of
    [sendEVSEStatuses]. *)
Theorem processOCPIEndpoint_holds_lease (tenant : Tenant)
    (ep : OCPIEndpoint) (config : OCPIPushLocationsTaskConfig) (w : World) :
  let key := (tenant_id tenant, ep_id ep, "patch-locations") in
  (existsb (lockKey_eqb key) (locks w) = true ->
   processOCPIEndpoint env tenant ep config w = (Ok tt, w))
  /\ (existsb (lockKey_eqb key) (locks w) = false ->
      exists w' evs,
        processOCPIEndpoint env tenant ep config w = (Ok tt, w')
        /\ trace w' = trace w ++ [EAcquire key] ++ evs ++ [ERelease key]
        /\ quiet evs
        /\ locks w' = locks w
        /\ (ep_status ep <> REGISTERED \/ backgroundPatchJob ep = false
            \/ ep_role ep <> CPO -> evs = [])
        /\ (ep_status ep = REGISTERED -> backgroundPatchJob ep = true ->
            ep_role ep = CPO ->
            exists r ep' w1,
              sendEVSEStatuses env (newOCPIClient env tenant ep)
                (match processAllEVSEs config with
                 | Some all => all
                 | None => false
                 end)
                (ep, {| trace := trace w ++ [EAcquire key];
                        locks := key :: locks w |})
              = (Ok r, (ep', w1))
              /\ trace w1 = (trace w ++ [EAcquire key]) ++ evs)).
Proof.
  cbv zeta. unfold processOCPIEndpoint, bind, createOCPIEndpointActionLock.
  split; intros Hheld; rewrite Hheld; [reflexivity|].
  unfold tryFinally, tryCatch, release, ret.
  set (key := (tenant_id tenant, ep_id ep, "patch-locations")) in *.
  set (w1 := {| trace := trace w ++ [EAcquire key];
                locks := key :: locks w |}).
  assert (Hearly :
    exists w' evs,
      (Ok tt,
       {| trace := trace w1 ++ [ERelease key];
          locks := filter (fun k => negb (lockKey_eqb key k)) (locks w1) |})
      = (Ok tt, w')
      /\ trace w' = trace w ++ [EAcquire key] ++ evs ++ [ERelease key]
      /\ quiet evs
      /\ locks w' = locks w
      /\ evs = []).
  { eexists. exists []. split; [reflexivity|].
    cbn [trace locks w1]. split; [now rewrite <- app_assoc|].
    split; [reflexivity|]. split; [now apply release_restores|].
    reflexivity. }
  destruct (ep_status ep) eqn:Est; cbn [registration_eqb negb].
  1,3: (destruct Hearly as (w' & evs & E & T & Q & L & Z);
        exists w', evs; split; [exact E|]; split; [exact T|];
        split; [exact Q|]; split; [exact L|];
        split; [intros _; exact Z | intros; discriminate]).
  destruct (backgroundPatchJob ep) eqn:Ebg; cbn [negb].
  2: (destruct Hearly as (w' & evs & E & T & Q & L & Z);
      exists w', evs; split; [exact E|]; split; [exact T|];
      split; [exact Q|]; split; [exact L|];
      split; [intros _; exact Z | intros; discriminate]).
  unfold newCpoOCPIClient, throw.
  destruct (ep_role ep) eqn:Erole; cbn [role_eqb negb].
  2: (destruct Hearly as (w' & evs & E & T & Q & L & Z);
      exists w', evs; split; [exact E|]; split; [exact T|];
      split; [exact Q|]; split; [exact L|];
      split; [intros _; exact Z | intros; discriminate]).
  clear Hearly.
  unfold onObj, ret.
  destruct (sendEVSEStatuses_run env (newOCPIClient env tenant ep)
              (match processAllEVSEs config with
               | Some all => all
               | None => false
               end) ep
              w1)
    as (r & ep' & w2 & evs & E & [Xt Xl] & _ & Q & _).
  rewrite E. cbn [trace locks w1] in Xt, Xl.
  eexists. exists evs. split; [reflexivity|].
  cbn [trace locks]. split; [rewrite Xt, <- !app_assoc; reflexivity|].
  split; [exact Q|].
  split; [rewrite Xl; now apply release_restores|].
  split; [intros [H | [H | H]]; congruence|].
  intros _ _ _. exists r, ep', w2. split; [reflexivity | exact Xt].
Qed.

End Lease.

(** ** Batch jobs: counting and isolation of failures *)

Section BatchJobs.

Variable env : Env.
Variable cl : Client.

(** [pullTokens] never counts: whatever it returns has [total] 0. *)
Lemma pullTokensLoop_total (fuel : nat) :
  forall url r w r' w',
    pullTokensLoop env cl fuel url r w = (Ok r', w') -> total r' = total r.
Proof.
  induction fuel as [|fuel IH]; intros url r w r' w'; [discriminate|].
  cbn [pullTokensLoop].
  unfold bind at 1. unfold tryCatch, axiosGet, axios, handleAxiosError, throw.
  destruct (remote env (trace w) (getRequest cl url)) as [resp|d];
    [|discriminate].
  destruct (negb (resp_status resp =? 200)%Z
            || negb (isSome (resp_data resp))); [discriminate|].
  destruct (dataOf resp) as [[tokens|]|]; try discriminate.
  unfold bind at 1.
  destruct (pullTokens_page_spec env tokens r
              (emit (EHttp (getRequest cl url) (Completed resp)) w))
    as (r1 & w1 & evs1 & E1 & _ & _ & _ & T1).
  rewrite E1.
  assert (Hstop : ret r1 w1 = (Ok r', w') -> total r' = total r).
  { unfold ret. intros H. injection H as <- _. exact T1. }
  destruct (getNextUrl env (link resp)) as [n|]; [|exact Hstop].
  destruct (hasNextPage (Some n) url); [|exact Hstop].
  intros H. rewrite (IH _ _ _ _ _ H). exact T1.
Qed.

Lemma pullTokens_total_is_zero (fuel : nat) (partial : bool) (w : World)
    (r : OCPIJobResult) (w' : World) :
  pullTokens env cl fuel partial w = (Ok r, w') -> total r = 0.
Proof.
  unfold pullTokens, bind, newDate. intros H.
  now rewrite (pullTokensLoop_total _ _ _ _ _ _ H).
Qed.

(** [checkCdr], [checkSession] and [checkLocation] return or raise. *)
Lemma checkCdr_returns (t : Transaction) (w : World) :
  fst (checkCdr env cl (t, w)) <> OutOfFuel.
Proof.
  destruct (cdrOf t) as [c|] eqn:Hc.
  - rewrite (checkCdr_run env cl t c w Hc). cbv zeta.
    destruct (remote env (trace w) _) as [r|d]; [|discriminate].
    destruct ((resp_status r =? 200)%Z && isSome (resp_data r));
      [|discriminate].
    destruct (statusCodeIs r 3001).
    + destruct (remote env _ _); discriminate.
    + destruct (dataOf r); discriminate.
  - unfold checkCdr, bind, getObj, throw. rewrite Hc. discriminate.
Qed.

Lemma checkSession_returns (t : Transaction) (w : World) :
  fst (checkSession env cl (t, w)) <> OutOfFuel.
Proof.
  unfold checkSession, bind, getObj, lift, tryCatch, axiosGet, axios,
    handleAxiosError, throw, setObj, ret, newDate, saveTransaction.
  destruct (sessionOf t) as [s|]; [|discriminate].
  destruct (remote env (trace w) _) as [r|d]; [|discriminate].
  destruct ((resp_status r =? 200)%Z && isSome (resp_data r));
    [|discriminate].
  destruct (dataOf r); discriminate.
Qed.

Lemma checkLocation_returns (loc : OCPILocation) (w : World) :
  fst (checkLocation env cl loc w) <> OutOfFuel.
Proof.
  unfold checkLocation, bind, tryCatch, axiosGet, axios, handleAxiosError,
    throw, ret.
  destruct (remote env (trace w) _) as [r|d]; [|discriminate].
  destruct ((resp_status r =? 200)%Z && isSome (resp_data r));
    [|discriminate].
  destruct (dataOf r); discriminate.
Qed.

Lemma checkCdrsItem_spec (r : OCPIJobResult) (t : Transaction) (w : World) :
  exists r' w',
    checkCdrsItem env cl r t w = (Ok r', w')
    /\ total r' = S (total r)
    /\ success r' + failure r' = S (success r + failure r).
Proof.
  unfold checkCdrsItem, bind, tryCatch, onObj, ret.
  assert (H := checkCdr_returns t w).
  destruct (checkCdr env cl (t, w)) as [[[|]|e|] [t' w']]; cbn [fst] in H;
    try contradiction;
    (do 2 eexists; split; [reflexivity|]; cbn; lia).
Qed.

Lemma checkSessionsItem_spec (r : OCPIJobResult) (t : Transaction)
    (w : World) :
  exists r' w',
    checkSessionsItem env cl r t w = (Ok r', w')
    /\ total r' = S (total r)
    /\ success r' + failure r' <= S (success r + failure r).
Proof.
  unfold checkSessionsItem, bind, tryCatch, onObj, ret.
  destruct (stoppedAt t); [|do 2 eexists; split; [reflexivity|]; cbn; lia].
  assert (H := checkSession_returns t w).
  destruct (checkSession env cl (t, w)) as [[[|]|e|] [t' w']]; cbn [fst] in H;
    try contradiction;
    (do 2 eexists; split; [reflexivity|]; cbn; lia).
Qed.

Lemma checkLocationsItem_spec (r : OCPIJobResult)
    (entry : option OCPILocation) (w : World) :
  exists r' w',
    checkLocationsItem env cl r entry w = (Ok r', w')
    /\ total r' = S (total r)
    /\ success r' + failure r' <= S (success r + failure r).
Proof.
  unfold checkLocationsItem, bind, tryCatch, ret.
  destruct entry as [loc|]; [|do 2 eexists; split; [reflexivity|]; cbn; lia].
  assert (H := checkLocation_returns loc w).
  destruct (checkLocation env cl loc w) as [[[|]|e|] w']; cbn [fst] in H;
    try contradiction;
    (do 2 eexists; split; [reflexivity|]; cbn; lia).
Qed.

(** A sweep whose items each return and count themselves counts them all. *)
Lemma forEach_counts {A} (f : OCPIJobResult -> A -> M World OCPIJobResult)
    (l : list A) :
  (forall r x w,
     exists r' w',
       f r x w = (Ok r', w')
       /\ total r' = S (total r)
       /\ success r' + failure r' <= S (success r + failure r)) ->
  forall r w,
    exists r' w',
      forEach l r f w = (Ok r', w')
      /\ total r' = List.length l + total r
      /\ success r' + failure r' <= List.length l + (success r + failure r).
Proof.
  intros Hf. induction l as [|x l IH]; intros r w.
  - do 2 eexists; split; [reflexivity|]; cbn; lia.
  - cbn [forEach]. unfold bind at 1.
    destruct (Hf r x w) as (r1 & w1 & E1 & T1 & S1). rewrite E1.
    destruct (IH r1 w1) as (r2 & w2 & E2 & T2 & S2).
    exists r2, w2. split; [exact E2|]. cbn [List.length]. lia.
Qed.

(** The four jobs that count: on completion [total] is the number of items
    considered and [success + failure] does not exceed it. *)
Lemma counting_jobs (w : World) (full : bool) (ep : OCPIEndpoint) :
  (exists r w',
     checkCdrs env cl w = (Ok r, w')
     /\ total r
        = List.length
            (getTransactions env
               {| issuer := true; ocpiCdrChecked := Some false;
                  ocpiSessionChecked := None |})
     /\ success r + failure r <= total r)
  /\ (exists r w',
        checkSessions env cl w = (Ok r, w')
        /\ total r
           = List.length
               (getTransactions env
                  {| issuer := true; ocpiCdrChecked := None;
                     ocpiSessionChecked := Some false |})
        /\ success r + failure r <= total r)
  /\ (exists r w',
        checkLocations env cl w = (Ok r, w')
        /\ total r = List.length (getAllLocations env)
        /\ success r + failure r <= total r)
  /\ (exists r s',
        sendEVSEStatuses env cl full (ep, w) = (Ok r, s')
        /\ total r = List.length (allEvses (getAllLocations env))
        /\ success r + failure r <= total r).
Proof.
  split; [|split; [|split]].
  - unfold checkCdrs.
    destruct (forEach_counts (checkCdrsItem env cl)
                (getTransactions env
                   {| issuer := true; ocpiCdrChecked := Some false;
                      ocpiSessionChecked := None |})) with (r := emptyJobResult) (w := w)
      as (r & w' & E & T & S).
    { intros r x w0. destruct (checkCdrsItem_spec r x w0) as (r' & w' & E & T & S).
      exists r', w'. split; [exact E|]. lia. }
    exists r, w'. split; [exact E|]. cbn in T, S. lia.
  - unfold checkSessions.
    destruct (forEach_counts (checkSessionsItem env cl)
                (getTransactions env
                   {| issuer := true; ocpiCdrChecked := None;
                      ocpiSessionChecked := Some false |})
                (checkSessionsItem_spec) emptyJobResult w)
      as (r & w' & E & T & S).
    exists r, w'. split; [exact E|]. cbn in T, S. lia.
  - unfold checkLocations.
    destruct (forEach_counts (checkLocationsItem env cl) (getAllLocations env)
                (checkLocationsItem_spec) emptyJobResult w)
      as (r & w' & E & T & S).
    exists r, w'. split; [exact E|]. cbn in T, S. lia.
  - destruct (sendEVSEStatuses_run env cl full ep w)
      as (r & ep' & w' & evs & E & _ & _ & _ & T & S).
    exists r, (ep', w'). auto.
Qed.

End BatchJobs.

(** ** The properties at work on the fixtures *)

Import Fixtures.

(** C4 on a transaction that was never started nor stopped. *)
Lemma session_preconditions_witness :
  sessionOf (transaction0 0) = None
  /\ stop (transaction0 0) = None
  /\ updateSession acceptEnv client (transaction0 0, world0)
     = (Raise (BackendError OCPI_PUSH_SESSIONS "updateSession"
                 "OCPI Session not started"), (transaction0 0, world0))
  /\ (exists message,
        postCdr acceptEnv client (transaction0 0, world0)
        = (Raise (BackendError OCPI_PUSH_CDRS "postCdr" message),
           (transaction0 0, world0))
        /\ (message = "Session not started"
            \/ message = "Transaction not stopped")).
Proof.
  destruct (session_preconditions_before_any_remote_call acceptEnv client
              (transaction0 0) world0) as [A B].
  split; [reflexivity|]. split; [reflexivity|].
  split.
  - exact (proj1 (A eq_refl)).
  - exact (proj2 (B eq_refl)).
Defined.

(** C6 fails as stated: started on a transaction whose current cumulated
    price is 5, the session that [startSession] puts has cost 5, not 0. *)
Lemma startSession_cost_not_zero :
  exists s out,
    trace (snd (snd (startSession acceptEnv client (token "A") station0
                       "AUTH" (transaction0 5, world0))))
    = [EHttp (sendRequest client PUT "https://iop/sessions/FR/SLF/AUTH"
                (PSession s) 30000) out]
    /\ status s = PENDING
    /\ ~ (total_cost s == 0)%Q.
Proof.
  eexists. eexists. split; [vm_compute; reflexivity|].
  split; [reflexivity|]. vm_compute. discriminate.
Qed.

(** C3 fails as stated: a body with status code 3001 under HTTP 201 makes
    [checkCdr] raise with no resubmission, and under HTTP 200 a resubmission
    that times out makes it raise instead of returning false. *)
Lemma checkCdr_3001_can_raise :
  (statusCodeIs {| resp_status := 201; resp_data := unknownCdr;
                   link := None |} 3001 = true
   /\ fst (checkCdr unknown201Env client (billedTransaction 7, world0))
      = Raise (invalidCdrResponse "https://iop/cdrs/AUTH")
   /\ map method
        (httpRequests
           (trace (snd (snd (checkCdr unknown201Env client
                               (billedTransaction 7, world0))))))
      = [GET])
  /\ (fst (checkCdr timeoutEnv client (billedTransaction 7, world0))
      = Raise (AxiosError "timeout of 10000ms exceeded")
      /\ map method
           (httpRequests
              (trace (snd (snd (checkCdr timeoutEnv client
                                  (billedTransaction 7, world0))))))
         = [GET; POST]).
Proof.
  repeat split; vm_compute; reflexivity.
Qed.

(** C3 on the three kinds of answer. *)
Lemma checkCdr_three_way_split_witness :
  cdrOf (billedTransaction 7) = Some cdr0
  /\ fst (checkCdr resubmitEnv client (billedTransaction 7, world0))
     = Ok false
  /\ fst (checkCdr acceptEnv client (billedTransaction 7, world0)) = Ok true
  /\ (exists e,
        fst (checkCdr noContentEnv client (billedTransaction 7, world0))
        = Raise e).
Proof.
  split; [reflexivity|]. split; [|split].
  - destruct (checkCdr_three_way_split resubmitEnv client
                (billedTransaction 7) cdr0 world0 eq_refl) as [A _].
    exact (proj2 (A _ eq_refl eq_refl eq_refl)).
  - destruct (checkCdr_three_way_split acceptEnv client
                (billedTransaction 7) cdr0 world0 eq_refl) as [_ [B _]].
    refine (f_equal fst (proj1 (B _ eq_refl eq_refl eq_refl _))).
    discriminate.
  - destruct (checkCdr_three_way_split noContentEnv client
                (billedTransaction 7) cdr0 world0 eq_refl) as [_ [_ C]].
    destruct C as [e He].
    + left. discriminate.
    + exists e. exact (f_equal fst He).
Defined.

(** C10 on a partner that answers 204 without a body: a transaction
    without [ocpiData] carries the pending session AUTH after
    [startSession]. *)
Lemma startSession_accepts_any_completed_response_witness :
  ocpiData (transaction0 3) = None
  /\ fst (startSession noContentEnv client (token "A") station0 "AUTH"
            (transaction0 3, world0)) = Ok tt
  /\ (exists s,
        ocpiData (fst (snd (startSession noContentEnv client (token "A")
                              station0 "AUTH" (transaction0 3, world0))))
        = Some {| session := Some s; cdr := None;
                  sessionCheckedOn := None; cdrCheckedOn := None |}
        /\ ses_id s = "AUTH"%string
        /\ status s = PENDING
        /\ total_cost s = 3%Q)
  /\ fst (updateSession noContentEnv client (stoppedTransaction 7, world0))
     = Raise (BackendError OCPI_PUSH_SESSIONS "updateSession"
                "Patch Session failed with status 204")
  /\ fst (stopSession noContentEnv client (stoppedTransaction 7, world0))
     = Raise (BackendError OCPI_PUSH_SESSIONS "stopSession"
                "Stop Session failed with status 204").
Proof.
  destruct (startSession_accepts_any_completed_response noContentEnv client
              (token "A") station0 "AUTH" (transaction0 3) world0
              {| resp_status := 204; resp_data := None; link := None |})
    as [A _].
  destruct (startSession_accepts_any_completed_response noContentEnv client
              (token "A") station0 "AUTH" (stoppedTransaction 7) world0
              {| resp_status := 204; resp_data := None; link := None |})
    as [_ [B C]].
  destruct (A eq_refl) as (Hrun & Hdata & _).
  split; [reflexivity|]. split; [exact (f_equal fst Hrun)|].
  split; [|split].
  - eexists. split; [exact Hdata|]. repeat split.
  - refine (B session0 eq_refl eq_refl _). left. discriminate.
  - refine (C session0 stop0 eq_refl eq_refl eq_refl _). left. discriminate.
Defined.

(** C1 fails as stated: an EVSE with an empty uid is counted but not
    patched, in a full run and in a delta run in which its charge point is
    a candidate. *)
Lemma sendEVSEStatuses_skips_evse_without_uid :
  allEvses (getAllLocations blankEnv) = [(blankLocation, evse "" "CP-A")]
  /\ httpRequests
       (trace (snd (snd (sendEVSEStatuses blankEnv client true
                           (endpoint0, world0))))) = []
  /\ option_map total
       (match fst (sendEVSEStatuses blankEnv client true (endpoint0, world0))
        with Ok r => Some r | _ => None end) = Some 1
  /\ includes (deltaCandidates blankEnv endpointAfterFailure world0) "CP-A"
     = true
  /\ httpRequests
       (trace (snd (snd (sendEVSEStatuses blankEnv client false
                           (endpointAfterFailure, world0))))) = [].
Proof.
  repeat split; vm_compute; reflexivity.
Qed.

(** The delta run of the specification: CP-A failed in the last run, CP-B
    was notified since, CP-C was not; the EVSEs of CP-A and CP-B are patched
    and no other. *)
Example delta_run_patches_failed_and_notified :
  deltaCandidates broadcastEnv endpointAfterFailure world0 = ["CP-A"; "CP-B"]
  /\ map url
       (httpRequests
          (trace (snd (snd (sendEVSEStatuses broadcastEnv client false
                              (endpointAfterFailure, world0))))))
     = ["https://iop/locations/FR/SLF/S1/CP-A*1";
        "https://iop/locations/FR/SLF/S1/CP-B*1"].
Proof.
  split; vm_compute; reflexivity.
Qed.

(** C2 fails on the code: pulling two pages of tokens, one of which is
    rejected by the store, every token is processed (a failure on B does not
    stop C and D), three successes and one failure are counted, and [total]
    is left at 0, below [success + failure]. *)
Theorem pullTokens_never_counts_total :
  exists r w',
    pullTokens tokenEnv client 2 false world0 = (Ok r, w')
    /\ steps (trace w')
       = [Fetch (getRequest client "https://iop/tokens?limit=100");
          Upsert (token "A"); Upsert (token "B"); Upsert (token "C");
          Fetch (getRequest client "https://iop/tokens?offset=3");
          Upsert (token "D")]
    /\ success r = 3 /\ failure r = 1 /\ total r = 0
    /\ ~ (success r + failure r <= total r).
Proof.
  do 2 eexists. split; [vm_compute; reflexivity|].
  cbn [trace success failure total].
  split; [reflexivity|]. repeat split. lia.
Qed.

Lemma tokenPartner_serves :
  Forall (servesPage tokenEnv client) [page1; page2].
Proof.
  repeat constructor; intros tr; eexists;
    (split; [vm_compute; reflexivity|]); repeat split.
Qed.

(** C5 on the two pages of [tokenPartner]. *)
Lemma pullTokens_visits_each_page_once_witness :
  page_url page1 = initialTokensUrl tokenEnv client false 129600000
  /\ linked [page1; page2]
  /\ exists r w' evs,
       pullTokens tokenEnv client 2 false world0 = (Ok r, w')
       /\ Ext world0 w' evs
       /\ steps evs = flat_map (pageSteps client) [page1; page2]
       /\ httpRequests evs
          = map (fun q => getRequest client (page_url q)) [page1; page2]
       /\ NoDup (map page_url [page1; page2])
       /\ success r + failure r
          = List.length (flat_map page_tokens [page1; page2]).
Proof.
  assert (Hlinked : linked [page1; page2]).
  { cbn. repeat split; try discriminate. now left. }
  split; [reflexivity|]. split; [exact Hlinked|].
  exact (pullTokens_visits_each_page_once tokenEnv client false page1 [page2]
           2 world0 eq_refl tokenPartner_serves Hlinked (le_n 2)).
Defined.

(** C7 fails as stated: called at noon on 2 January 1970, a partial pull
    asks for the tokens changed since midnight of 1 January, 36 hours
    before the call. *)
Lemma pullTokens_date_from_is_not_24_hours_before :
  clock tokenEnv [] = 129600000%Z
  /\ initialTokensUrl tokenEnv client true (clock tokenEnv [])
     = "https://iop/tokens?date_from=0&limit=100"
  /\ momentFrom (clock tokenEnv []) = 0%Z
  /\ momentFrom (clock tokenEnv []) <> (clock tokenEnv [] - DAY_MS)%Z.
Proof.
  repeat split; vm_compute; congruence.
Qed.

(** C8 when the lease is held by another instance, and when it is free. *)
Lemma processOCPIEndpoint_holds_lease_witness :
  processOCPIEndpoint broadcastEnv tenant0 endpointAfterFailure deltaConfig
    busyWorld = (Ok tt, busyWorld)
  /\ exists w' evs,
       processOCPIEndpoint broadcastEnv tenant0 endpointAfterFailure
         deltaConfig world0 = (Ok tt, w')
       /\ trace w'
          = [EAcquire ("t1", "EP1", "patch-locations")] ++ evs
              ++ [ERelease ("t1", "EP1", "patch-locations")]
       /\ quiet evs
       /\ locks w' = [].
Proof.
  split.
  - exact (proj1 (processOCPIEndpoint_holds_lease broadcastEnv tenant0
                    endpointAfterFailure deltaConfig busyWorld) eq_refl).
  - destruct (proj2 (processOCPIEndpoint_holds_lease broadcastEnv tenant0
                       endpointAfterFailure deltaConfig world0) eq_refl)
      as (w' & evs & E & T & Q & L & _).
    exists w', evs. auto.
Defined.

(** C9 on an endpoint that never ran, with notifications from the past. *)
Lemma first_delta_run_baseline_is_now_witness :
  lastPatchJobOn endpoint0 = None
  /\ (forall n,
        In n (statusNotifications broadcastEnv) ->
        (sn_timestamp n < clock broadcastEnv (trace world0))%Z)
  /\ getChargeBoxIDsWithNewStatusNotifications broadcastEnv
       (endpoint0, world0) = (Ok [], (endpoint0, world0))
  /\ chargeBoxIDsToProcess broadcastEnv false (endpoint0, world0)
     = (Ok [], (endpoint0, world0)).
Proof.
  assert (Hold : forall n,
            In n (statusNotifications broadcastEnv) ->
            (sn_timestamp n < clock broadcastEnv (trace world0))%Z).
  { intros n Hn. cbn in Hn.
    destruct Hn as [<- | [<- | [<- | []]]]; reflexivity. }
  destruct (first_delta_run_baseline_is_now broadcastEnv endpoint0 world0
              eq_refl) as [_ H].
  destruct (H Hold) as (A & _ & C).
  split; [reflexivity|]. split; [exact Hold|].
  split; [exact A | exact (C eq_refl)].
Defined.

(** * Further properties of the engine *)

(** ** Token authorization *)

Section Authorization.

Variable env : Env.
Variable cl : Client.
Variable OCPI_AUTHORIZE_TOKEN : ServerAction.
Variable isAuthorizationValid : Z -> bool.
Variable buildEvseUID : ChargingStation -> option Connector -> string.
Variable postAuthorize :
  string -> OCPILocationReference -> M World AuthorizeResponse.

Lemma validRemoteAuthorization_first (ocpiToken : OCPIToken)
    (pre post : list RemoteAuthorization) (ra : RemoteAuthorization) :
  forallb (fun x => negb (reusable isAuthorizationValid ocpiToken x)) pre
  = true ->
  reusable isAuthorizationValid ocpiToken ra = true ->
  validRemoteAuthorization isAuthorizationValid (pre ++ ra :: post)
    (uid ocpiToken) = Some ra.
Proof.
  unfold reusable. intros Hpre Hra.
  induction pre as [|x pre IH]; cbn [app validRemoteAuthorization].
  - now rewrite Hra.
  - cbn [forallb] in Hpre. apply andb_true_iff in Hpre.
    destruct Hpre as [Hx Hpre]. apply negb_true_iff in Hx.
    rewrite Hx. exact (IH Hpre).
Qed.

Lemma validRemoteAuthorization_none (ocpiToken : OCPIToken)
    (l : list RemoteAuthorization) :
  forallb (fun x => negb (reusable isAuthorizationValid ocpiToken x)) l
  = true ->
  validRemoteAuthorization isAuthorizationValid l (uid ocpiToken) = None.
Proof.
  unfold reusable. induction l as [|x l IH]; [reflexivity|].
  cbn [forallb validRemoteAuthorization]. intros H.
  apply andb_true_iff in H. destruct H as [Hx H].
  apply negb_true_iff in Hx. rewrite Hx. exact (IH H).
Qed.

(** X1.  When the charging station caches a still valid remote
    authorization for the token, [authorizeToken] returns the id of the
    first such authorization and does nothing else: the world is left as it
    was, whatever the authorize POST would have answered. *)
Theorem authorizeToken_reuses_first_valid_authorization
    (ocpiToken : OCPIToken) (cs : ChargingStationDetails)
    (pre post : list RemoteAuthorization) (ra : RemoteAuthorization)
    (w : World) :
  remoteAuthorizations cs = Some (pre ++ ra :: post) ->
  forallb (fun x => negb (reusable isAuthorizationValid ocpiToken x)) pre
  = true ->
  ra_tagId ra = uid ocpiToken ->
  isAuthorizationValid (ra_timestamp ra) = true ->
  authorizeToken env cl OCPI_AUTHORIZE_TOKEN isAuthorizationValid
    buildEvseUID postAuthorize ocpiToken cs w
  = (Ok (ra_id ra), w).
Proof.
  intros Hl Hpre Htag Hvalid.
  unfold authorizeToken, cachedAuthorization. rewrite Hl.
  assert (Hlen : (0 <? List.length (pre ++ ra :: post)) = true)
    by (destruct pre; reflexivity).
  rewrite Hlen, (validRemoteAuthorization_first ocpiToken pre post ra Hpre).
  - reflexivity.
  - unfold reusable. now rewrite Htag, String.eqb_refl, Hvalid.
Qed.

Lemma cachedAuthorization_none (ocpiToken : OCPIToken)
    (cs : ChargingStationDetails) :
  (forall l, remoteAuthorizations cs = Some l ->
             forallb (fun x => negb (reusable isAuthorizationValid
                                       ocpiToken x)) l = true) ->
  cachedAuthorization isAuthorizationValid ocpiToken cs = None.
Proof.
  intros H. unfold cachedAuthorization.
  destruct (remoteAuthorizations cs) as [l|]; [|reflexivity].
  destruct (0 <? List.length l); [|reflexivity].
  exact (validRemoteAuthorization_none ocpiToken l (H l eq_refl)).
Qed.

(** X2.  With no valid cached authorization for the token,
    [authorizeToken] posts once to [tokens/{uid}/authorize] with the site id
    and the EVSE uid of the charging station, and its only effect is that
    of the POST.  It returns an authorization id exactly when the POST
    completes with status 200 and an authorization that is ALLOWED and
    carries a non-empty id, which is the id returned; an authorization that
    is not ALLOWED raises "Authorization rejected" and an ALLOWED one without
    id raises a different error. *)
Theorem authorizeToken_requires_allowed_and_id (ocpiToken : OCPIToken)
    (cs : ChargingStationDetails) (w : World) :
  (forall l, remoteAuthorizations cs = Some l ->
             forallb (fun x => negb (reusable isAuthorizationValid
                                       ocpiToken x)) l = true) ->
  let posted :=
    postAuthorize (authorizeUrl cl OCPI_AUTHORIZE_TOKEN ocpiToken)
      (authorizePayload env buildEvseUID cs) w in
  let run :=
    authorizeToken env cl OCPI_AUTHORIZE_TOKEN isAuthorizationValid
      buildEvseUID postAuthorize ocpiToken cs w in
  snd run = snd posted
  /\ (forall id,
        fst run = Ok id
        <-> exists r info,
              fst posted = Ok r
              /\ authorize_status r = 200%Z
              /\ authorizationInfoOf r = Some info
              /\ allowed info = ALLOWED
              /\ info_authorization_id info = Some id
              /\ id <> "")
  /\ (forall r info,
        fst posted = Ok r ->
        authorize_status r = 200%Z ->
        authorizationInfoOf r = Some info ->
        (allowed info <> ALLOWED ->
         fst run = Raise (BackendError OCPI_AUTHORIZE_TOKEN "authorizeToken"
                            "Authorization rejected"))
        /\ (allowed info = ALLOWED ->
            truthyOpt (info_authorization_id info) = false ->
            fst run
            = Raise (BackendError OCPI_AUTHORIZE_TOKEN "authorizeToken"
                       "Authorization allowed without 'authorization_id'"))).
Proof.
  intros Hmiss. cbv zeta.
  unfold authorizeToken. rewrite (cachedAuthorization_none ocpiToken cs Hmiss).
  unfold bind, tryCatch, handleAxiosError, throw, ret.
  destruct (postAuthorize _ _ w) as [[r|e|] w']; cbn [fst snd].
  2,3: (split; [reflexivity|]; split;
        [intros id; split; [discriminate | intros (r & i & H & _); discriminate]
        | intros r i H; discriminate]).
  assert (Hinj : forall r0, Ok r = Ok r0 -> r0 = r) by (intros ? H; now injection H).
  destruct (authorize_status r =? 200)%Z eqn:Est; cbn [negb orb].
  2: { apply Z.eqb_neq in Est. split; [reflexivity|]. split.
       - intros id. split; [discriminate|].
         intros (r0 & i & H & Hs & _). apply Hinj in H. subst. contradiction.
       - intros r0 i H Hs. apply Hinj in H. subst. contradiction. }
  unfold authorizationInfoOf.
  destruct (authorize_body r) as [b|] eqn:Eb; cbn [isSome negb].
  2: { split; [reflexivity|]. split.
       - intros id. split; [discriminate|].
         intros (r0 & i & H & _ & Hi & _). apply Hinj in H. subst.
         rewrite Eb in Hi. discriminate.
       - intros r0 i H _ Hi. apply Hinj in H. subst.
         rewrite Eb in Hi. discriminate. }
  destruct (authorize_data b) as [info|] eqn:Ed.
  2: { split; [reflexivity|]. split.
       - intros id. split; [discriminate|].
         intros (r0 & i & H & _ & Hi & _). apply Hinj in H. subst.
         rewrite Eb, Ed in Hi. discriminate.
       - intros r0 i H _ Hi. apply Hinj in H. subst.
         rewrite Eb, Ed in Hi. discriminate. }
  assert (Hinfo : forall r0 i,
            Ok r = Ok r0 ->
            match authorize_body r0 with
            | Some data => authorize_data data
            | None => None
            end = Some i -> i = info).
  { intros r0 i H Hi. apply Hinj in H. subst. rewrite Eb, Ed in Hi.
    now injection Hi. }
  destruct (allowed info) eqn:Ea; cbn [allowed_eqb negb].
  2-5: (split; [reflexivity|]; split;
        [intros id; split; [discriminate|];
         intros (r0 & i & H & _ & Hi & Hal & _);
         rewrite (Hinfo r0 i H Hi) in Hal; congruence
        | intros r0 i H _ Hi; rewrite (Hinfo r0 i H Hi);
          split; [reflexivity | intros Hal; congruence]]).
  destruct (info_authorization_id info) as [id0|] eqn:Eid;
    cbn [truthyOpt orEmpty].
  2: { split; [reflexivity|]. split.
       - intros id. split; [discriminate|].
         intros (r0 & i & H & _ & Hi & _ & Hid & _).
         rewrite (Hinfo r0 i H Hi) in Hid. congruence.
       - intros r0 i H _ Hi. rewrite (Hinfo r0 i H Hi).
         split; [intros Hal; congruence | reflexivity]. }
  unfold truthy. destruct (String.eqb_spec id0 "") as [E0 | E0]; cbn [negb].
  - split; [reflexivity|]. split.
    + intros id. split; [discriminate|].
      intros (r0 & i & H & _ & Hi & _ & Hid & Hne).
      rewrite (Hinfo r0 i H Hi), Eid in Hid. congruence.
    + intros r0 i H _ Hi. rewrite (Hinfo r0 i H Hi), Eid. cbn [truthyOpt].
      split; [intros Hal; congruence | reflexivity].
  - split; [reflexivity|]. split.
    + intros id. split.
      * intros H. injection H as <-. exists r, info.
        apply Z.eqb_eq in Est. rewrite Eb. auto 10.
      * intros (r0 & i & H & _ & Hi & _ & Hid & Hne).
        rewrite (Hinfo r0 i H Hi), Eid in Hid. injection Hid as <-.
        reflexivity.
    + intros r0 i H _ Hi. rewrite (Hinfo r0 i H Hi), Eid. cbn [truthyOpt].
      split; [intros Hal; congruence|].
      unfold truthy. apply String.eqb_neq in E0. rewrite E0. discriminate.
Qed.

End Authorization.

(** ** Patching the status of a charging station *)

Section ChargingStationStatus.

Variable env : Env.
Variable cl : Client.
Variable buildEvseUID : ChargingStation -> option Connector -> string.
Variable convertStatus2OCPIStatus : string -> OCPIEvseStatus.

(** The request of [patchEVSEStatus]. *)
Lemma patchEVSEStatus_run (locationId evseUID : string)
    (newStatus : OCPIEvseStatus) (w : World) :
  truthy locationId = true -> truthy evseUID = true ->
  let target :=
    (locationUrl cl OCPI_PATCH_STATUS locationId ++ "/" ++ evseUID)%string in
  let req := sendRequest cl PATCH target (PStatus newStatus)
               (AXIOS_TIMEOUT cl) in
  patchEVSEStatus env cl locationId evseUID newStatus w
  = (match remote env (trace w) req with
     | Completed r =>
         if isSome (resp_data r) then Ok tt
         else Raise (BackendError OCPI_PATCH_STATUS "patchEVSEStatus"
                       ("Patch EVSE Status failed with status "
                          ++ showZ (resp_status r)))
     | Failed d =>
         Raise (RemoteProtocolError OCPI_PATCH_STATUS "patchEVSEStatus"
                  target d)
     end,
     emit (EHttp req (remote env (trace w) req)) w).
Proof.
  intros Hl Hu. cbv zeta. unfold patchEVSEStatus. rewrite Hl, Hu.
  cbn [negb orb truthyStatus].
  unfold bind, tryCatch, axiosSend, axios, handleAxiosError, throw, ret.
  destruct (remote env (trace w) _) as [r|d]; [|reflexivity].
  destruct (isSome (resp_data r)); reflexivity.
Qed.

Lemma patchEVSEStatus_invalid (locationId evseUID : string)
    (newStatus : OCPIEvseStatus) (w : World) :
  truthy locationId = false \/ truthy evseUID = false ->
  patchEVSEStatus env cl locationId evseUID newStatus w
  = (Raise (BackendError OCPI_PATCH_STATUS "patchEVSEStatus"
              "Invalid parameters"), w).
Proof.
  unfold patchEVSEStatus.
  intros [H | H]; rewrite H; cbn [negb orb]; [reflexivity|].
  now rewrite orb_true_r.
Qed.

(** X3.  [patchEVSEStatus] refuses an empty location id or EVSE uid before
    any request; otherwise it sends one PATCH and accepts every completed
    response that has a body, whatever its HTTP status: unlike the session
    and CDR calls it does not require a 200. *)
Theorem patchEVSEStatus_accepts_any_status_with_body
    (locationId evseUID : string) (newStatus : OCPIEvseStatus) (w : World) :
  (truthy locationId = false \/ truthy evseUID = false ->
   patchEVSEStatus env cl locationId evseUID newStatus w
   = (Raise (BackendError OCPI_PATCH_STATUS "patchEVSEStatus"
               "Invalid parameters"), w))
  /\ (truthy locationId = true -> truthy evseUID = true ->
      forall r,
        let req :=
          sendRequest cl PATCH
            (locationUrl cl OCPI_PATCH_STATUS locationId ++ "/" ++ evseUID)%string
            (PStatus newStatus) (AXIOS_TIMEOUT cl) in
        remote env (trace w) req = Completed r ->
        resp_data r <> None ->
        patchEVSEStatus env cl locationId evseUID newStatus w
        = (Ok tt, emit (EHttp req (Completed r)) w)).
Proof.
  split; [apply patchEVSEStatus_invalid|].
  intros Hl Hu r req Hr Hd. subst req.
  rewrite (patchEVSEStatus_run _ _ _ _ Hl Hu). cbv zeta. rewrite Hr.
  destruct (resp_data r); [reflexivity | congruence].
Qed.

(** One call of [patchEVSEStatus]: refused with the world untouched, or
    one request sent. *)
Lemma patchEVSEStatus_cases (locationId evseUID : string)
    (newStatus : OCPIEvseStatus) (w : World) :
  let req :=
    sendRequest cl PATCH
      (locationUrl cl OCPI_PATCH_STATUS locationId ++ "/" ++ evseUID)%string
      (PStatus newStatus) (AXIOS_TIMEOUT cl) in
  (exists e, patchEVSEStatus env cl locationId evseUID newStatus w
             = (Raise e, w))
  \/ (exists res out,
        patchEVSEStatus env cl locationId evseUID newStatus w
        = (res, emit (EHttp req out) w)
        /\ res <> OutOfFuel).
Proof.
  cbv zeta.
  destruct (truthy locationId) eqn:Hl;
    [destruct (truthy evseUID) eqn:Hu|].
  - right. rewrite (patchEVSEStatus_run _ _ _ _ Hl Hu). cbv zeta.
    do 2 eexists. split; [reflexivity|].
    destruct (remote env (trace w) _) as [r|d]; [|discriminate].
    destruct (isSome (resp_data r)); discriminate.
  - left. eexists. apply patchEVSEStatus_invalid. now right.
  - left. eexists. apply patchEVSEStatus_invalid. now left.
Qed.

Lemma httpRequests_exchanged (tr : list Event) (reqs : list Request) :
  httpRequests (exchanged env tr reqs) = reqs.
Proof.
  revert tr. induction reqs as [|q reqs IH]; intros tr; [reflexivity|].
  cbn [exchanged httpRequests]. now rewrite IH.
Qed.

Lemma quiet_exchanged (tr : list Event) (reqs : list Request) :
  quiet (exchanged env tr reqs).
Proof.
  unfold quiet. revert tr.
  induction reqs as [|q reqs IH]; intros tr; [reflexivity|].
  cbn [exchanged forallb isLockEvent negb andb]. apply IH.
Qed.

(** The loop of [removeChargingStation] over the connectors: the
    connectors split into those patched, all accepted, and the rest, whose
    first connector is the one the loop stopped on. *)
Lemma removeChargingStation_loop (cs : ChargingStationDetails)
    (l : list Connector) :
  forall w,
  exists res w' done rest,
    forEach l tt
      (fun _ connector =>
         patchEVSEStatus env cl
           (orEmpty (resolveSiteID env (station cs)))
           (buildEvseUID (station cs) (Some connector)) REMOVED) w
    = (res, w')
    /\ l = done ++ rest
    /\ locks w' = locks w
    /\ allAccepted
         (exchanged env (trace w)
            (map (removalRequest env cl buildEvseUID cs) done))
    /\ match rest with
       | [] =>
           res = Ok tt
           /\ trace w'
              = trace w
                ++ exchanged env (trace w)
                     (map (removalRequest env cl buildEvseUID cs) done)
       | c :: _ =>
           let patched :=
             exchanged env (trace w)
               (map (removalRequest env cl buildEvseUID cs) done) in
           let out :=
             remote env (trace w ++ patched)
               (removalRequest env cl buildEvseUID cs c) in
           ((truthy (orEmpty (resolveSiteID env (station cs))) = false
             \/ truthy (buildEvseUID (station cs) (Some c)) = false)
            /\ res = Raise (BackendError OCPI_PATCH_STATUS "patchEVSEStatus"
                              "Invalid parameters")
            /\ trace w' = trace w ++ patched)
           \/ (truthy (orEmpty (resolveSiteID env (station cs))) = true
               /\ truthy (buildEvseUID (station cs) (Some c)) = true
               /\ patchAccepted out = false
               /\ (exists e, res = Raise e)
               /\ trace w'
                  = trace w ++ patched
                    ++ [EHttp (removalRequest env cl buildEvseUID cs c) out])
       end.
Proof.
  induction l as [|c l IH]; intros w.
  - exists (Ok tt), w, [], []. repeat split. cbn. now rewrite app_nil_r.
  - cbn [forEach]. unfold bind at 1.
    destruct (truthy (orEmpty (resolveSiteID env (station cs)))) eqn:Hl;
      [destruct (truthy (buildEvseUID (station cs) (Some c))) eqn:Hu|].
    2,3: (rewrite patchEVSEStatus_invalid by (rewrite ?Hl, ?Hu; auto);
          exists (Raise (BackendError OCPI_PATCH_STATUS "patchEVSEStatus"
                           "Invalid parameters")), w, [], (c :: l);
          repeat split; left; rewrite ?Hl, ?Hu;
          (split; [auto|]); split; [reflexivity|];
          cbn; now rewrite app_nil_r).
    rewrite (patchEVSEStatus_run _ _ _ _ Hl Hu). cbv zeta.
    fold (removalRequest env cl buildEvseUID cs c).
    set (q := removalRequest env cl buildEvseUID cs c).
    destruct (patchAccepted (remote env (trace w) q)) eqn:Hacc.
    + assert (Hok :
        match remote env (trace w) q with
        | Completed r =>
            if isSome (resp_data r) then Ok tt
            else Raise (BackendError OCPI_PATCH_STATUS "patchEVSEStatus"
                          ("Patch EVSE Status failed with status "
                             ++ showZ (resp_status r)))
        | Failed d =>
            Raise (RemoteProtocolError OCPI_PATCH_STATUS "patchEVSEStatus"
                     (locationUrl cl OCPI_PATCH_STATUS
                        (orEmpty (resolveSiteID env (station cs)))
                        ++ "/" ++ buildEvseUID (station cs) (Some c)) d)
        end = Ok tt).
      { destruct (remote env (trace w) q) as [r|d]; cbn in Hacc;
          [now rewrite Hacc | discriminate]. }
      rewrite Hok.
      destruct (IH (emit (EHttp q (remote env (trace w) q)) w))
        as (res & w' & done & rest & E & Hsplit & Hlocks & Hall & Hrest).
      exists res, w', (c :: done), rest.
      split; [exact E|]. split; [cbn; now rewrite Hsplit|].
      split; [exact Hlocks|].
      cbn [map exchanged]. fold q.
      split.
      { unfold allAccepted in *. cbn [forallb]. now rewrite Hacc. }
      cbn [emit trace] in Hrest, Hall.
      destruct rest as [|c' rest'].
      * destruct Hrest as [Hres Htr]. split; [exact Hres|].
        rewrite Htr, <- app_assoc. reflexivity.
      * cbv zeta in Hrest |- *.
        replace (trace w
                 ++ EHttp q (remote env (trace w) q)
                    :: exchanged env
                         (trace w ++ [EHttp q (remote env (trace w) q)])
                         (map (removalRequest env cl buildEvseUID cs) done))
          with ((trace w ++ [EHttp q (remote env (trace w) q)])
                ++ exchanged env
                     (trace w ++ [EHttp q (remote env (trace w) q)])
                     (map (removalRequest env cl buildEvseUID cs) done))
          by (now rewrite <- app_assoc).
        destruct Hrest as [(Hinv & Hres & Htr)
                          | (Hv1 & Hv2 & Hno & Hres & Htr)].
        -- left. split; [exact Hinv|]. split; [exact Hres|].
           rewrite Htr, <- app_assoc. reflexivity.
        -- right. split; [exact Hv1|]. split; [exact Hv2|].
           split; [exact Hno|]. split; [exact Hres|].
           rewrite Htr, <- !app_assoc. reflexivity.
    + exists
        (match remote env (trace w) q with
         | Completed r =>
             if isSome (resp_data r) then Ok tt
             else Raise (BackendError OCPI_PATCH_STATUS "patchEVSEStatus"
                           ("Patch EVSE Status failed with status "
                              ++ showZ (resp_status r)))
         | Failed d =>
             Raise (RemoteProtocolError OCPI_PATCH_STATUS "patchEVSEStatus"
                      (locationUrl cl OCPI_PATCH_STATUS
                         (orEmpty (resolveSiteID env (station cs)))
                         ++ "/" ++ buildEvseUID (station cs) (Some c)) d)
         end),
        (emit (EHttp q (remote env (trace w) q)) w), [], (c :: l).
      assert (Hraise : exists e,
        match remote env (trace w) q with
        | Completed r =>
            if isSome (resp_data r) then Ok tt
            else Raise (BackendError OCPI_PATCH_STATUS "patchEVSEStatus"
                          ("Patch EVSE Status failed with status "
                             ++ showZ (resp_status r)))
        | Failed d =>
            Raise (RemoteProtocolError OCPI_PATCH_STATUS "patchEVSEStatus"
                     (locationUrl cl OCPI_PATCH_STATUS
                        (orEmpty (resolveSiteID env (station cs)))
                        ++ "/" ++ buildEvseUID (station cs) (Some c)) d)
        end = Raise e).
      { destruct (remote env (trace w) q) as [r|d]; cbn in Hacc;
          [rewrite Hacc|]; eexists; reflexivity. }
      split.
      { destruct Hraise as [e He]. rewrite He.
        destruct (remote env (trace w) q); reflexivity. }
      split; [reflexivity|]. split; [reflexivity|]. split; [reflexivity|].
      right. cbn [map exchanged app]. rewrite app_nil_r. fold q.
      split; [first [exact Hl | reflexivity]|].
      split; [exact Hu|]. split; [exact Hacc|].
      split; [exact Hraise | reflexivity].
Qed.

(** X4.  For a locally issued charging station attached to a site area,
    [removeChargingStation] patches the connectors to REMOVED one by one in
    connector order and stops at the first patch that is refused or fails.
    The connectors split into those patched and the rest: each of the
    former got one PATCH, in order, answered by the partner with a body;
    the call returns normally exactly when the rest is empty; otherwise it
    raises on the first connector of the rest, either before any request
    for it (an empty location id or EVSE uid) or after one PATCH that
    failed or came back without a body, and no request is sent for the
    connectors after that one.  The requests sent are thus an initial
    segment of the connectors' requests, and no lease is touched. *)
Theorem removeChargingStation_stops_at_first_failure
    (cs : ChargingStationDetails) (w : World) :
  truthy (siteAreaID (station cs)) = true \/ siteArea (station cs) <> None ->
  cs_issuer cs = true ->
  exists res w' evs n done rest,
    removeChargingStation env cl buildEvseUID cs w = (res, w')
    /\ Ext w w' evs
    /\ n <= List.length (connectors cs)
    /\ httpRequests evs
       = firstn n (map (removalRequest env cl buildEvseUID cs)
                     (connectors cs))
    /\ quiet evs
    /\ res <> OutOfFuel
    /\ (res = Ok tt <-> n = List.length (connectors cs) /\ rest = [])
    /\ connectors cs = done ++ rest
    /\ allAccepted
         (exchanged env (trace w)
            (map (removalRequest env cl buildEvseUID cs) done))
    /\ match rest with
       | [] =>
           res = Ok tt
           /\ evs
              = exchanged env (trace w)
                  (map (removalRequest env cl buildEvseUID cs) done)
       | c :: _ =>
           let patched :=
             exchanged env (trace w)
               (map (removalRequest env cl buildEvseUID cs) done) in
           let out :=
             remote env (trace w ++ patched)
               (removalRequest env cl buildEvseUID cs c) in
           ((truthy (orEmpty (resolveSiteID env (station cs))) = false
             \/ truthy (buildEvseUID (station cs) (Some c)) = false)
            /\ res = Raise (BackendError OCPI_PATCH_STATUS "patchEVSEStatus"
                              "Invalid parameters")
            /\ evs = patched)
           \/ (truthy (orEmpty (resolveSiteID env (station cs))) = true
               /\ truthy (buildEvseUID (station cs) (Some c)) = true
               /\ patchAccepted out = false
               /\ (exists e, res = Raise e)
               /\ evs
                  = patched
                    ++ [EHttp (removalRequest env cl buildEvseUID cs c) out])
       end.
Proof.
  intros Harea Hissuer. unfold removeChargingStation.
  assert (Hguard :
    negb (truthy (siteAreaID (station cs)))
    && negb (isSome (siteArea (station cs))) = false).
  { destruct Harea as [H | H]; [now rewrite H|].
    destruct (siteArea (station cs)); [apply andb_false_r | congruence]. }
  rewrite Hguard, Hissuer. cbn [negb].
  destruct (removeChargingStation_loop cs (connectors cs) w)
    as (res & w' & done & rest & E & Hsplit & Hlocks & Hall & Hrest).
  rewrite E. clear E.
  set (R := removalRequest env cl buildEvseUID cs) in *.
  set (patched := exchanged env (trace w) (map R done)) in *.
  assert (Hfirst : firstn (List.length done) (map R (connectors cs))
                   = map R done).
  { rewrite Hsplit, map_app, <- (length_map R done).
    rewrite firstn_app, Nat.sub_diag, firstn_all. cbn [firstn].
    apply app_nil_r. }
  destruct rest as [|c rest'].
  - destruct Hrest as [Hres Htr].
    exists res, w', patched, (List.length done), done, [].
    split; [reflexivity|]. split; [split; assumption|].
    split; [rewrite Hsplit, length_app; lia|].
    split; [unfold patched; rewrite httpRequests_exchanged; now rewrite Hfirst|].
    split; [apply quiet_exchanged|].
    split; [rewrite Hres; discriminate|].
    split.
    { split; [intros _ | intros _; exact Hres].
      split; [rewrite Hsplit, app_nil_r; reflexivity | reflexivity]. }
    split; [exact Hsplit|]. split; [exact Hall|].
    split; [exact Hres | reflexivity].
  - cbv zeta in Hrest.
    destruct Hrest as [(Hinv & Hres & Htr) | (Hv1 & Hv2 & Hno & Hres & Htr)].
    + exists res, w', patched, (List.length done), done, (c :: rest').
      split; [reflexivity|]. split; [split; assumption|].
      split; [rewrite Hsplit, length_app; lia|].
      split; [unfold patched; rewrite httpRequests_exchanged;
              now rewrite Hfirst|].
      split; [apply quiet_exchanged|].
      split; [rewrite Hres; discriminate|].
      split.
      { split; [rewrite Hres; discriminate | intros [_ H]; discriminate]. }
      split; [exact Hsplit|]. split; [exact Hall|].
      left. split; [exact Hinv|]. split; [exact Hres | reflexivity].
    + exists res, w',
        (patched ++ [EHttp (R c) (remote env (trace w ++ patched) (R c))]),
        (S (List.length done)), done, (c :: rest').
      split; [reflexivity|]. split; [split; assumption|].
      split; [rewrite Hsplit, length_app; cbn [List.length]; lia|].
      split.
      { rewrite httpRequests_app. unfold patched.
        rewrite httpRequests_exchanged. cbn [httpRequests].
        rewrite Hsplit, map_app. cbn [map].
        rewrite <- (length_map R done) at 1.
        replace (S (List.length (map R done)))
          with (List.length (map R done) + 1) by lia.
        rewrite firstn_app_2. reflexivity. }
      split.
      { unfold quiet. rewrite forallb_app.
        pose proof (quiet_exchanged (trace w) (map R done)) as Q.
        unfold quiet in Q. fold patched in Q. now rewrite Q. }
      split; [destruct Hres as [e ->]; discriminate|].
      split.
      { split; [destruct Hres as [e ->]; discriminate
               | intros [_ H]; discriminate]. }
      split; [exact Hsplit|]. split; [exact Hall|].
      right. split; [exact Hv1|]. split; [exact Hv2|].
      split; [exact Hno|]. split; [exact Hres | reflexivity].
Qed.

(** X5.  [removeChargingStation] and [patchChargingStationStatus] raise
    before any request when the charging station has neither a site area id
    nor a site area, or was not issued locally; [patchChargingStationStatus]
    raises as well for a private charging station; and a charging station
    whose site id cannot be resolved is never patched. *)
Theorem charging_station_must_be_exposable (cs : ChargingStationDetails)
    (connector : Connector) (w : World) :
  (truthy (siteAreaID (station cs)) = false ->
   siteArea (station cs) = None ->
   removeChargingStation env cl buildEvseUID cs w
   = (Raise (BackendError OCPI_PATCH_STATUS "removeChargingStation"
               "Charging Station must be associated to a site area"), w)
   /\ patchChargingStationStatus env cl buildEvseUID
        convertStatus2OCPIStatus cs connector w
      = (Raise (BackendError OCPI_PATCH_STATUS "patchChargingStationStatus"
                  "Charging Station must be associated to a site area"), w))
  /\ (cs_issuer cs = false ->
      (exists e, removeChargingStation env cl buildEvseUID cs w
                 = (Raise e, w))
      /\ (exists e, patchChargingStationStatus env cl buildEvseUID
                      convertStatus2OCPIStatus cs connector w
                    = (Raise e, w)))
  /\ (cs_public cs = false ->
      exists e, patchChargingStationStatus env cl buildEvseUID
                  convertStatus2OCPIStatus cs connector w
                = (Raise e, w))
  /\ (truthyOpt (resolveSiteID env (station cs)) = false ->
      (exists e, patchChargingStationStatus env cl buildEvseUID
                   convertStatus2OCPIStatus cs connector w
                 = (Raise e, w))
      /\ (exists res, removeChargingStation env cl buildEvseUID cs w
                      = (res, w))).
Proof.
  unfold removeChargingStation, patchChargingStationStatus, throw.
  split; [|split; [|split]].
  - intros H1 H2. rewrite H1, H2. split; reflexivity.
  - intros H. rewrite H. cbn [negb].
    destruct (negb (truthy (siteAreaID (station cs)))
              && negb (isSome (siteArea (station cs))));
      split; eexists; reflexivity.
  - intros H. rewrite H. cbn [negb].
    destruct (negb (truthy (siteAreaID (station cs)))
              && negb (isSome (siteArea (station cs))));
      [eexists; reflexivity|].
    destruct (negb (cs_issuer cs)); eexists; reflexivity.
  - intros H.
    assert (Hinv : truthy (orEmpty (resolveSiteID env (station cs))) = false).
    { destruct (resolveSiteID env (station cs)); [exact H | reflexivity]. }
    destruct (negb (truthy (siteAreaID (station cs)))
              && negb (isSome (siteArea (station cs))));
      [split; eexists; reflexivity|].
    destruct (negb (cs_issuer cs)); [split; eexists; reflexivity|].
    split.
    + destruct (negb (cs_public cs)); [eexists; reflexivity|].
      eexists. apply patchEVSEStatus_invalid. now left.
    + destruct (connectors cs) as [|c l]; [eexists; reflexivity|].
      cbn [forEach]. unfold bind.
      rewrite (patchEVSEStatus_invalid _ _ _ _ (or_introl Hinv)).
      eexists. reflexivity.
Qed.

End ChargingStationStatus.

(** ** The life of a session and of its CDR *)

Section SessionLifeCycle.

Variable env : Env.
Variable cl : Client.

Lemma sessionOf_setSession (t : Transaction) (s s' : OCPISession) :
  sessionOf t = Some s -> sessionOf (setSession t s') = Some s'.
Proof.
  unfold sessionOf, setSession.
  destruct (ocpiData t); [reflexivity | discriminate].
Qed.

Lemma cdrOf_setSession (t : Transaction) (s : OCPISession) :
  cdrOf (setSession t s) = cdrOf t.
Proof.
  unfold cdrOf, setSession.
  destruct (ocpiData t) eqn:E; cbn; now rewrite ?E.
Qed.

Lemma stop_setSession (t : Transaction) (s : OCPISession) :
  stop (setSession t s) = stop t.
Proof. unfold setSession. destruct (ocpiData t); reflexivity. Qed.

Lemma cdrOf_setCdr (t : Transaction) (s : OCPISession) (c : OCPICdr) :
  sessionOf t = Some s -> cdrOf (setCdr t c) = Some c.
Proof.
  unfold sessionOf, cdrOf, setCdr.
  destruct (ocpiData t); [reflexivity | discriminate].
Qed.

Lemma sessionOf_setCdr (t : Transaction) (c : OCPICdr) :
  sessionOf (setCdr t c) = sessionOf t.
Proof.
  unfold sessionOf, setCdr.
  destruct (ocpiData t) eqn:E; cbn; now rewrite ?E.
Qed.

Lemma sessionOf_setCdrCheckedOn (t : Transaction) (d : Z) :
  sessionOf (setCdrCheckedOn t d) = sessionOf t.
Proof.
  unfold sessionOf, setCdrCheckedOn.
  destruct (ocpiData t) eqn:E; cbn; now rewrite ?E.
Qed.

(** The POST of [postCdr]. *)
Lemma postCdr_run (t : Transaction) (s : OCPISession)
    (stopped : TransactionStop) (w : World) :
  sessionOf t = Some s ->
  stop t = Some stopped ->
  let built := buildCdr env t s stopped in
  let target := getEndpointUrl cl "cdrs" OCPI_PUSH_CDRS in
  let req := sendRequest cl POST target (PCdr built) (AXIOS_TIMEOUT cl) in
  postCdr env cl (t, w)
  = match remote env (trace w) req with
    | Completed r =>
        (if negb (resp_status r =? 200)%Z || negb (isSome (resp_data r))
         then Raise (BackendError OCPI_PUSH_CDRS "postCdr"
                       ("Post cdr failed with status "
                          ++ showZ (resp_status r)))
         else Ok tt,
         (setCdr t built, emit (EHttp req (Completed r)) w))
    | Failed d =>
        (Raise (RemoteProtocolError OCPI_PUSH_CDRS "stopSession" target d),
         (setCdr t built, emit (EHttp req (Failed d)) w))
    end.
Proof.
  intros H Hs. cbv zeta.
  unfold postCdr, bind, getObj, lift, tryCatch, axiosSend, axios,
    handleAxiosError, throw, setObj, ret.
  rewrite H, Hs.
  destruct (remote env (trace w) _) as [r|d]; [|reflexivity].
  destruct (negb (resp_status r =? 200)%Z || negb (isSome (resp_data r)));
    reflexivity.
Qed.

Lemma cdr_cost_floor (stopped : TransactionStop) (t : Transaction)
    (s : OCPISession) :
  (0 <= cdr_total_cost (buildCdr env t s stopped))%Q
  /\ ((0 < roundedPrice stopped)%Q ->
      cdr_total_cost (buildCdr env t s stopped) = roundedPrice stopped)
  /\ ((roundedPrice stopped <= 0)%Q ->
      cdr_total_cost (buildCdr env t s stopped) = 0%Q).
Proof.
  cbn [buildCdr cdr_total_cost]. unfold Qgt_bool.
  destruct (Qle_bool (roundedPrice stopped) 0) eqn:E; cbn [negb].
  - apply Qle_bool_iff in E. split; [apply Qle_refl|].
    split; [|reflexivity]. intros H. exfalso.
    exact (Qlt_not_le _ _ H E).
  - assert (H : ~ (roundedPrice stopped <= 0)%Q).
    { intros H. apply Qle_bool_iff in H. congruence. }
    split; [apply Qlt_le_weak, Qnot_le_lt, H|].
    split; [reflexivity | intros H'; contradiction].
Qed.

(** X6.  On a stopped transaction with a session, [postCdr] posts one CDR
    whose id is the session id and whose total cost is the rounded price
    floored at zero, and it stores that CDR on the transaction before the
    call: the transaction carries the CDR, next to its untouched session,
    also when the POST fails or is refused. *)
Theorem postCdr_stores_floored_cdr (t : Transaction) (s : OCPISession)
    (stopped : TransactionStop) (w : World) :
  sessionOf t = Some s ->
  stop t = Some stopped ->
  let built := buildCdr env t s stopped in
  let run := postCdr env cl (t, w) in
  cdrOf (fst (snd run)) = Some built
  /\ sessionOf (fst (snd run)) = Some s
  /\ (exists out,
        snd (snd run)
        = emit (EHttp (sendRequest cl POST
                         (getEndpointUrl cl "cdrs" OCPI_PUSH_CDRS)
                         (PCdr built) (AXIOS_TIMEOUT cl)) out) w)
  /\ cdr_id built = ses_id s
  /\ (0 <= cdr_total_cost built)%Q
  /\ ((0 < roundedPrice stopped)%Q ->
      cdr_total_cost built = roundedPrice stopped)
  /\ ((roundedPrice stopped <= 0)%Q -> cdr_total_cost built = 0%Q).
Proof.
  intros H Hs. cbv zeta. rewrite (postCdr_run t s stopped w H Hs). cbv zeta.
  assert (Hc := cdrOf_setCdr t s (buildCdr env t s stopped) H).
  assert (Hk : sessionOf (setCdr t (buildCdr env t s stopped)) = Some s)
    by (now rewrite sessionOf_setCdr).
  destruct (cdr_cost_floor stopped t s) as (F1 & F2 & F3).
  destruct (remote env (trace w) _) as [r|d]; cbn [fst snd];
    (split; [exact Hc|]; split; [exact Hk|];
     split; [eexists; reflexivity|]; split; [reflexivity|]; auto).
Qed.

(** X7.  [updateSession] and [stopSession] write the new state of the
    session on the transaction before they call the partner, and nothing
    undoes it: whatever the partner answers, also when the call fails, the
    local session is ACTIVE after [updateSession] and COMPLETED with the
    stop time as end after [stopSession], with the id, the start and the
    authorization of the session unchanged. *)
Theorem session_state_is_written_before_the_call (t : Transaction)
    (s : OCPISession) (w : World) :
  sessionOf t = Some s ->
  (exists s',
     sessionOf (fst (snd (updateSession env cl (t, w)))) = Some s'
     /\ status s' = ACTIVE
     /\ ses_id s' = ses_id s
     /\ start_datetime s' = start_datetime s
     /\ authorization_id s' = authorization_id s
     /\ kwh s' = (currentTotalConsumptionWh t / 1000)%Q
     /\ total_cost s' = currentCumulatedPrice t)
  /\ (forall stopped,
        stop t = Some stopped ->
        exists s',
          sessionOf (fst (snd (stopSession env cl (t, w)))) = Some s'
          /\ status s' = COMPLETED
          /\ ses_id s' = ses_id s
          /\ start_datetime s' = start_datetime s
          /\ authorization_id s' = authorization_id s
          /\ end_datetime s' = stop_timestamp stopped
          /\ kwh s' = (totalConsumptionWh stopped / 1000)%Q
          /\ total_cost s' = roundedPrice stopped).
Proof.
  intros H. split.
  - exists (updatedSession env t s).
    rewrite (updateSession_run env cl t s w H). cbv zeta.
    split; [|repeat split].
    destruct (remote env (trace w) _); cbn [fst snd];
      exact (sessionOf_setSession t s _ H).
  - intros stopped Hs. exists (stoppedSession env t s stopped).
    rewrite (stopSession_run env cl t s stopped w H Hs). cbv zeta.
    split; [|repeat split].
    destruct (remote env (trace w) _); cbn [fst snd];
      exact (sessionOf_setSession t s _ H).
Qed.

(** [checkSession] on a transaction with a session, step by step. *)
Lemma checkSession_run (t : Transaction) (s : OCPISession) (w : World) :
  sessionOf t = Some s ->
  let target := sessionUrl cl OCPI_CHECK_SESSIONS (ses_id s) in
  let g := getRequest cl target in
  let w1 := emit (EHttp g (remote env (trace w) g)) w in
  checkSession env cl (t, w)
  = match remote env (trace w) g with
    | Failed d =>
        (Raise (RemoteProtocolError OCPI_CHECK_SESSIONS "checkSession"
                  target d), (t, w1))
    | Completed r =>
        if (resp_status r =? 200)%Z && isSome (resp_data r) then
          match dataOf r with
          | Some _ =>
              let checked := setSessionCheckedOn t (clock env (trace w1)) in
              (Ok true, (checked, emit (ESaveTransaction checked) w1))
          | None =>
              (Raise (BackendError OCPI_CHECK_CDRS "checkSession"
                        ("Invalid response from Check session at "
                           ++ target)), (t, w1))
          end
        else
          (Raise (BackendError OCPI_CHECK_CDRS "checkSession"
                    ("Invalid response from Check session at " ++ target)),
           (t, w1))
    end.
Proof.
  intros Hs. cbv zeta.
  unfold checkSession, bind, getObj, lift, tryCatch, axiosGet, axios,
    handleAxiosError, throw, setObj, ret, newDate, saveTransaction.
  rewrite Hs.
  destruct (remote env (trace w) _) as [r|d]; [|reflexivity].
  destruct ((resp_status r =? 200)%Z && isSome (resp_data r)); [|reflexivity].
  destruct (dataOf r); reflexivity.
Qed.

(** X8.  [checkSession] never answers "not confirmed": it returns true,
    after stamping [sessionCheckedOn] with the current time and saving the
    transaction, exactly when the partner answers the GET of the session
    with HTTP 200 and a payload; in every other case it raises, the
    transaction is left as it was and nothing is saved.  It sends at most
    that one GET, and none when the transaction has no session. *)
Theorem checkSession_confirms_or_raises (t : Transaction) (w : World) :
  let run := checkSession env cl (t, w) in
  fst run <> Ok false
  /\ (sessionOf t = None -> exists e, run = (Raise e, (t, w)))
  /\ (forall s,
        sessionOf t = Some s ->
        let g := getRequest cl (sessionUrl cl OCPI_CHECK_SESSIONS (ses_id s)) in
        let w1 := emit (EHttp g (remote env (trace w) g)) w in
        let checked := setSessionCheckedOn t (clock env (trace w1)) in
        (fst run = Ok true
         <-> exists r,
               remote env (trace w) g = Completed r
               /\ resp_status r = 200%Z /\ dataOf r <> None)
        /\ (fst run = Ok true ->
            snd run = (checked, emit (ESaveTransaction checked) w1)
            /\ option_map sessionCheckedOn (ocpiData checked)
               = Some (Some (clock env (trace w1))))
        /\ (fst run <> Ok true ->
            (exists e, fst run = Raise e) /\ snd run = (t, w1))).
Proof.
  cbv zeta. split; [|split].
  - destruct (sessionOf t) as [s|] eqn:Hs.
    + rewrite (checkSession_run t s w Hs). cbv zeta.
      destruct (remote env (trace w) _) as [r|d]; [|discriminate].
      destruct ((resp_status r =? 200)%Z && isSome (resp_data r));
        [|discriminate].
      destruct (dataOf r); discriminate.
    + unfold checkSession, bind, getObj, throw. rewrite Hs. discriminate.
  - intros Hs. unfold checkSession, bind, getObj, throw. rewrite Hs.
    eexists. reflexivity.
  - intros s Hs. rewrite (checkSession_run t s w Hs). cbv zeta.
    assert (Hstamp : forall d,
      option_map sessionCheckedOn (ocpiData (setSessionCheckedOn t d))
      = Some (Some d)).
    { intros d. unfold sessionOf in Hs. unfold setSessionCheckedOn.
      destruct (ocpiData t); [reflexivity | discriminate]. }
    destruct (remote env (trace w) _) as [r|d] eqn:Er.
    2: { cbn [fst snd]. split; [|split].
         - split; [discriminate|]. intros (r0 & H & _). discriminate.
         - discriminate.
         - intros _. split; [eexists|]; reflexivity. }
    destruct ((resp_status r =? 200)%Z) eqn:Est; cbn [andb].
    2: { cbn [fst snd]. split; [|split].
         - split; [discriminate|].
           intros (r0 & H & Hst & _). injection H as <-.
           apply Z.eqb_eq in Hst. congruence.
         - discriminate.
         - intros _. split; [eexists|]; reflexivity. }
    destruct (isSome (resp_data r)) eqn:Ed.
    2: { cbn [fst snd]. split; [|split].
         - split; [discriminate|].
           intros (r0 & H & _ & Hd). injection H as <-.
           rewrite (dataOf_has_body r Hd) in Ed. discriminate.
         - discriminate.
         - intros _. split; [eexists|]; reflexivity. }
    destruct (dataOf r) as [x|] eqn:Edata; cbn [fst snd].
    + split; [|split].
      * split; [|reflexivity]. intros _. exists r.
        apply Z.eqb_eq in Est.
        split; [reflexivity|]. split; [exact Est | congruence].
      * intros _. split; [reflexivity | apply Hstamp].
      * intros H. contradiction.
    + split; [|split].
      * split; [discriminate|].
        intros (r0 & H & _ & Hd). injection H as <-. contradiction.
      * discriminate.
      * intros _. split; [eexists|]; reflexivity.
Qed.

End SessionLifeCycle.

Section SessionLifeCycleComposed.

Variable env : Env.
Variable cl : Client.
Hypothesis partner : confirming env.

Lemma confirming_good (tr : list Event) (req : Request) :
  exists r,
    remote env tr req = Completed r
    /\ negb (resp_status r =? 200)%Z || negb (isSome (resp_data r)) = false
    /\ (resp_status r =? 200)%Z && isSome (resp_data r) = true
    /\ statusCodeIs r 3001 = false
    /\ dataOf r <> None.
Proof.
  destruct (partner tr req) as (r & Hr & Hs & Hd & H3).
  exists r. apply Z.eqb_eq in Hs.
  rewrite Hs, (dataOf_has_body r Hd). auto.
Qed.

Lemma startSession_confirmed (tok : OCPIToken) (cs : ChargingStation)
    (a : string) (t : Transaction) (w : World) :
  exists out,
    startSession env cl tok cs a (t, w)
    = (Ok tt,
       (setOcpiData t (Some (startedOcpiData (buildSession env cl tok cs t a))),
        emit (EHttp (sendRequest cl PUT (sessionUrl cl OCPI_PUSH_SESSIONS a)
                       (PSession (buildSession env cl tok cs t a))
                       (AXIOS_TIMEOUT cl)) out) w)).
Proof.
  rewrite startSession_run. cbv zeta.
  destruct (confirming_good (trace w)
              (sendRequest cl PUT (sessionUrl cl OCPI_PUSH_SESSIONS a)
                 (PSession (buildSession env cl tok cs t a))
                 (AXIOS_TIMEOUT cl))) as (r & Hr & _).
  rewrite Hr. eexists. reflexivity.
Qed.

Lemma updateSession_confirmed (t : Transaction) (s : OCPISession)
    (w : World) :
  sessionOf t = Some s ->
  exists out,
    updateSession env cl (t, w)
    = (Ok tt,
       (setSession t (updatedSession env t s),
        emit (EHttp (sendRequest cl PATCH
                       (sessionUrl cl OCPI_PUSH_SESSIONS (ses_id s))
                       (PSessionPatch (patchBodyOf (updatedSession env t s)))
                       (AXIOS_TIMEOUT cl)) out) w)).
Proof.
  intros Hs. rewrite (updateSession_run env cl t s w Hs). cbv zeta.
  destruct (confirming_good (trace w)
              (sendRequest cl PATCH
                 (sessionUrl cl OCPI_PUSH_SESSIONS (ses_id s))
                 (PSessionPatch (patchBodyOf (updatedSession env t s)))
                 (AXIOS_TIMEOUT cl))) as (r & Hr & Hok & _).
  rewrite Hr, Hok. eexists. reflexivity.
Qed.

Lemma stopSession_confirmed (t : Transaction) (s : OCPISession)
    (stopped : TransactionStop) (w : World) :
  sessionOf t = Some s -> stop t = Some stopped ->
  exists out,
    stopSession env cl (t, w)
    = (Ok tt,
       (setSession t (stoppedSession env t s stopped),
        emit (EHttp (sendRequest cl PUT
                       (sessionUrl cl OCPI_PUSH_SESSIONS (ses_id s))
                       (PSession (stoppedSession env t s stopped))
                       (AXIOS_TIMEOUT cl)) out) w)).
Proof.
  intros Hs Hst. rewrite (stopSession_run env cl t s stopped w Hs Hst).
  cbv zeta.
  destruct (confirming_good (trace w)
              (sendRequest cl PUT
                 (sessionUrl cl OCPI_PUSH_SESSIONS (ses_id s))
                 (PSession (stoppedSession env t s stopped))
                 (AXIOS_TIMEOUT cl))) as (r & Hr & Hok & _).
  rewrite Hr, Hok. eexists. reflexivity.
Qed.

Lemma postCdr_confirmed (t : Transaction) (s : OCPISession)
    (stopped : TransactionStop) (w : World) :
  sessionOf t = Some s -> stop t = Some stopped ->
  exists out,
    postCdr env cl (t, w)
    = (Ok tt,
       (setCdr t (buildCdr env t s stopped),
        emit (EHttp (sendRequest cl POST
                       (getEndpointUrl cl "cdrs" OCPI_PUSH_CDRS)
                       (PCdr (buildCdr env t s stopped))
                       (AXIOS_TIMEOUT cl)) out) w)).
Proof.
  intros Hs Hst. rewrite (postCdr_run env cl t s stopped w Hs Hst).
  cbv zeta.
  destruct (confirming_good (trace w)
              (sendRequest cl POST (getEndpointUrl cl "cdrs" OCPI_PUSH_CDRS)
                 (PCdr (buildCdr env t s stopped)) (AXIOS_TIMEOUT cl)))
    as (r & Hr & Hok & _).
  rewrite Hr, Hok. eexists. reflexivity.
Qed.

Lemma checkCdr_confirmed (t : Transaction) (c : OCPICdr) (w : World) :
  cdrOf t = Some c ->
  exists out d,
    checkCdr env cl (t, w)
    = (Ok true,
       (setCdrCheckedOn t d,
        emit (ESaveTransaction (setCdrCheckedOn t d))
          (emit (EHttp (getRequest cl
                          (getEndpointUrl cl "cdrs" OCPI_CHECK_CDRS ++ "/"
                             ++ cdr_id c)%string) out) w))).
Proof.
  intros Hc. rewrite (checkCdr_run env cl t c w Hc). cbv zeta.
  destruct (confirming_good (trace w)
              (getRequest cl
                 (getEndpointUrl cl "cdrs" OCPI_CHECK_CDRS ++ "/"
                    ++ cdr_id c)%string)) as (r & Hr & _ & Hok & H3 & Hd).
  rewrite Hr, Hok, H3. destruct (dataOf r); [|congruence].
  do 2 eexists. reflexivity.
Qed.

Lemma checkSession_confirmed (t : Transaction) (s : OCPISession)
    (w : World) :
  sessionOf t = Some s ->
  exists out d,
    checkSession env cl (t, w)
    = (Ok true,
       (setSessionCheckedOn t d,
        emit (ESaveTransaction (setSessionCheckedOn t d))
          (emit (EHttp (getRequest cl
                          (sessionUrl cl OCPI_CHECK_SESSIONS (ses_id s)))
                   out) w))).
Proof.
  intros Hs. rewrite (checkSession_run env cl t s w Hs). cbv zeta.
  destruct (confirming_good (trace w)
              (getRequest cl (sessionUrl cl OCPI_CHECK_SESSIONS (ses_id s))))
    as (r & Hr & _ & Hok & _ & Hd).
  rewrite Hr, Hok. destruct (dataOf r); [|congruence].
  do 2 eexists. reflexivity.
Qed.

(** X9.  Against a partner that answers every call with HTTP 200 and a
    payload, the calls of a transaction's life compose: start, update, stop,
    post of the CDR and the two checks all return, both checks confirm, and
    six requests go out in order, the PUT, the PATCH and the PUT of the
    session all at the URL of the authorization id, the POST of the CDR,
    and the GETs of that CDR and of that session under the same id.  The
    transaction ends with a COMPLETED session and a CDR that carry the
    authorization id, both stamped as checked. *)
Theorem session_life_cycle_composes (tok : OCPIToken) (cs : ChargingStation)
    (authorizationId : string) (t : Transaction) (stopped : TransactionStop)
    (w : World) :
  stop t = Some stopped ->
  exists t' w' evs data s c,
    sessionLifeCycle env cl tok cs authorizationId (t, w)
    = (Ok (true, true), (t', w'))
    /\ trace w' = trace w ++ evs
    /\ map (fun q => (method q, url q)) (httpRequests evs)
       = [ (PUT, sessionUrl cl OCPI_PUSH_SESSIONS authorizationId);
           (PATCH, sessionUrl cl OCPI_PUSH_SESSIONS authorizationId);
           (PUT, sessionUrl cl OCPI_PUSH_SESSIONS authorizationId);
           (POST, getEndpointUrl cl "cdrs" OCPI_PUSH_CDRS);
           (GET, (getEndpointUrl cl "cdrs" OCPI_CHECK_CDRS ++ "/"
                    ++ authorizationId)%string);
           (GET, sessionUrl cl OCPI_CHECK_SESSIONS authorizationId) ]
    /\ ocpiData t' = Some data
    /\ session data = Some s /\ status s = COMPLETED
    /\ ses_id s = authorizationId
    /\ cdr data = Some c /\ cdr_id c = authorizationId
    /\ cdrCheckedOn data <> None /\ sessionCheckedOn data <> None.
Proof.
  intros Hstop. unfold sessionLifeCycle.
  set (s0 := buildSession env cl tok cs t authorizationId).
  set (t1 := setOcpiData t (Some (startedOcpiData s0))).
  assert (Hs1 : sessionOf t1 = Some s0) by reflexivity.
  assert (Hst1 : stop t1 = Some stopped) by exact Hstop.
  set (s1 := updatedSession env t1 s0).
  set (t2 := setSession t1 s1).
  assert (Hs2 : sessionOf t2 = Some s1) by reflexivity.
  assert (Hst2 : stop t2 = Some stopped) by exact Hstop.
  set (s2 := stoppedSession env t2 s1 stopped).
  set (t3 := setSession t2 s2).
  assert (Hs3 : sessionOf t3 = Some s2) by reflexivity.
  assert (Hst3 : stop t3 = Some stopped) by exact Hstop.
  set (c := buildCdr env t3 s2 stopped).
  set (t4 := setCdr t3 c).
  assert (Hc4 : cdrOf t4 = Some c) by reflexivity.
  destruct (startSession_confirmed tok cs authorizationId t w) as (o1 & E1).
  fold s0 t1 in E1. unfold bind. rewrite E1.
  match goal with |- context [updateSession env cl (t1, ?w1)] =>
    destruct (updateSession_confirmed t1 s0 w1 Hs1) as (o2 & E2) end.
  fold s1 t2 in E2. rewrite E2.
  match goal with |- context [stopSession env cl (t2, ?w2)] =>
    destruct (stopSession_confirmed t2 s1 stopped w2 Hs2 Hst2) as (o3 & E3)
  end.
  fold s2 t3 in E3. rewrite E3.
  match goal with |- context [postCdr env cl (t3, ?w3)] =>
    destruct (postCdr_confirmed t3 s2 stopped w3 Hs3 Hst3) as (o4 & E4) end.
  fold c t4 in E4. rewrite E4.
  match goal with |- context [checkCdr env cl (t4, ?w4)] =>
    destruct (checkCdr_confirmed t4 c w4 Hc4) as (o5 & d5 & E5) end.
  rewrite E5.
  assert (Hs5 : sessionOf (setCdrCheckedOn t4 d5) = Some s2) by reflexivity.
  match goal with |- context [checkSession env cl (_, ?w5)] =>
    destruct (checkSession_confirmed (setCdrCheckedOn t4 d5) s2 w5 Hs5)
      as (o6 & d6 & E6) end.
  rewrite E6.
  unfold ret.
  do 6 eexists. split; [reflexivity|].
  split.
  { cbn [trace emit]. rewrite <- !app_assoc. reflexivity. }
  split; [reflexivity|].
  split; [reflexivity|].
  repeat split; discriminate.
Qed.

End SessionLifeCycleComposed.

(** ** Reconciliation sweeps: exact accounts *)

Section SweepAccounts.

Variable env : Env.
Variable cl : Client.

(** A loop whose body keeps an invariant of the items done, the
    accumulator and the world keeps it to the end. *)
Lemma forEach_invariant {A}
    (f : OCPIJobResult -> A -> M World OCPIJobResult)
    (I : list A -> OCPIJobResult -> World -> Prop) :
  (forall done x r w,
     I done r w ->
     exists r' w', f r x w = (Ok r', w') /\ I (done ++ [x]) r' w') ->
  forall l done r w,
    I done r w ->
    exists r' w', forEach l r f w = (Ok r', w') /\ I (done ++ l) r' w'.
Proof.
  intros Hf. induction l as [|x l IH]; intros done r w HI.
  - exists r, w. rewrite app_nil_r. split; [reflexivity | exact HI].
  - cbn [forEach]. unfold bind at 1.
    destruct (Hf done x r w HI) as (r1 & w1 & E1 & H1). rewrite E1.
    destruct (IH (done ++ [x]) r1 w1 H1) as (r2 & w2 & E2 & H2).
    exists r2, w2. split; [exact E2|].
    now rewrite <- app_assoc in H2.
Qed.

Lemma perm_push_success (s f m : list string) (x : string) :
  Permutation (s ++ f) m -> Permutation ((s ++ [x]) ++ f) (m ++ [x]).
Proof.
  intros H. rewrite <- app_assoc. cbn [app].
  apply Permutation_trans with (l' := x :: s ++ f).
  - apply Permutation_sym, Permutation_middle.
  - apply Permutation_trans with (l' := x :: m).
    + now constructor.
    + apply Permutation_cons_append.
Qed.

Lemma perm_push_failure (s f m : list string) (x : string) :
  Permutation (s ++ f) m -> Permutation (s ++ f ++ [x]) (m ++ [x]).
Proof.
  intros H. rewrite app_assoc. now apply Permutation_app_tail.
Qed.

Lemma checkCdrsItem_account (done : list Transaction) (t : Transaction)
    (r : OCPIJobResult) (w : World) :
  cdrsAccount done r w ->
  exists r' w',
    checkCdrsItem env cl r t w = (Ok r', w')
    /\ cdrsAccount (done ++ [t]) r' w'.
Proof.
  intros (T & S & LS & LF & LL & P).
  unfold checkCdrsItem, bind, tryCatch, onObj, ret.
  assert (H := checkCdr_returns env cl t w).
  destruct (checkCdr env cl (t, w)) as [[[|]|e|] [t' w']]; cbn [fst] in H;
    try contradiction;
    (do 2 eexists; split; [reflexivity|]; unfold cdrsAccount;
     cbn [total success failure logs objectIDsInSuccess objectIDsInFailure
          incTotal incSuccess incFailure pushLog pushObjectIDInSuccess
          pushObjectIDInFailure];
     rewrite !length_app, map_app; cbn [List.length map];
     repeat split; try lia).
  - now apply perm_push_success.
  - now apply perm_push_failure.
  - now apply perm_push_failure.
Qed.

(** X10.  [checkCdrs] accounts for every unchecked transaction exactly
    once: [total] is their number, each one is either a success or a
    failure, its id lands in exactly one of the two id lists, whose lengths
    are the two counters, and there is at most one log line per failure (a
    CDR that was resubmitted fails without a log line). *)
Theorem checkCdrs_accounts_for_every_transaction (w : World) :
  let transactions :=
    getTransactions env
      {| issuer := true; ocpiCdrChecked := Some false;
         ocpiSessionChecked := None |} in
  exists r w',
    checkCdrs env cl w = (Ok r, w')
    /\ total r = List.length transactions
    /\ success r + failure r = total r
    /\ List.length (objectIDsInSuccess r) = success r
    /\ List.length (objectIDsInFailure r) = failure r
    /\ List.length (logs r) <= failure r
    /\ Permutation (objectIDsInSuccess r ++ objectIDsInFailure r)
         (map (fun t => showZ (tx_id t)) transactions).
Proof.
  cbv zeta. unfold checkCdrs.
  destruct (forEach_invariant (checkCdrsItem env cl) cdrsAccount
              checkCdrsItem_account
              (getTransactions env
                 {| issuer := true; ocpiCdrChecked := Some false;
                    ocpiSessionChecked := None |})
              [] emptyJobResult w)
    as (r & w' & E & T & S & LS & LF & LL & P).
  { unfold cdrsAccount. cbn. repeat split; try lia. constructor. }
  cbn [app] in *. exists r, w'. repeat split; try assumption. lia.
Qed.

Lemma checkSessionsItem_account (w0 : World) (done : list Transaction)
    (t : Transaction) (r : OCPIJobResult) (w : World) :
  sessionsAccount cl w0 done r w ->
  exists r' w',
    checkSessionsItem env cl r t w = (Ok r', w')
    /\ sessionsAccount cl w0 (done ++ [t]) r' w'.
Proof.
  intros (T & Sc & LS & LF & LL & P & H).
  unfold checkSessionsItem, bind, tryCatch, onObj, ret, sessionsAccount.
  rewrite filter_app, flat_map_app. cbn [filter flat_map].
  unfold sessionCheckRequests at 2.
  assert (Hdone : forall r' w',
    total r' = S (total r) ->
    (success r' = S (success r) /\ failure r' = failure r
     /\ objectIDsInSuccess r' = objectIDsInSuccess r ++ [showZ (tx_id t)]
     /\ objectIDsInFailure r' = objectIDsInFailure r
     /\ logs r' = logs r)
    \/ (success r' = success r /\ failure r' = S (failure r)
        /\ objectIDsInSuccess r' = objectIDsInSuccess r
        /\ objectIDsInFailure r' = objectIDsInFailure r ++ [showZ (tx_id t)]
        /\ exists line, logs r' = logs r ++ [line]) ->
    forall extra,
    httpRequests (trace w') = httpRequests (trace w) ++ extra ->
    total r' = List.length (done ++ [t])
    /\ success r' + failure r'
       = List.length (filter stoppedAt done ++ [t])
    /\ List.length (objectIDsInSuccess r') = success r'
    /\ List.length (objectIDsInFailure r') = failure r'
    /\ List.length (logs r') = failure r'
    /\ Permutation (objectIDsInSuccess r' ++ objectIDsInFailure r')
         (map (fun t => showZ (tx_id t)) (filter stoppedAt done ++ [t]))
    /\ httpRequests (trace w')
       = httpRequests (trace w0)
         ++ flat_map (sessionCheckRequests cl) done ++ extra ++ []).
  { intros r' w' Ht Hcase extra Hreq.
    rewrite Hreq, H, app_nil_r, <- app_assoc, !length_app, map_app.
    cbn [List.length map].
    destruct Hcase as [(A & B & C & D & E) | (A & B & C & D & line & E)];
      rewrite A, B, C, D, E, ?length_app; cbn [List.length];
      repeat split; try lia.
    - now apply perm_push_success.
    - now apply perm_push_failure. }
  destruct (stoppedAt t) eqn:Hst.
  - destruct (sessionOf t) as [s|] eqn:Hs.
    + rewrite (checkSession_run env cl t s w Hs). cbv zeta.
      destruct (remote env (trace w) _) as [resp|d].
      * destruct ((resp_status resp =? 200)%Z && isSome (resp_data resp));
          [destruct (dataOf resp)|];
          (do 2 eexists; split; [reflexivity|];
           apply Hdone;
           [reflexivity
           | first [left; repeat split; reflexivity
                   | right; repeat split; eexists; reflexivity]
           | cbn [trace emit]; rewrite !httpRequests_app;
             cbn [httpRequests]; rewrite <- ?app_assoc; reflexivity]).
      * do 2 eexists; split; [reflexivity|].
        apply Hdone;
          [reflexivity
          | right; repeat split; eexists; reflexivity
          | cbn [trace emit]; rewrite !httpRequests_app;
            cbn [httpRequests]; reflexivity].
    + unfold checkSession, bind, getObj, throw. rewrite Hs.
      do 2 eexists; split; [reflexivity|].
      apply Hdone;
        [reflexivity
        | right; repeat split; eexists; reflexivity
        | now rewrite app_nil_r].
  - do 2 eexists; split; [reflexivity|].
    cbn [total success failure logs objectIDsInSuccess objectIDsInFailure
         incTotal].
    rewrite !length_app, !app_nil_r. cbn [List.length].
    repeat split; try lia; assumption.
Qed.

(** X11.  [checkSessions] counts every unchecked transaction in [total] but
    checks only those that are stopped with a stop time: it sends one GET
    for each stopped transaction that has a session, in order, and no other
    request; [success + failure] is the number of stopped transactions, the
    ids of those and only those are spread over the two id lists, and every
    failure has its log line. *)
Theorem checkSessions_checks_only_stopped_transactions (w : World) :
  let transactions :=
    getTransactions env
      {| issuer := true; ocpiCdrChecked := None;
         ocpiSessionChecked := Some false |} in
  exists r w',
    checkSessions env cl w = (Ok r, w')
    /\ total r = List.length transactions
    /\ success r + failure r = List.length (filter stoppedAt transactions)
    /\ List.length (objectIDsInSuccess r) = success r
    /\ List.length (objectIDsInFailure r) = failure r
    /\ List.length (logs r) = failure r
    /\ Permutation (objectIDsInSuccess r ++ objectIDsInFailure r)
         (map (fun t => showZ (tx_id t)) (filter stoppedAt transactions))
    /\ httpRequests (trace w')
       = httpRequests (trace w) ++ flat_map (sessionCheckRequests cl) transactions.
Proof.
  cbv zeta. unfold checkSessions.
  destruct (forEach_invariant (checkSessionsItem env cl) (sessionsAccount cl w)
              (checkSessionsItem_account w)
              (getTransactions env
                 {| issuer := true; ocpiCdrChecked := None;
                    ocpiSessionChecked := Some false |})
              [] emptyJobResult w)
    as (r & w' & E & T & S & LS & LF & LL & P & H).
  { unfold sessionsAccount. cbn. rewrite app_nil_r.
    repeat split; try lia. constructor. }
  cbn [app] in *. exists r, w'. repeat split; assumption.
Qed.

End SweepAccounts.

(** ** The location sweep *)

Section LocationSweep.

Variable env : Env.
Variable cl : Client.

Lemma onlyReads_app (a b : list Event) :
  onlyReads a -> onlyReads b -> onlyReads (a ++ b).
Proof. unfold onlyReads. intros Ha Hb. now rewrite forallb_app, Ha, Hb. Qed.

(** One check: one GET, and nothing else, whatever the answer. *)
Lemma checkLocation_reads (loc : OCPILocation) (w : World) :
  exists out,
    snd (checkLocation env cl loc w)
    = emit (EHttp (locationCheckRequest cl loc) out) w.
Proof.
  unfold checkLocation, bind, tryCatch, axiosGet, axios, handleAxiosError,
    throw, ret, locationCheckRequest.
  destruct (remote env (trace w) _) as [r|d]; [|eexists; reflexivity].
  destruct ((resp_status r =? 200)%Z && isSome (resp_data r));
    [destruct (dataOf r)|]; eexists; reflexivity.
Qed.

(** A check never answers [false]: it confirms or raises. *)
Lemma checkLocation_never_false (loc : OCPILocation) (w : World) :
  fst (checkLocation env cl loc w) <> Ok false.
Proof.
  unfold checkLocation, bind, tryCatch, axiosGet, axios, handleAxiosError,
    throw, ret.
  destruct (remote env (trace w) _) as [r|d]; [|discriminate].
  destruct ((resp_status r =? 200)%Z && isSome (resp_data r));
    [destruct (dataOf r)|]; discriminate.
Qed.

Lemma checkLocationsItem_account (w0 : World)
    (done : list (option OCPILocation)) (entry : option OCPILocation)
    (r : OCPIJobResult) (w : World) :
  locationsAccount cl w0 done r w ->
  exists r' w',
    checkLocationsItem env cl r entry w = (Ok r', w')
    /\ locationsAccount cl w0 (done ++ [entry]) r' w'.
Proof.
  intros (T & Sc & LS & LF & LL & P & evs & X & R & H).
  unfold locationsAccount, presentLocations.
  rewrite flat_map_app. fold (presentLocations done). cbn [flat_map].
  destruct entry as [loc|].
  2: { unfold checkLocationsItem, bind, ret. do 2 eexists.
       split; [reflexivity|].
       cbn [total success failure logs objectIDsInSuccess objectIDsInFailure
            incTotal].
       rewrite !app_nil_r, length_app. cbn [List.length].
       repeat split; try lia; try assumption.
       exists evs. auto. }
  destruct (checkLocation_reads loc w) as (out & Hw).
  assert (Hreads : exists evs',
            Ext w0 (emit (EHttp (locationCheckRequest cl loc) out) w) evs'
            /\ onlyReads evs'
            /\ httpRequests evs'
               = map (locationCheckRequest cl)
                   (presentLocations done ++ [loc] ++ [])).
  { exists (evs ++ [EHttp (locationCheckRequest cl loc) out]).
    split; [exact (Ext_trans _ _ _ _ _ X (Ext_emit _ _))|].
    split; [apply onlyReads_app; [exact R | reflexivity]|].
    rewrite httpRequests_app, H, map_app. reflexivity. }
  unfold checkLocationsItem, bind, tryCatch, ret.
  assert (Hret := checkLocation_returns env cl loc w).
  assert (Hno := checkLocation_never_false loc w).
  destruct (checkLocation env cl loc w) as [[[|]|e|] w'];
    cbn [fst snd] in Hret, Hno, Hw; try contradiction; subst w';
    (do 2 eexists; split; [reflexivity|];
     cbn [total success failure logs objectIDsInSuccess objectIDsInFailure
          incTotal incSuccess incFailure pushLog pushObjectIDInSuccess
          pushObjectIDInFailure];
     rewrite !length_app, map_app; cbn [List.length map app];
     repeat split; try lia; try exact Hreads).
  - now apply perm_push_success.
  - now apply perm_push_failure.
Qed.

(** X22.  [checkLocations] only reads: over a run it sends one GET per
    location of the list, in order, and does nothing else (no save, no
    notification, no lease).  Every entry is counted in [total]; every
    location is a success or a failure, with its id in exactly one of the
    two id lists and one log line per failure; an empty entry is counted
    and nothing more. *)
Theorem checkLocations_only_reads (w : World) :
  let locations := presentLocations (getAllLocations env) in
  exists r w' evs,
    checkLocations env cl w = (Ok r, w')
    /\ Ext w w' evs
    /\ onlyReads evs
    /\ httpRequests evs = map (locationCheckRequest cl) locations
    /\ total r = List.length (getAllLocations env)
    /\ success r + failure r = List.length locations
    /\ List.length (objectIDsInSuccess r) = success r
    /\ List.length (objectIDsInFailure r) = failure r
    /\ List.length (logs r) = failure r
    /\ Permutation (objectIDsInSuccess r ++ objectIDsInFailure r)
         (map loc_id locations).
Proof.
  cbv zeta. unfold checkLocations.
  destruct (forEach_invariant (checkLocationsItem env cl)
              (locationsAccount cl w)
              (checkLocationsItem_account w)
              (getAllLocations env) [] emptyJobResult w)
    as (r & w' & E & T & Sc & LS & LF & LL & P & evs & X & R & H).
  { unfold locationsAccount. cbn. repeat split; try lia; [constructor|].
    exists []. split; [apply Ext_refl | split; reflexivity]. }
  cbn [app] in *. exists r, w', evs. repeat split; try assumption.
  all: try apply X.
Qed.

End LocationSweep.

(** ** Status broadcast: what a run leaves behind *)

Section BroadcastAccounts.

Variable env : Env.
Variable cl : Client.

Lemma notifications_app (a b : list Event) :
  notifications (a ++ b) = notifications a ++ notifications b.
Proof.
  induction a as [|e a IH]; [reflexivity|].
  destruct e; cbn; rewrite IH; reflexivity.
Qed.

Lemma broadcastAccount_start (w : World) :
  broadcastAccount w emptyJobResult w.
Proof. unfold broadcastAccount. cbn. repeat split; lia. Qed.

Lemma sendEVSEStatus_account (w0 : World) (full : bool)
    (cands : list string) (loc : OCPILocation) (r : OCPIJobResult)
    (evse : OCPIEvse) (w : World) :
  broadcastAccount w0 r w ->
  exists r' w',
    sendEVSEStatus env cl full cands loc r evse w = (Ok r', w')
    /\ broadcastAccount w0 r' w'.
Proof.
  intros (LS & LF & LL & HR & NM & N0 & N1).
  assert (Hskip : exists r' w',
            ret (incTotal r) w = (Ok r', w') /\ broadcastAccount w0 r' w').
  { do 2 eexists. split; [reflexivity|]. unfold broadcastAccount.
    cbn [incTotal success failure logs chargeBoxIDsInSuccess
         chargeBoxIDsInFailure]. auto 10. }
  unfold sendEVSEStatus.
  destruct (negb full && negb (includes cands (chargeBoxId evse)));
    [exact Hskip|].
  destruct (truthy (loc_id loc)) eqn:Hl; cbn [andb]; [|exact Hskip].
  destruct (truthy (evse_uid evse)) eqn:Hu; [|exact Hskip].
  unfold bind, tryCatch, patchEVSEStatus. rewrite Hl, Hu.
  cbn [negb orb truthyStatus].
  unfold bind, tryCatch, axiosSend, axios, handleAxiosError, throw, ret,
    sendOCPIPatchChargingStationsStatusesError.
  destruct (remote env (trace w) _) as [resp|d].
  - destruct (isSome (resp_data resp)); cbn [negb].
    + cbn [failure pushLog pushChargeBoxIDInSuccess incSuccess incTotal].
      destruct (0 <? failure r) eqn:Hf;
        (do 2 eexists; split; [reflexivity|]; unfold broadcastAccount;
         cbn [trace emit success failure logs chargeBoxIDsInSuccess
              chargeBoxIDsInFailure pushLog pushChargeBoxIDInSuccess
              incSuccess incTotal];
         rewrite ?httpRequests_app, ?notifications_app, !length_app;
         cbn [httpRequests notifications List.length app];
         rewrite ?app_nil_r, ?length_app; cbn [List.length]).
      * apply Nat.ltb_lt in Hf. repeat split; try lia.
      * apply Nat.ltb_ge in Hf. repeat split; try lia.
        intros _. apply N0. lia.
    + do 2 eexists; split; [reflexivity|]; unfold broadcastAccount;
        cbn [trace emit success failure logs chargeBoxIDsInSuccess
             chargeBoxIDsInFailure pushLog pushChargeBoxIDInFailure
             incFailure incTotal];
        rewrite ?httpRequests_app, ?notifications_app, !length_app;
        cbn [httpRequests notifications List.length app];
        rewrite ?app_nil_r, ?length_app; cbn [List.length].
      repeat split; try lia.
  - do 2 eexists; split; [reflexivity|]; unfold broadcastAccount;
      cbn [trace emit success failure logs chargeBoxIDsInSuccess
           chargeBoxIDsInFailure pushLog pushChargeBoxIDInFailure
           incFailure incTotal];
      rewrite ?httpRequests_app, ?notifications_app, !length_app;
      cbn [httpRequests notifications List.length app];
      rewrite ?app_nil_r, ?length_app; cbn [List.length].
    repeat split; try lia.
Qed.

Lemma sendLocationStatuses_account (w0 : World) (full : bool)
    (cands : list string) (entry : option OCPILocation)
    (r : OCPIJobResult) (w : World) :
  broadcastAccount w0 r w ->
  exists r' w',
    sendLocationStatuses env cl full cands r entry w = (Ok r', w')
    /\ broadcastAccount w0 r' w'.
Proof.
  intros HI. unfold sendLocationStatuses.
  destruct entry as [loc|]; [|exists r, w; split; [reflexivity | exact HI]].
  destruct (evses loc) as [list|];
    [|exists r, w; split; [reflexivity | exact HI]].
  destruct (forEach_invariant (sendEVSEStatus env cl full cands loc)
              (fun _ => broadcastAccount w0)
              (fun _ x r0 w1 => sendEVSEStatus_account w0 full cands loc r0 x w1)
              list [] r w HI) as (r' & w' & E & H).
  exists r', w'. auto.
Qed.

(** [sendEVSEStatuses] in terms of its sweep. *)
Lemma sendEVSEStatuses_saved (full : bool) (ep : OCPIEndpoint) (w : World) :
  exists r w1,
    forEach (getAllLocations env) emptyJobResult
      (sendLocationStatuses env cl full
         (if full then [] else deltaCandidates env ep w)) w
    = (Ok r, w1)
    /\ broadcastAccount w r w1
    /\ let saved :=
         setLastPatchJob ep (clock env (trace w))
           {| successNbr := success r;
              failureNbr := failure r;
              totalNbr := total r;
              last_chargeBoxIDsInFailure :=
                Some (uniq (chargeBoxIDsInFailure r));
              last_chargeBoxIDsInSuccess :=
                uniq (chargeBoxIDsInSuccess r) |} in
       sendEVSEStatuses env cl full (ep, w)
       = (Ok r, (saved, emit (ESaveOcpiEndpoint saved) w1)).
Proof.
  destruct (forEach_invariant
              (sendLocationStatuses env cl full
                 (if full then [] else deltaCandidates env ep w))
              (fun _ => broadcastAccount w)
              (fun _ x r0 w1 =>
                 sendLocationStatuses_account w full _ x r0 w1)
              (getAllLocations env) [] emptyJobResult w
              (broadcastAccount_start w)) as (r & w1 & E & H).
  exists r, w1. split; [exact E|]. split; [exact H|]. cbv zeta.
  unfold sendEVSEStatuses.
  unfold bind at 1. unfold lift at 1, newDate at 1.
  unfold bind at 1. rewrite chargeBoxIDsToProcess_run.
  unfold bind at 1. unfold lift at 1. rewrite E.
  reflexivity.
Qed.

(** X12.  A run of [sendEVSEStatuses] ends by saving the endpoint it has
    updated: [lastPatchJobOn] is the time the run started, not the time it
    ended, [lastPatchJobResult] carries the three counters of the run and
    its two charge point lists without duplicates, and the endpoint is
    otherwise unchanged.  In the result every patch that was sent counts as
    one success or one failure, with one charge point id and one log line
    each. *)
Theorem sendEVSEStatuses_saves_its_account (full : bool) (ep : OCPIEndpoint)
    (w : World) :
  exists r saved w1,
    sendEVSEStatuses env cl full (ep, w)
    = (Ok r, (saved, emit (ESaveOcpiEndpoint saved) w1))
    /\ lastPatchJobOn saved = Some (clock env (trace w))
    /\ lastPatchJobResult saved
       = Some {| successNbr := success r;
                 failureNbr := failure r;
                 totalNbr := total r;
                 last_chargeBoxIDsInFailure :=
                   Some (uniq (chargeBoxIDsInFailure r));
                 last_chargeBoxIDsInSuccess :=
                   uniq (chargeBoxIDsInSuccess r) |}
    /\ (ep_id saved, ep_name saved, ep_role saved, ep_status saved,
        backgroundPatchJob saved, ep_token saved)
       = (ep_id ep, ep_name ep, ep_role ep, ep_status ep,
          backgroundPatchJob ep, ep_token ep)
    /\ List.length (chargeBoxIDsInSuccess r) = success r
    /\ List.length (chargeBoxIDsInFailure r) = failure r
    /\ List.length (logs r) = success r + failure r
    /\ success r + failure r
       = List.length
           (filter
              (fun p => inScope full (deltaCandidates env ep w) p
                        && patchable p)
              (allEvses (getAllLocations env))).
Proof.
  destruct (sendEVSEStatuses_saved full ep w)
    as (r & w1 & E & (LS & LF & LL & HR & _) & Hrun).
  cbv zeta in Hrun.
  eexists r, _, w1. split; [exact Hrun|].
  split; [reflexivity|]. split; [reflexivity|]. split; [reflexivity|].
  split; [exact LS|]. split; [exact LF|]. split; [exact LL|].
  destruct (sendEVSEStatuses_run env cl full ep w)
    as (r' & ep' & w' & evs & E' & [Xt _] & Hreq & _).
  rewrite Hrun in E'. injection E' as <- _ <-.
  cbn [trace emit] in Xt.
  assert (Hlen := f_equal (fun tr => List.length (httpRequests tr)) Xt).
  cbn beta in Hlen.
  rewrite !httpRequests_app, !length_app, Hreq, length_map in Hlen.
  cbn [httpRequests List.length] in Hlen. lia.
Qed.

(** X13.  The operators are notified exactly when a patch has failed: a
    run without failure sends no notification, and a run with a failure
    sends at least one. *)
Theorem sendEVSEStatuses_notifies_iff_failure (full : bool)
    (ep : OCPIEndpoint) (w : World) :
  exists r s',
    sendEVSEStatuses env cl full (ep, w) = (Ok r, s')
    /\ (failure r = 0
        <-> notifications (trace (snd s')) = notifications (trace w)).
Proof.
  destruct (sendEVSEStatuses_saved full ep w)
    as (r & w1 & E & (_ & _ & _ & _ & NM & N0 & N1) & Hrun).
  cbv zeta in Hrun. do 2 eexists. split; [exact Hrun|].
  cbn [snd trace emit]. rewrite notifications_app. cbn [notifications].
  rewrite app_nil_r. split; [exact N0|].
  intros H. destruct (failure r) as [|n]; [reflexivity|].
  assert (Hlt := N1 (Nat.lt_0_succ n)). rewrite H in Hlt. lia.
Qed.

(** X14.  Two runs compose: after any run, a delta run that follows takes as
    candidates every charge point on which a patch failed in the first run
    and every charge point notified since the first run started, so it
    patches again each patchable EVSE of those charge points. *)
Theorem next_delta_run_retries_failures (full : bool) (ep : OCPIEndpoint)
    (w : World) :
  exists r saved w',
    sendEVSEStatuses env cl full (ep, w) = (Ok r, (saved, w'))
    /\ (forall x, In x (chargeBoxIDsInFailure r) ->
                  In x (deltaCandidates env saved w'))
    /\ (forall n, In n (statusNotifications env) ->
                  (clock env (trace w) <= sn_timestamp n)%Z ->
                  In (sn_chargeBoxID n) (deltaCandidates env saved w'))
    /\ (forall p,
          In p (allEvses (getAllLocations env)) ->
          patchable p = true ->
          In (chargeBoxId (snd p)) (chargeBoxIDsInFailure r) ->
          In (patchRequest cl p)
            (skipn (List.length (httpRequests (trace w')))
               (httpRequests
                  (trace (snd (snd (sendEVSEStatuses env cl false
                                      (saved, w')))))))).
Proof.
  destruct (sendEVSEStatuses_saved full ep w) as (r & w1 & E & _ & Hrun).
  cbv zeta in Hrun. do 3 eexists. split; [exact Hrun|].
  match goal with
  | |- context [deltaCandidates env ?s ?w2] =>
      set (w' := w2); set (saved := s)
  end.
  assert (Hfail : forall x, In x (chargeBoxIDsInFailure r) ->
                            In x (deltaCandidates env saved w')).
  { intros x Hx. apply deltaCandidates_spec. left.
    unfold getChargeBoxIDsInFailure. cbn. now apply In_uniq. }
  split; [exact Hfail|]. split.
  - intros n Hn Hts. apply deltaCandidates_spec. right. exists n.
    repeat split; assumption.
  - intros p Hp Hpatch Hin.
    destruct (sendEVSEStatuses_run env cl false saved w')
      as (r2 & ep2 & w2 & evs & E2 & [Xt _] & Hreq & _).
    rewrite E2. cbn [snd]. rewrite Xt, httpRequests_app.
    rewrite skipn_app, skipn_all, Nat.sub_diag. cbn [app skipn].
    rewrite Hreq. apply in_map. apply filter_In. split; [exact Hp|].
    rewrite Hpatch, andb_true_r. unfold inScope. cbn [orb].
    apply includes_In. exact (Hfail _ Hin).
Qed.

End BroadcastAccounts.

(** ** Token pull: pages that fail and pages that never end *)

Section TokenPullEdges.

Variable env : Env.
Variable cl : Client.

(** One served page that links onward: its tokens are upserted and the loop
    goes on at the next URL with one unit of fuel less. *)
Lemma pullTokensLoop_onward (fuel : nat) (u n : string)
    (tokens : list OCPIToken) (r : OCPIJobResult) (w : World)
    (resp : Response) :
  remote env (trace w) (getRequest cl u) = Completed resp ->
  resp_status resp = 200%Z ->
  dataOf resp = Some (DArray tokens) ->
  getNextUrl env (link resp) = Some n ->
  n <> "" -> n <> u ->
  exists r1 w1 evs1,
    Ext w w1 evs1
    /\ steps evs1 = Fetch (getRequest cl u) :: map Upsert tokens
    /\ pullTokensLoop env cl (S fuel) u r w
       = pullTokensLoop env cl fuel n r1 w1.
Proof.
  intros Hresp Hstatus Hdata Hnext Hne Hdiff.
  cbn [pullTokensLoop].
  unfold bind at 1. unfold tryCatch, axiosGet, axios. rewrite Hresp.
  rewrite Hstatus, (dataOf_has_body resp) by congruence.
  cbn [Z.eqb Pos.eqb negb orb]. rewrite Hdata.
  unfold bind at 1.
  destruct (pullTokens_page_spec env tokens r
              (emit (EHttp (getRequest cl u) (Completed resp)) w))
    as (r1 & w1 & evs1 & E1 & X1 & S1 & _).
  rewrite E1, Hnext, (hasNextPage_true _ _ Hne Hdiff).
  exists r1, w1, ([EHttp (getRequest cl u) (Completed resp)] ++ evs1).
  split; [exact (Ext_trans _ _ _ _ _ (Ext_emit _ w) X1)|].
  split; [rewrite steps_app, S1; reflexivity | reflexivity].
Qed.

(** X15.  The guard of the pagination loop compares the next link with the
    current page only: on a partner whose pages keep linking onward to a
    page other than themselves, as two pages that link to each other do,
    [pullTokens] never returns; it runs out of any fuel. *)
Theorem pullTokens_never_returns_on_endless_pages (endless : string -> Prop)
    (partial : bool) (w : World) :
  (forall u tr,
     endless u ->
     exists resp tokens n,
       remote env tr (getRequest cl u) = Completed resp
       /\ resp_status resp = 200%Z
       /\ dataOf resp = Some (DArray tokens)
       /\ getNextUrl env (link resp) = Some n
       /\ n <> "" /\ n <> u /\ endless n) ->
  endless (initialTokensUrl env cl partial (clock env (trace w))) ->
  forall fuel, fst (pullTokens env cl fuel partial w) = OutOfFuel.
Proof.
  intros Hserve Hstart fuel.
  assert (Hloop : forall u r w0,
            endless u -> fst (pullTokensLoop env cl fuel u r w0) = OutOfFuel).
  { induction fuel as [|fuel IH]; intros u r w0 Hu; [reflexivity|].
    destruct (Hserve u (trace w0) Hu)
      as (resp & tokens & n & Hresp & Hst & Hd & Hn & Hne & Hdiff & Hend).
    destruct (pullTokensLoop_onward fuel u n tokens r w0 resp
                Hresp Hst Hd Hn Hne Hdiff) as (r1 & w1 & evs1 & _ & _ & E).
    rewrite E. exact (IH n r1 w1 Hend). }
  unfold pullTokens, bind, newDate. exact (Hloop _ _ _ Hstart).
Qed.

(** The loop along pages that lead to a URL the partner fails on. *)
Lemma pullTokensLoop_fails_later (pages : list Page) (bad detail : string) :
  (forall tr, remote env tr (getRequest cl bad) = Failed detail) ->
  forall (u : string) (fuel : nat) (r : OCPIJobResult) (w : World),
  Forall (servesPage env cl) pages ->
  leadsTo u pages bad ->
  List.length pages < fuel ->
  exists w' evs,
    pullTokensLoop env cl fuel u r w
    = (Raise (RemoteProtocolError OCPI_PULL_TOKENS "pullTokens" bad detail),
       w')
    /\ Ext w w' evs
    /\ steps evs
       = flat_map (pageSteps cl) pages ++ [Fetch (getRequest cl bad)].
Proof.
  intros Hbad.
  induction pages as [|p rest IH]; intros u fuel r w Hs Hl Hfuel;
    (destruct fuel as [|fuel]; [cbn in Hfuel; lia|]).
  - cbn in Hl. subst u. cbn [pullTokensLoop].
    unfold bind at 1.
    unfold tryCatch, axiosGet, axios, handleAxiosError, throw.
    rewrite Hbad. cbn [errorMessage].
    do 2 eexists. split; [reflexivity|]. split; [apply Ext_emit|].
    reflexivity.
  - cbn [leadsTo] in Hl. destruct Hl as (Hu & n & Hn & Hne & Hdiff & Hl).
    subst u. inversion Hs as [|? ? Hp Hrest]; subst.
    destruct (Hp (trace w)) as (resp & Hresp & Hst & Hd & Hnext).
    rewrite Hn in Hnext.
    destruct (pullTokensLoop_onward fuel (page_url p) n (page_tokens p) r w
                resp Hresp Hst Hd Hnext Hne Hdiff)
      as (r1 & w1 & evs1 & X1 & S1 & E).
    rewrite E.
    destruct (IH n fuel r1 w1 Hrest Hl) as (w' & evs & E' & X' & S');
      [cbn in Hfuel; lia|].
    exists w', (evs1 ++ evs). split; [exact E'|].
    split; [exact (Ext_trans _ _ _ _ _ X1 X')|].
    rewrite steps_app, S1, S'. cbn [flat_map pageSteps].
    now rewrite <- app_assoc.
Qed.

(** X16.  A page that cannot be fetched aborts the whole pull: when the
    pages served lead to a URL on which the transport fails, [pullTokens]
    raises the transport error of that URL instead of returning a job
    result, after it has fetched every earlier page and upserted all their
    tokens, which stay upserted. *)
Theorem pullTokens_aborts_on_page_failure (partial : bool)
    (pages : list Page) (bad detail : string) (fuel : nat) (w : World) :
  (forall tr, remote env tr (getRequest cl bad) = Failed detail) ->
  Forall (servesPage env cl) pages ->
  leadsTo (initialTokensUrl env cl partial (clock env (trace w))) pages bad ->
  List.length pages < fuel ->
  exists w' evs,
    pullTokens env cl fuel partial w
    = (Raise (RemoteProtocolError OCPI_PULL_TOKENS "pullTokens" bad detail),
       w')
    /\ Ext w w' evs
    /\ steps evs
       = flat_map (pageSteps cl) pages ++ [Fetch (getRequest cl bad)].
Proof.
  intros Hbad Hs Hl Hfuel. unfold pullTokens, bind, newDate.
  exact (pullTokensLoop_fails_later pages bad detail Hbad _ fuel
           emptyJobResult w Hs Hl Hfuel).
Qed.

Lemma momentFrom_div (now : Z) :
  momentFrom now = (DAY_MS * (now / DAY_MS - 1))%Z.
Proof.
  unfold momentFrom, startOfDay, DAY_MS.
  assert (H := Z.div_mod (now - 86400000) 86400000).
  assert (H1 : ((now - 86400000) / 86400000 = now / 86400000 - 1)%Z).
  { replace (now - 86400000)%Z with (now + (-1) * 86400000)%Z by lia.
    rewrite Z.div_add by lia. lia. }
  rewrite H1 in H. lia.
Qed.

(** X17.  The window of a partial pull moves once a day: two calls made on
    the same UTC day ask for the tokens changed since the same date and so
    start at the same URL, and a later call never asks for an earlier
    date. *)
Theorem partial_pull_window_is_per_day (a b : Z) :
  ((a / DAY_MS = b / DAY_MS)%Z ->
   momentFrom a = momentFrom b
   /\ initialTokensUrl env cl true a = initialTokensUrl env cl true b)
  /\ ((a <= b)%Z -> (momentFrom a <= momentFrom b)%Z).
Proof.
  split.
  - intros H.
    assert (E : momentFrom a = momentFrom b)
      by (now rewrite !momentFrom_div, H).
    split; [exact E|]. unfold initialTokensUrl. now rewrite E.
  - intros H. rewrite !momentFrom_div.
    assert (Hd : (a / DAY_MS <= b / DAY_MS)%Z)
      by (apply Z.div_le_mono; [reflexivity | exact H]).
    unfold DAY_MS in *. lia.
Qed.

End TokenPullEdges.

(** ** The jobs in sequence *)

Section TriggeredJobs.

Variable env : Env.
Variable cl : Client.

Lemma checkCdr_ext (t : Transaction) (w : World) :
  exists evs,
    Ext w (snd (snd (checkCdr env cl (t, w)))) evs /\ quiet evs.
Proof.
  destruct (cdrOf t) as [c|] eqn:Hc.
  - rewrite (checkCdr_run env cl t c w Hc). cbv zeta.
    destruct (remote env (trace w) _) as [r|d];
      [|eexists; split; [apply Ext_emit | reflexivity]].
    destruct ((resp_status r =? 200)%Z && isSome (resp_data r));
      [|eexists; split; [apply Ext_emit | reflexivity]].
    destruct (statusCodeIs r 3001).
    + destruct (remote env _ _);
        (eexists; split;
         [eapply Ext_trans; [apply Ext_emit | apply Ext_emit] | reflexivity]).
    + destruct (dataOf r);
        [eexists; split;
         [eapply Ext_trans; [apply Ext_emit | apply Ext_emit] | reflexivity]
        | eexists; split; [apply Ext_emit | reflexivity]].
  - unfold checkCdr, bind, getObj, throw. rewrite Hc.
    exists []. split; [apply Ext_refl | reflexivity].
Qed.

Lemma checkSession_ext (t : Transaction) (w : World) :
  exists evs,
    Ext w (snd (snd (checkSession env cl (t, w)))) evs /\ quiet evs.
Proof.
  destruct (sessionOf t) as [s|] eqn:Hs.
  - rewrite (checkSession_run env cl t s w Hs). cbv zeta.
    destruct (remote env (trace w) _) as [r|d];
      [|eexists; split; [apply Ext_emit | reflexivity]].
    destruct ((resp_status r =? 200)%Z && isSome (resp_data r));
      [|eexists; split; [apply Ext_emit | reflexivity]].
    destruct (dataOf r);
      [eexists; split;
       [eapply Ext_trans; [apply Ext_emit | apply Ext_emit] | reflexivity]
      | eexists; split; [apply Ext_emit | reflexivity]].
  - unfold checkSession, bind, getObj, throw. rewrite Hs.
    exists []. split; [apply Ext_refl | reflexivity].
Qed.

Lemma quiet_app (a b : list Event) : quiet a -> quiet b -> quiet (a ++ b).
Proof. unfold quiet. intros Ha Hb. now rewrite forallb_app, Ha, Hb. Qed.

Lemma checkCdrs_ext (w : World) :
  exists r w' evs,
    checkCdrs env cl w = (Ok r, w') /\ Ext w w' evs /\ quiet evs
    /\ total r
       = List.length
           (getTransactions env
              {| issuer := true; ocpiCdrChecked := Some false;
                 ocpiSessionChecked := None |})
    /\ success r + failure r = total r.
Proof.
  unfold checkCdrs.
  destruct (forEach_invariant (checkCdrsItem env cl)
              (fun done r w1 =>
                 (exists evs, Ext w w1 evs /\ quiet evs)
                 /\ total r = List.length done
                 /\ success r + failure r = List.length done))
    with (l := getTransactions env
                 {| issuer := true; ocpiCdrChecked := Some false;
                    ocpiSessionChecked := None |})
         (done := @nil Transaction) (r := emptyJobResult) (w := w)
    as (r & w' & E & (evs & X & Q) & T & Sc).
  - intros done t r w1 ((evs & X & Q) & T & Sc).
    destruct (checkCdr_ext t w1) as (evs1 & X1 & Q1).
    destruct (checkCdrsItem_spec env cl r t w1) as (r' & w' & E & T' & Sc').
    exists r', w'. split; [exact E|].
    split; [|rewrite length_app; cbn [List.length]; lia].
    exists (evs ++ evs1).
    split; [|exact (quiet_app _ _ Q Q1)].
    apply (Ext_trans _ _ _ _ _ X).
    unfold checkCdrsItem, bind, tryCatch, onObj, ret in E.
    destruct (checkCdr env cl (t, w1)) as [[[|]|e|] [t' w2]];
      cbn [snd] in X1; try discriminate;
      injection E as _ <-; exact X1.
  - split; [|split; reflexivity].
    exists []. split; [apply Ext_refl | reflexivity].
  - cbn [app] in *. exists r, w', evs. repeat split; try assumption; try apply X.
    lia.
Qed.

Lemma checkSessions_ext (w : World) :
  exists r w' evs,
    checkSessions env cl w = (Ok r, w') /\ Ext w w' evs /\ quiet evs
    /\ total r
       = List.length
           (getTransactions env
              {| issuer := true; ocpiCdrChecked := None;
                 ocpiSessionChecked := Some false |})
    /\ httpRequests evs
       = flat_map (sessionCheckRequests cl)
           (getTransactions env
              {| issuer := true; ocpiCdrChecked := None;
                 ocpiSessionChecked := Some false |}).
Proof.
  unfold checkSessions.
  destruct (forEach_invariant (checkSessionsItem env cl)
              (fun _ _ w1 => exists evs, Ext w w1 evs /\ quiet evs))
    with (l := getTransactions env
                 {| issuer := true; ocpiCdrChecked := None;
                    ocpiSessionChecked := Some false |})
         (done := @nil Transaction) (r := emptyJobResult) (w := w)
    as (r & w' & E & evs & X & Q).
  - intros done t r w1 (evs & X & Q).
    destruct (checkSession_ext t w1) as (evs1 & X1 & Q1).
    destruct (checkSessionsItem_spec env cl r t w1) as (r' & w' & E & _).
    exists r', w'. split; [exact E|].
    unfold checkSessionsItem, bind, tryCatch, onObj, ret in E.
    destruct (stoppedAt t).
    + exists (evs ++ evs1). split; [|exact (quiet_app _ _ Q Q1)].
      apply (Ext_trans _ _ _ _ _ X).
      destruct (checkSession env cl (t, w1)) as [[[|]|e|] [t' w2]];
        cbn [snd] in X1; try discriminate;
        injection E as _ <-; exact X1.
    + injection E as _ <-. exists evs. auto.
  - exists []. split; [apply Ext_refl | reflexivity].
  - destruct (forEach_invariant (checkSessionsItem env cl)
                (sessionsAccount cl w) (checkSessionsItem_account env cl w)
                (getTransactions env
                   {| issuer := true; ocpiCdrChecked := None;
                      ocpiSessionChecked := Some false |})
                [] emptyJobResult w)
      as (r2 & w2 & E2 & T & _ & _ & _ & _ & _ & H).
    { unfold sessionsAccount. cbn. rewrite app_nil_r.
      repeat split; try lia. constructor. }
    rewrite E in E2. injection E2 as <- <-. cbn [app] in *.
    exists r, w', evs. split; [exact E|]. split; [exact X|].
    split; [exact Q|]. split; [exact T|].
    destruct X as [Xt _]. rewrite Xt, httpRequests_app in H.
    exact (app_inv_head _ _ _ H).
Qed.

(** X18.  [triggerJobs] runs the token pull, the status broadcast, the CDR
    sweep and the session sweep one after the other, each from the world
    the job before it left, and returns their four results.  A token pull
    that raises aborts it: the error is raised with the endpoint untouched
    and no request of the other jobs sent.  When the token pull returns,
    the broadcast that follows is a full run, so every patchable EVSE is
    patched whatever the delta candidates are, and the endpoint is saved
    with the start of that broadcast as [lastPatchJobOn]; then [checkCdrs]
    runs over every transaction whose CDR is unchecked, then
    [checkSessions] over every transaction whose session is unchecked, and
    neither touches the endpoint or a lease. *)
Theorem triggerJobs_runs_the_jobs_in_sequence (fuel : nat)
    (ep : OCPIEndpoint) (w : World) :
  let pulled := pullTokens env cl fuel false w in
  (forall e,
     fst pulled = Raise e ->
     triggerJobs env cl fuel (ep, w) = (Raise e, (ep, snd pulled)))
  /\ (fst pulled = OutOfFuel ->
      triggerJobs env cl fuel (ep, w) = (OutOfFuel, (ep, snd pulled)))
  /\ (forall r,
        fst pulled = Ok r ->
        exists jobs saved w2 w3 w' evs2 evs3 evs4,
          triggerJobs env cl fuel (ep, w) = (Ok jobs, (saved, w'))
          /\ jobs_tokens jobs = r
          /\ sendEVSEStatuses env cl true (ep, snd pulled)
             = (Ok (jobs_locations jobs), (saved, w2))
          /\ checkCdrs env cl w2 = (Ok (jobs_cdrs jobs), w3)
          /\ checkSessions env cl w3 = (Ok (jobs_sessions jobs), w')
          /\ Ext (snd pulled) w2 evs2
          /\ Ext w2 w3 evs3
          /\ Ext w3 w' evs4
          /\ total (jobs_locations jobs)
             = List.length (allEvses (getAllLocations env))
          /\ lastPatchJobOn saved = Some (clock env (trace (snd pulled)))
          /\ httpRequests evs2
             = map (patchRequest cl)
                 (filter patchable (allEvses (getAllLocations env)))
          /\ total (jobs_cdrs jobs)
             = List.length
                 (getTransactions env
                    {| issuer := true; ocpiCdrChecked := Some false;
                       ocpiSessionChecked := None |})
          /\ success (jobs_cdrs jobs) + failure (jobs_cdrs jobs)
             = total (jobs_cdrs jobs)
          /\ total (jobs_sessions jobs)
             = List.length
                 (getTransactions env
                    {| issuer := true; ocpiCdrChecked := None;
                       ocpiSessionChecked := Some false |})
          /\ httpRequests evs4
             = flat_map (sessionCheckRequests cl)
                 (getTransactions env
                    {| issuer := true; ocpiCdrChecked := None;
                       ocpiSessionChecked := Some false |})
          /\ httpRequests (trace w')
             = httpRequests (trace (snd pulled))
               ++ map (patchRequest cl)
                    (filter patchable (allEvses (getAllLocations env)))
               ++ httpRequests evs3 ++ httpRequests evs4
          /\ locks w' = locks (snd pulled)).
Proof.
  cbv zeta. unfold triggerJobs. split; [|split].
  { intros e H. unfold bind at 1. unfold lift at 1.
    destruct (pullTokens env cl fuel false w) as [[r0|e0|] w1];
      cbn [fst snd] in *; try discriminate.
    injection H as <-. reflexivity. }
  { intros H. unfold bind at 1. unfold lift at 1.
    destruct (pullTokens env cl fuel false w) as [[r0|e0|] w1];
      cbn [fst snd] in *; try discriminate.
    reflexivity. }
  intros r H. unfold bind at 1. unfold lift at 1.
  destruct (pullTokens env cl fuel false w) as [[r0|e0|] w1];
    cbn [fst snd] in *; try discriminate.
  injection H as <-.
  destruct (sendEVSEStatuses_saved env cl true ep w1)
    as (r1 & w2 & _ & _ & Hrun).
  cbv zeta in Hrun.
  destruct (sendEVSEStatuses_run env cl true ep w1)
    as (r1' & ep' & w2' & evs & E' & X2 & Hreq & _ & T & _).
  rewrite Hrun in E'. injection E' as <- _ <-.
  unfold bind at 1. rewrite Hrun.
  unfold bind at 1. unfold lift at 1.
  match type of X2 with
  | Ext _ ?w2s _ =>
      destruct (checkCdrs_ext w2s) as (r3 & w3 & evs3 & E3 & X3 & _ & T3 & S3)
  end.
  rewrite E3.
  unfold bind at 1. unfold lift at 1.
  destruct (checkSessions_ext w3) as (r4 & w4 & evs4 & E4 & X4 & _ & T4 & H4).
  rewrite E4. unfold ret.
  do 5 eexists. exists evs, evs3, evs4.
  split; [reflexivity|].
  cbn [jobs_tokens jobs_locations jobs_cdrs jobs_sessions].
  split; [reflexivity|]. split; [reflexivity|].
  split; [exact E3|]. split; [exact E4|].
  split; [exact X2|]. split; [exact X3|]. split; [exact X4|].
  split; [exact T|]. split; [reflexivity|].
  split; [exact Hreq|]. split; [exact T3|]. split; [exact S3|].
  split; [exact T4|]. split; [exact H4|].
  destruct X2 as [X2t X2l], X3 as [X3t X3l], X4 as [X4t X4l].
  split.
  - rewrite X4t, X3t, X2t, !httpRequests_app, Hreq, <- !app_assoc.
    reflexivity.
  - rewrite X4l, X3l. exact X2l.
Qed.

End TriggeredJobs.

(** ** The push-locations task over a tenant *)

Section PushLocationsOverTenant.

Variable env : Env.
Variable isOCPIActive : Tenant -> bool.
Variable getOcpiEndpoints : string -> list OCPIEndpoint.

Lemma quiet_leaseEvents (evs : list Event) :
  quiet evs -> leaseEvents evs = [].
Proof.
  unfold quiet, leaseEvents. induction evs as [|e evs IH]; [reflexivity|].
  cbn. destruct (isLockEvent e); cbn; [discriminate | exact IH].
Qed.

Lemma leaseEvents_app (a b : list Event) :
  leaseEvents (a ++ b) = leaseEvents a ++ leaseEvents b.
Proof. apply filter_app. Qed.

(** One endpoint: the run returns, holds the same leases afterwards, and
    takes and gives back the lease of the endpoint when it was free. *)
Lemma processOCPIEndpoint_balanced (tenant : Tenant) (ep : OCPIEndpoint)
    (config : OCPIPushLocationsTaskConfig) (w : World) :
  exists w' evs,
    processOCPIEndpoint env tenant ep config w = (Ok tt, w')
    /\ Ext w w' evs
    /\ leaseEvents evs
       = if existsb (lockKey_eqb (leaseOf tenant ep)) (locks w) then []
         else [EAcquire (leaseOf tenant ep); ERelease (leaseOf tenant ep)].
Proof.
  unfold processOCPIEndpoint, bind, createOCPIEndpointActionLock.
  fold (leaseOf tenant ep).
  destruct (existsb (lockKey_eqb (leaseOf tenant ep)) (locks w)) eqn:Hheld.
  { exists w, []. split; [reflexivity|]. split; [apply Ext_refl | reflexivity]. }
  set (key := leaseOf tenant ep) in *.
  set (w1 := {| trace := trace w ++ [EAcquire key];
                locks := key :: locks w |}).
  assert (Hjob : forall (job : M World unit) w2 evs,
            fst (job w1) <> OutOfFuel ->
            snd (job w1) = w2 -> Ext w1 w2 evs -> quiet evs ->
            exists w' evs',
              tryFinally (tryCatch job (fun _ => ret tt)) (release key) w1
              = (Ok tt, w')
              /\ Ext w w' evs'
              /\ leaseEvents evs' = [EAcquire key; ERelease key]).
  { intros job w2 evs Hres Hsnd [Xt Xl] Q.
    rewrite (lease_released_whatever_the_job_does job key w1 Hres), Hsnd.
    eexists. exists ([EAcquire key] ++ evs ++ [ERelease key]).
    split; [reflexivity|]. split.
    - split; cbn [trace locks].
      + rewrite Xt. cbn [trace w1]. now rewrite <- !app_assoc.
      + rewrite Xl. cbn [locks w1]. now apply release_restores.
    - rewrite !leaseEvents_app, (quiet_leaseEvents evs Q). reflexivity. }
  destruct (ep_status ep) eqn:Est; cbn [registration_eqb negb].
  1,3: (apply (Hjob (ret tt) w1 []);
        [discriminate | reflexivity | apply Ext_refl | reflexivity]).
  destruct (backgroundPatchJob ep) eqn:Ebg; cbn [negb].
  2: (apply (Hjob (ret tt) w1 []);
      [discriminate | reflexivity | apply Ext_refl | reflexivity]).
  destruct (sendEVSEStatuses_run env (newOCPIClient env tenant ep)
              (match processAllEVSEs config with
               | Some all => all
               | None => false
               end) ep w1)
    as (r & ep' & w2 & evs & E & X & _ & Q & _).
  unfold newCpoOCPIClient.
  destruct (ep_role ep) eqn:Erole; cbn [role_eqb negb].
  - eapply (Hjob _ w2 evs); [| |exact X|exact Q];
      unfold bind, ret, onObj; rewrite E; [discriminate | reflexivity].
  - eapply (Hjob _ w1 []); [| |apply Ext_refl|reflexivity];
      unfold bind, throw; [discriminate | reflexivity].
Qed.

(** X19.  [processTenant] never raises and leaves the leases as it found
    them.  With the OCPI component inactive it does nothing; otherwise it
    handles the endpoints in order, and for each endpoint whose lease is
    free it takes the lease and gives it back before it turns to the next
    endpoint, so that it never holds two leases at once. *)
Theorem processTenant_takes_one_lease_at_a_time (tenant : Tenant)
    (config : OCPIPushLocationsTaskConfig) (w : World) :
  exists w' evs,
    processTenant env isOCPIActive getOcpiEndpoints tenant config w
    = (Ok tt, w')
    /\ Ext w w' evs
    /\ (isOCPIActive tenant = false -> w' = w)
    /\ (isOCPIActive tenant = true ->
        leaseEvents evs
        = flat_map
            (fun ep =>
               if existsb (lockKey_eqb (leaseOf tenant ep)) (locks w) then []
               else [EAcquire (leaseOf tenant ep);
                     ERelease (leaseOf tenant ep)])
            (getOcpiEndpoints (tenant_id tenant))).
Proof.
  unfold processTenant, tryCatch.
  destruct (isOCPIActive tenant).
  2: { exists w, []. split; [reflexivity|]. split; [apply Ext_refl|].
       split; [reflexivity | discriminate]. }
  assert (Hloop : forall l w1 evs1,
    Ext w w1 evs1 ->
    exists w' evs,
      forEach l tt
        (fun _ ocpiEndpoint =>
           processOCPIEndpoint env tenant ocpiEndpoint config) w1
      = (Ok tt, w')
      /\ Ext w w' (evs1 ++ evs)
      /\ leaseEvents evs
         = flat_map
             (fun ep =>
                if existsb (lockKey_eqb (leaseOf tenant ep)) (locks w) then []
                else [EAcquire (leaseOf tenant ep);
                      ERelease (leaseOf tenant ep)]) l).
  { induction l as [|ep l IH]; intros w1 evs1 X1.
    - exists w1, []. split; [reflexivity|]. rewrite app_nil_r. auto.
    - cbn [forEach flat_map]. unfold bind at 1.
      destruct (processOCPIEndpoint_balanced tenant ep config w1)
        as (w2 & evs2 & E2 & X2 & L2).
      rewrite E2.
      destruct (IH w2 (evs1 ++ evs2) (Ext_trans _ _ _ _ _ X1 X2))
        as (w3 & evs3 & E3 & X3 & L3).
      exists w3, (evs2 ++ evs3). split; [exact E3|].
      split; [now rewrite app_assoc|].
      rewrite leaseEvents_app, L2, L3.
      destruct X1 as [_ Xl]. now rewrite Xl. }
  destruct (Hloop (getOcpiEndpoints (tenant_id tenant)) w [] (Ext_refl w))
    as (w' & evs & E & X & L).
  rewrite E. exists w', evs. split; [reflexivity|].
  split; [exact X|]. split; [discriminate | intros _; exact L].
Qed.

End PushLocationsOverTenant.

(** ** The sessions endpoint *)

Section SessionsEndpoint.

Import CPOSessionsEndpoint.

Variable OCPIResponse : Type.
Variable OCPI_PULL_SESSIONS : ServerAction.
Variable CODE_2001_INVALID_PARAMETER_ERROR : Z.
Variable OCPI_RECORDS_LIMIT : Z.
Variable convertToInt : option string -> Z.
Variable convertToDate : option string -> option Z.
Variable getAllSessions :
  Tenant -> Z -> Z -> option Z -> option Z -> DataResult.
Variable buildNextUrl : HttpRequest -> string -> Z -> Z -> Z -> option string.
Variable getBaseUrl : HttpRequest -> string.
Variable success : list OCPISession -> OCPIResponse.

Lemma limitOf_capped (req : HttpRequest) :
  (limitOf OCPI_RECORDS_LIMIT convertToInt req <= OCPI_RECORDS_LIMIT)%Z.
Proof.
  unfold limitOf. destruct (truthy (limit (query req))); cbn [andb]; [|lia].
  destruct (Z.ltb_spec (convertToInt (limit (query req))) OCPI_RECORDS_LIMIT);
    lia.
Qed.

(** X20.  The sessions endpoint throws exactly when a GET comes without a
    [date_from] (absent or empty): the error is a 400 with the message
    "Missing 'date_from' parameter" and nothing is written on the response.
    A request with another method is not served: the reply is undefined
    and the response is left as it was. *)
Theorem sessions_endpoint_throws_iff_get_without_date_from
    (req : HttpRequest) (tenant : Tenant) (res : list ResponseCall) :
  ((exists e, fst (process OCPIResponse OCPI_PULL_SESSIONS
                CODE_2001_INVALID_PARAMETER_ERROR OCPI_RECORDS_LIMIT
                convertToInt convertToDate getAllSessions buildNextUrl
                getBaseUrl success req tenant res) = Thrown e)
   <-> (method req = "GET"%string
        /\ truthy (date_from (query req)) = false))
  /\ (forall e,
        fst (process OCPIResponse OCPI_PULL_SESSIONS
                CODE_2001_INVALID_PARAMETER_ERROR OCPI_RECORDS_LIMIT
                convertToInt convertToDate getAllSessions buildNextUrl
                getBaseUrl success req tenant res) = Thrown e ->
        errorCode e = 400%Z
        /\ message e = "Missing 'date_from' parameter"%string
        /\ snd (process OCPIResponse OCPI_PULL_SESSIONS
                CODE_2001_INVALID_PARAMETER_ERROR OCPI_RECORDS_LIMIT
                convertToInt convertToDate getAllSessions buildNextUrl
                getBaseUrl success req tenant res) = res)
  /\ (method req <> "GET"%string ->
      process OCPIResponse OCPI_PULL_SESSIONS
        CODE_2001_INVALID_PARAMETER_ERROR OCPI_RECORDS_LIMIT
        convertToInt convertToDate getAllSessions buildNextUrl
        getBaseUrl success req tenant res
      = (Returned None, res)).
Proof.
  unfold process, getSessionsRequest. cbv zeta.
  destruct (String.eqb_spec (method req) "GET") as [Hm|Hm];
    destruct (truthy (date_from (query req))); cbn [negb fst snd].
  - split; [split; [intros [e H]; discriminate | intros [_ H]; discriminate]|].
    split; [intros e H; discriminate | intros H; contradiction].
  - split; [split; [auto | intros _; eexists; reflexivity]|].
    split; [|intros H; contradiction].
    intros e H. injection H as <-. repeat split.
  - split; [split; [intros [e H]; discriminate | intros [H _]; contradiction]|].
    split; [intros e H; discriminate | reflexivity].
  - split; [split; [intros [e H]; discriminate | intros [H _]; contradiction]|].
    split; [intros e H; discriminate | reflexivity].
Qed.

(** X21.  A served GET hands back the sessions of one storage query whose
    page size never exceeds the record limit: it is the requested [limit]
    when that is given and below the record limit, and the record limit
    otherwise.  The response gets its headers once, with [X-Limit] always
    the record limit (not the page size used) and [X-Total-Count] the count
    of the query, followed by a next link only when one was built. *)
Theorem sessions_endpoint_page_is_capped
    (req : HttpRequest) (tenant : Tenant) (res : list ResponseCall)
    (Hget : method req = "GET"%string)
    (Hfrom : truthy (date_from (query req)) = true) :
  exists pageSize sessions links,
    (pageSize <= OCPI_RECORDS_LIMIT)%Z
    /\ (truthy (limit (query req)) = true ->
        (convertToInt (limit (query req)) < OCPI_RECORDS_LIMIT)%Z ->
        pageSize = convertToInt (limit (query req)))
    /\ (truthy (limit (query req)) = false
        \/ (OCPI_RECORDS_LIMIT <= convertToInt (limit (query req)))%Z ->
        pageSize = OCPI_RECORDS_LIMIT)
    /\ sessions
       = getAllSessions tenant pageSize
           (if truthy (offset (query req))
            then convertToInt (offset (query req)) else 0%Z)
           (convertToDate (date_from (query req)))
           (convertToDate (date_to (query req)))
    /\ process OCPIResponse OCPI_PULL_SESSIONS
         CODE_2001_INVALID_PARAMETER_ERROR OCPI_RECORDS_LIMIT
         convertToInt convertToDate getAllSessions buildNextUrl
         getBaseUrl success req tenant res
       = (Returned (Some (success (result sessions))),
          res ++ ResSet (count sessions) OCPI_RECORDS_LIMIT :: links)
    /\ (links = []
        \/ exists url, links = [ResLinks url] /\ url <> ""%string
             /\ buildNextUrl req (getBaseUrl req)
                  (if truthy (offset (query req))
                   then convertToInt (offset (query req)) else 0%Z)
                  pageSize (count sessions) = Some url).
Proof.
  exists (limitOf OCPI_RECORDS_LIMIT convertToInt req).
  eexists. 
  unfold process, getSessionsRequest. cbv zeta.
  rewrite Hget, Hfrom. cbn [String.eqb Ascii.eqb Bool.eqb negb].
  fold (offsetOf convertToInt req).
  set (lim := limitOf OCPI_RECORDS_LIMIT convertToInt req).
  set (sessions := getAllSessions tenant lim (offsetOf convertToInt req)
                     (convertToDate (date_from (query req)))
                     (convertToDate (date_to (query req)))).
  exists (match buildNextUrl req (getBaseUrl req) (offsetOf convertToInt req)
                  lim (count sessions) with
          | Some url => if (url =? "")%string then [] else [ResLinks url]
          | None => []
          end).
  split; [apply limitOf_capped|].
  split.
  { intros Ht Hlt. unfold lim, limitOf. rewrite Ht. cbn [andb].
    destruct (Z.ltb_spec (convertToInt (limit (query req)))
                OCPI_RECORDS_LIMIT); [reflexivity | lia]. }
  split.
  { intros [Hf | Hge]; unfold lim, limitOf.
    - now rewrite Hf.
    - destruct (Z.ltb_spec (convertToInt (limit (query req)))
                  OCPI_RECORDS_LIMIT); [lia|].
      now rewrite andb_false_r. }
  split; [reflexivity|].
  split.
  { destruct (buildNextUrl _ _ _ _ _) as [url|];
      [destruct (url =? "")%string|]; cbn [app];
      rewrite <- ?app_assoc; reflexivity. }
  destruct (buildNextUrl _ _ _ _ _) as [url|] eqn:E; [|now left].
  destruct (String.eqb_spec url ""); [now left|].
  right. exists url. auto.
Qed.

End SessionsEndpoint.

(** ** The further properties on concrete runs *)

Section ConcreteRuns.

Import Fixtures.
Import Scenarios.

(** X1 on a station with a stale authorization of the tag, one of another
    tag, and two valid ones: the first valid one is reused. *)
Lemma authorizeToken_reuses_first_valid_authorization_witness :
  authorizeToken acceptEnv client NO_ACTION freshFrom1000 evseUID
    authorizeAllowed (token "A")
    (stationDetails (Some [staleAuthorization; otherAuthorization;
                           freshAuthorization; laterAuthorization]))
    world0
  = (Ok "AUTH-2"%string, world0).
Proof.
  exact (authorizeToken_reuses_first_valid_authorization acceptEnv client
           NO_ACTION freshFrom1000 evseUID authorizeAllowed (token "A")
           (stationDetails (Some [staleAuthorization; otherAuthorization;
                                  freshAuthorization; laterAuthorization]))
           [staleAuthorization; otherAuthorization] [laterAuthorization]
           freshAuthorization world0 eq_refl eq_refl eq_refl eq_refl).
Defined.

(** X2 on a station whose cached authorizations are stale or of another
    tag: the partner is asked, and its authorization id is returned. *)
Lemma authorizeToken_requires_allowed_and_id_witness :
  fst (authorizeToken acceptEnv client NO_ACTION freshFrom1000 evseUID
         authorizeAllowed (token "A")
         (stationDetails (Some [staleAuthorization; otherAuthorization]))
         world0)
  = Ok "AUTH-9"%string.
Proof.
  refine (proj2 (proj1 (proj2
            (authorizeToken_requires_allowed_and_id acceptEnv client
               NO_ACTION freshFrom1000 evseUID authorizeAllowed (token "A")
               (stationDetails (Some [staleAuthorization; otherAuthorization]))
               world0 _)) "AUTH-9"%string) _).
  - intros l H. injection H as <-. reflexivity.
  - do 2 eexists. repeat split. discriminate.
Defined.

(** X4 on a station with three connectors and a partner that times out
    after its first answer: the first connector is patched, the PATCH of
    the second fails and is raised, and the third is never asked for. *)
Lemma removeChargingStation_stops_at_first_failure_witness :
  fst (removeChargingStation onceEnv client evseUID threeConnectors world0)
  = Raise (RemoteProtocolError OCPI_PATCH_STATUS "patchEVSEStatus"
             "https://iop/locations/FR/SLF/S1/CS1*2"
             "timeout of 30000ms exceeded")
  /\ map url
       (httpRequests
          (trace (snd (removeChargingStation onceEnv client evseUID
                         threeConnectors world0))))
     = ["https://iop/locations/FR/SLF/S1/CS1*1"%string;
        "https://iop/locations/FR/SLF/S1/CS1*2"%string]
  /\ exists res w' evs n done rest,
       removeChargingStation onceEnv client evseUID threeConnectors world0
       = (res, w')
       /\ Ext world0 w' evs
       /\ n <= 3
       /\ httpRequests evs
          = firstn n (map (removalRequest onceEnv client evseUID
                             threeConnectors)
                        [connector 1; connector 2; connector 3])
       /\ quiet evs
       /\ res <> OutOfFuel
       /\ (res = Ok tt <-> n = 3 /\ rest = [])
       /\ [connector 1; connector 2; connector 3] = done ++ rest
       /\ allAccepted
            (exchanged onceEnv []
               (map (removalRequest onceEnv client evseUID threeConnectors)
                  done))
       /\ match rest with
          | [] =>
              res = Ok tt
              /\ evs
                 = exchanged onceEnv []
                     (map (removalRequest onceEnv client evseUID
                             threeConnectors) done)
          | c :: _ =>
              let patched :=
                exchanged onceEnv []
                  (map (removalRequest onceEnv client evseUID
                          threeConnectors) done) in
              let out :=
                remote onceEnv ([] ++ patched)
                  (removalRequest onceEnv client evseUID threeConnectors c) in
              ((truthy (orEmpty (resolveSiteID onceEnv
                                   (station threeConnectors))) = false
                \/ truthy (evseUID (station threeConnectors) (Some c))
                   = false)
               /\ res = Raise (BackendError OCPI_PATCH_STATUS
                                 "patchEVSEStatus" "Invalid parameters")
               /\ evs = patched)
              \/ (truthy (orEmpty (resolveSiteID onceEnv
                                     (station threeConnectors))) = true
                  /\ truthy (evseUID (station threeConnectors) (Some c))
                     = true
                  /\ patchAccepted out = false
                  /\ (exists e, res = Raise e)
                  /\ evs
                     = patched
                       ++ [EHttp (removalRequest onceEnv client evseUID
                                    threeConnectors c) out])
          end.
Proof.
  split; [vm_compute; reflexivity|]. split; [vm_compute; reflexivity|].
  exact (removeChargingStation_stops_at_first_failure onceEnv client evseUID
           threeConnectors world0 (or_introl eq_refl) eq_refl).
Defined.

(** X6 on a stopped transaction billed 3. *)
Lemma postCdr_stores_floored_cdr_witness :
  cdrOf (fst (snd (postCdr acceptEnv client (stoppedTransaction 7, world0))))
  = Some cdr0
  /\ cdr_total_cost cdr0 = 3%Q.
Proof.
  destruct (postCdr_stores_floored_cdr acceptEnv client (stoppedTransaction 7)
              session0 stop0 world0 eq_refl eq_refl)
    as (A & _ & _ & _ & _ & B & _).
  split; [exact A | exact (B eq_refl)].
Defined.

(** X7 on a stopped transaction whose session was started. *)
Lemma session_state_is_written_before_the_call_witness :
  exists s',
    sessionOf (fst (snd (stopSession noContentEnv client
                           (stoppedTransaction 7, world0)))) = Some s'
    /\ status s' = COMPLETED
    /\ ses_id s' = "AUTH"%string
    /\ end_datetime s' = Some 5000%Z.
Proof.
  destruct (proj2 (session_state_is_written_before_the_call noContentEnv
                     client (stoppedTransaction 7) session0 world0 eq_refl)
              stop0 eq_refl)
    as (s' & A & B & C & _ & _ & D & _).
  exists s'. repeat split; assumption.
Defined.

Lemma acceptEnv_confirming : confirming acceptEnv.
Proof. intros tr req. eexists. repeat split. discriminate. Qed.

(** X9 on a partner that accepts every request. *)
Lemma session_life_cycle_composes_witness :
  exists t' w',
    sessionLifeCycle acceptEnv client (token "A") station0 "AUTH"
      (stoppedTransaction 7, world0)
    = (Ok (true, true), (t', w'))
    /\ List.length (httpRequests (trace w')) = 6.
Proof.
  destruct (session_life_cycle_composes acceptEnv client acceptEnv_confirming
              (token "A") station0 "AUTH" (stoppedTransaction 7) stop0 world0
              eq_refl)
    as (t' & w' & evs & data & s & c & E & Htr & Hreq & _).
  exists t', w'. split; [exact E|].
  rewrite Htr. cbn [trace world0 app].
  rewrite <- (length_map (fun q => (method q, url q))), Hreq. reflexivity.
Defined.

Lemma cyclingPartner_endless (u : string) (tr : list Event) :
  onCycle u ->
  exists resp tokens n,
    remote cyclingEnv tr (getRequest client u) = Completed resp
    /\ resp_status resp = 200%Z
    /\ dataOf resp = Some (DArray tokens)
    /\ getNextUrl cyclingEnv (link resp) = Some n
    /\ n <> ""%string /\ n <> u /\ onCycle n.
Proof.
  intros [-> | ->]; do 3 eexists;
    (split; [vm_compute; reflexivity|]);
    repeat split; try discriminate.
  - now right.
  - now left.
Qed.

(** X15 on two pages that link to each other: fifty rounds do not end the
    pull. *)
Lemma pullTokens_never_returns_on_endless_pages_witness :
  fst (pullTokens cyclingEnv client 50 false world0) = OutOfFuel.
Proof.
  exact (pullTokens_never_returns_on_endless_pages cyclingEnv client onCycle
           false world0 cyclingPartner_endless (or_introl eq_refl) 50).
Defined.

Lemma firstPageOnly_serves : Forall (servesPage firstPageEnv client) [page1].
Proof.
  repeat constructor; intros tr; eexists;
    (split; [vm_compute; reflexivity|]); repeat split.
Qed.

(** X16 on a partner that is down after its first page. *)
Lemma pullTokens_aborts_on_page_failure_witness :
  exists w' evs,
    pullTokens firstPageEnv client 2 false world0
    = (Raise (RemoteProtocolError OCPI_PULL_TOKENS "pullTokens"
                "https://iop/tokens?offset=3" "503"), w')
    /\ Ext world0 w' evs
    /\ steps evs
       = flat_map (pageSteps client) [page1]
         ++ [Fetch (getRequest client "https://iop/tokens?offset=3")].
Proof.
  refine (pullTokens_aborts_on_page_failure firstPageEnv client false [page1]
            "https://iop/tokens?offset=3" "503" 2 world0
            (fun _ => eq_refl) firstPageOnly_serves _ (le_n 2)).
  cbn. split; [reflexivity|]. eexists. repeat split; discriminate.
Defined.

(** X21 on a request for pages of two sessions out of three stored. *)
Lemma sessions_endpoint_page_is_capped_witness :
  exists pageSize sessions links,
    (pageSize <= 25)%Z
    /\ CPOSessionsEndpoint.process (list OCPISession) NO_ACTION 2001 25
         readInt (fun _ => None) storedSessions nextUrl
         (fun _ => "https://cpo/sessions"%string) (fun l => l)
         (sessionsRequest (Some "2"%string)) tenant0 []
       = (CPOSessionsEndpoint.Returned
            (Some (CPOSessionsEndpoint.result sessions)),
          CPOSessionsEndpoint.ResSet (CPOSessionsEndpoint.count sessions) 25
            :: links).
Proof.
  destruct (sessions_endpoint_page_is_capped (list OCPISession) NO_ACTION
              2001 25 readInt (fun _ => None) storedSessions nextUrl
              (fun _ => "https://cpo/sessions"%string) (fun l => l)
              (sessionsRequest (Some "2"%string)) tenant0 [] eq_refl eq_refl)
    as (pageSize & sessions & links & A & _ & _ & _ & B & _).
  exists pageSize, sessions, links. split; [exact A | exact B].
Defined.

End ConcreteRuns.
